(** * capstats: the backfill services, embedded and verified

    Shallow embedding of the two backfill services of the repository
    ([src/services/completeDataBackfillService.ts], called [Complete] below,
    and [src/services/dataBackfillService.ts], called [DataBackfill]):
    the JavaScript values they compute with, the rows they send to the
    relational store, the upsert statements, the season aggregations and
    the stage orchestrators with their per-stage exception handling. *)

From Stdlib Require Import ZArith List String Ascii Bool Lia QArith.
From Stdlib Require Import DecimalString DecimalPos DecimalZ.
Import ListNotations.

Local Open Scope Z_scope.
Local Open Scope string_scope.
Local Open Scope list_scope.

(* ================================================================== *)
(** * JavaScript values and the operators the services apply to them  *)
(* ================================================================== *)

Module Js.

(** Upstream records are untyped ([any]); a field holds one of these.
    Numbers are the integers (every count, id and score of the services
    is one) plus [NaN]; fractional numbers are outside the model. *)
Inductive value : Type :=
| Undefined
| Null
| Bool (b : bool)
| Num (z : Z)
| NaN
| Str (s : string).

Definition value_eq_dec (a b : value) : {a = b} + {a <> b}.
Proof.
  decide equality; [apply Bool.bool_dec | apply Z.eq_dec | apply string_dec].
Defined.

(** ToBoolean *)
Definition truthy (v : value) : bool :=
  match v with
  | Undefined | Null | NaN => false
  | Bool b => b
  | Num z => negb (z =? 0)%Z
  | Str s => negb (s =? "")%string
  end.

(** [a || b] *)
Definition or (a b : value) : value := if truthy a then a else b.

(** Decimal rendering of an integer, as [Number.prototype.toString] and
    the store's integer output both produce it. *)
Definition Z_to_string (z : Z) : string := NilZero.string_of_int (Z.to_int z).

(** ToString *)
Definition to_string (v : value) : string :=
  match v with
  | Undefined => "undefined"
  | Null => "null"
  | Bool true => "true"
  | Bool false => "false"
  | Num z => Z_to_string z
  | NaN => "NaN"
  | Str s => s
  end.

(** White space skipped by [parseInt], by [Number(string)] and by the
    store's integer input: space, tab, LF, VT, FF, CR. *)
Definition is_ws (c : ascii) : bool :=
  let n := N_of_ascii c in ((n =? 32) || ((9 <=? n) && (n <=? 13)))%N.

Definition is_digit (c : ascii) : bool :=
  let n := N_of_ascii c in ((48 <=? n) && (n <=? 57))%N.

Fixpoint strip_ws (s : string) : string :=
  match s with
  | String c r => if is_ws c then strip_ws r else s
  | EmptyString => s
  end.

Fixpoint rstrip_ws (s : string) : string :=
  match s with
  | String c r =>
      match rstrip_ws r with
      | EmptyString => if is_ws c then EmptyString else String c EmptyString
      | r' => String c r'
      end
  | EmptyString => EmptyString
  end.

Definition trim (s : string) : string := rstrip_ws (strip_ws s).

(** Longest prefix of decimal digits, and what follows it. *)
Fixpoint digits_prefix (s : string) : string * string :=
  match s with
  | String c r =>
      if is_digit c
      then let (d, rest) := digits_prefix r in (String c d, rest)
      else (EmptyString, s)
  | EmptyString => (EmptyString, EmptyString)
  end.

Fixpoint all_digits (s : string) : bool :=
  match s with
  | String c r => is_digit c && all_digits r
  | EmptyString => true
  end.

(** Value of a string of decimal digits. *)
Definition digits_value (s : string) : option Z :=
  option_map Z.of_uint (NilEmpty.uint_of_string s).

Definition hex_digit (c : ascii) : option Z :=
  let n := Z.of_N (N_of_ascii c) in
  if ((48 <=? n) && (n <=? 57))%Z then Some (n - 48)
  else if ((97 <=? n) && (n <=? 102))%Z then Some (n - 87)
  else if ((65 <=? n) && (n <=? 70))%Z then Some (n - 55)
  else None.

(** Value of the longest prefix of hexadecimal digits ([None]: no digit). *)
Fixpoint hex_prefix_acc (s : string) (acc : option Z) : option Z :=
  match s with
  | String c r =>
      match hex_digit c with
      | Some d =>
          hex_prefix_acc r (Some (16 * match acc with Some a => a | None => 0 end + d))
      | None => acc
      end
  | EmptyString => acc
  end.

Definition dec_prefix_value (s : string) : option Z :=
  match digits_prefix s with
  | (EmptyString, _) => None
  | (d, _) => digits_value d
  end.

(** A leading sign, and what follows it. *)
Definition split_sign (s : string) : bool * string :=
  match s with
  | String c r =>
      if Ascii.eqb c "-" then (true, r)
      else if Ascii.eqb c "+" then (false, r)
      else (false, s)
  | EmptyString => (false, s)
  end.

(** What follows a [0x] or [0X] prefix, if there is one. *)
Definition after_hex_prefix (s : string) : option string :=
  match s with
  | String c (String x r) =>
      if Ascii.eqb c "0" && (Ascii.eqb x "x" || Ascii.eqb x "X")
      then Some r else None
  | _ => None
  end.

(** [parseInt(s)] without a radix: leading white space, a sign, a [0x]
    prefix, then the longest run of digits; [NaN] when there is none. *)
Definition parseInt (s : string) : value :=
  let (neg, s2) := split_sign (strip_ws s) in
  let mag :=
    match after_hex_prefix s2 with
    | Some r => hex_prefix_acc r None
    | None => dec_prefix_value s2
    end in
  match mag with
  | Some m => Num (if neg then - m else m)
  | None => NaN
  end.

(** [parseInt(v)] on any value: the argument is converted to a string. *)
Definition parseInt_v (v : value) : value := parseInt (to_string v).

(** A whole string read as a signed decimal integer. *)
Definition signed_digits (s : string) : option Z :=
  let (neg, body) := split_sign s in
  match digits_prefix body with
  | (String c d, EmptyString) =>
      option_map (fun m => if neg then - m else m) (digits_value (String c d))
  | _ => None
  end.

(** ToNumber.  On strings: white space trimmed, the empty string is 0,
    a signed decimal integer is its value; every other string is [NaN]
    (fractional, exponent and prefixed literals are outside the model). *)
Definition to_number (v : value) : value :=
  match v with
  | Undefined => NaN
  | Null => Num 0
  | Bool b => Num (if b then 1 else 0)
  | Num z => Num z
  | NaN => NaN
  | Str s =>
      match trim s with
      | EmptyString => Num 0
      | t => match signed_digits t with Some z => Num z | None => NaN end
      end
  end.

Definition arith (f : Z -> Z -> Z) (a b : value) : value :=
  match to_number a, to_number b with
  | Num x, Num y => Num (f x y)
  | _, _ => NaN
  end.

(** [a * b] and [a - b]: both operands go through ToNumber. *)
Definition mul : value -> value -> value := arith Z.mul.
Definition sub : value -> value -> value := arith Z.sub.

Definition is_str (v : value) : bool :=
  match v with Str _ => true | _ => false end.

(** [a + b]: concatenation as soon as one operand is a string. *)
Definition add (a b : value) : value :=
  if is_str a || is_str b
  then Str (to_string a ++ to_string b)
  else arith Z.add a b.

(** [a > b] *)
Definition gt (a b : value) : bool :=
  match a, b with
  | Str x, Str y => String.ltb y x
  | _, _ =>
      match to_number a, to_number b with
      | Num x, Num y => (y <? x)%Z
      | _, _ => false
      end
  end.

(** [a === b] *)
Definition strict_eq (a b : value) : bool :=
  match a, b with
  | Undefined, Undefined | Null, Null => true
  | Bool x, Bool y => Bool.eqb x y
  | Num x, Num y => (x =? y)%Z
  | Str x, Str y => (x =? y)%string
  | _, _ => false
  end.

(** [s.split(sep)] for a one-character separator. *)
Fixpoint split (sep : ascii) (s : string) : list string :=
  match s with
  | EmptyString => [EmptyString]
  | String c r =>
      if Ascii.eqb c sep then EmptyString :: split sep r
      else match split sep r with
           | h :: t => String c h :: t
           | [] => [String c EmptyString]
           end
  end.

(** The double quote. *)
Definition dquote : ascii := ascii_of_nat 34.

(** [s.replace(/c/g, '')] for a pattern of one character. *)
Fixpoint remove_char (c : ascii) (s : string) : string :=
  match s with
  | EmptyString => EmptyString
  | String x r =>
      if Ascii.eqb x c then remove_char c r else String x (remove_char c r)
  end.

(** An object built field by field: [o[k] = v] overwrites the field
    when it is there and adds it otherwise; [o[k]] is [undefined] for a
    field that is not there.  (Names inherited from [Object.prototype]
    are not modelled.) *)
Definition object : Type := list (string * value).

Fixpoint set_field (k : string) (v : value) (o : object) : object :=
  match o with
  | [] => [(k, v)]
  | (k', v') :: rest =>
      if (k' =? k)%string then (k', v) :: rest
      else (k', v') :: set_field k v rest
  end.


End Js.

(* ================================================================== *)
(** * The relational store                                            *)
(* ================================================================== *)

(** What becomes of a statement parameter: node-postgres sends [null]
    and [undefined] as NULL and every other value as its string form;
    the store then reads that text with the input syntax of the column. *)
Module Pg.

Definition param (v : Js.value) : option string :=
  match v with
  | Js.Null | Js.Undefined => None
  | _ => Some (Js.to_string v)
  end.

(** Integer input syntax: optional surrounding white space, a sign,
    digits.  (The range check of the integer types is not modelled.) *)
Definition int_in (s : string) : option Z := Js.signed_digits (Js.trim s).

(** Modelled from the spec: the table declarations are not part of the
    sources; ids and box-score counts are integer columns that take no
    NULL (section 3 of the spec).  [None]: the statement is refused. *)
Definition int_col (v : Js.value) : option Z :=
  match param v with
  | Some s => int_in s
  | None => None
  end.

(** An integer column that takes NULL; the outer [None] is a refusal. *)
Definition int_null_col (v : Js.value) : option (option Z) :=
  match param v with
  | Some s => option_map Some (int_in s)
  | None => Some None
  end.

(** A text column: the string form of the parameter, or NULL. *)
Definition text_col (v : Js.value) : option string := param v.

(** A boolean column; the services only ever send a JavaScript boolean. *)
Definition bool_col (v : Js.value) : option bool :=
  match param v with
  | Some "true" => Some true
  | Some "false" => Some false
  | _ => None
  end.

(** How the driver hands back a [bigint], the type of [COUNT( * )] and
    of [SUM] over an integer column: as a decimal string.  ([Complete]
    reads such fields through [parseInt], e.g.
    [parseInt(existsResult.rows[0].count)].) *)
Definition bigint_out (z : Z) : Js.value := Js.Str (Js.Z_to_string z).

(** [SUM] over the selected rows: NULL when no row is selected. *)
Definition sum_out (xs : list Z) : Js.value :=
  match xs with
  | [] => Js.Null
  | _ => bigint_out (fold_right Z.add 0 xs)
  end.

(** The message of the error raised for a refused statement. *)
Definition refused : string := "invalid input syntax".

End Pg.

(** Tables are lists of rows in insertion order; the statements below
    are the three write forms the services use. *)
Module Table.
Section Ops.
Context {Row Key : Type}.
Variable key : Row -> Key.
Variable key_eqb : Key -> Key -> bool.

Definition has_key (k : Key) (r : Row) : bool := key_eqb (key r) k.

(** [SELECT COUNT( * ) ... WHERE key = k] *)
Definition count_key (k : Key) (tbl : list Row) : Z :=
  Z.of_nat (List.length (filter (has_key k) tbl)).

Definition conflicts (k : Key) (tbl : list Row) : bool :=
  existsb (has_key k) tbl.

(** [INSERT ... ON CONFLICT (key) DO UPDATE SET ...]: [merge old new]
    is the old row with the listed columns taken from the new one. *)
Definition insert_do_update (merge : Row -> Row -> Row) (new : Row)
    (tbl : list Row) : list Row :=
  if conflicts (key new) tbl
  then map (fun r => if has_key (key new) r then merge r new else r) tbl
  else tbl ++ [new].

(** [INSERT ... ON CONFLICT (key) DO NOTHING] *)
Definition insert_do_nothing (new : Row) (tbl : list Row) : list Row :=
  if conflicts (key new) tbl then tbl else tbl ++ [new].

(** Plain [INSERT]. *)
Definition insert (new : Row) (tbl : list Row) : list Row := tbl ++ [new].

(** An [INSERT ... SELECT ... ON CONFLICT DO UPDATE], or a loop of
    upserts: the rows are upserted one after the other. *)
Definition upsert_all (merge : Row -> Row -> Row) (selected : list Row)
    (tbl : list Row) : list Row :=
  fold_left (fun t r => insert_do_update merge r t) selected tbl.

(** What one upsert does to a row that is already there, what a
    sequence of them does to it, and the last row of a sequence with
    a given key. *)
Definition touch (merge : Row -> Row -> Row) (new r : Row) : Row :=
  if has_key (key new) r then merge r new else r.

Definition touch_all (merge : Row -> Row -> Row) (sel : list Row) (r : Row)
    : Row :=
  fold_left (fun r' new => touch merge new r') sel r.

Fixpoint last_with (k : Key) (sel : list Row) : option Row :=
  match sel with
  | [] => None
  | x :: rest =>
      match last_with k rest with
      | Some a => Some a
      | None => if has_key k x then Some x else None
      end
  end.
End Ops.
End Table.

(** ** Rows

    Modelled from the spec: the columns are those named in the services'
    statements, typed after section 3 of the spec (the declarations of the
    tables are not in the sources).  A field of type [option] holds [None]
    for NULL, which is also what a column is left at when no statement
    ever supplied a value for it.  Timestamps ([updated_at]) are left out. *)

Record TeamRow := {
  t_id : Z;
  t_name : option string;
  t_abbreviation : option string;
  t_city : option string;
  t_division : option string;
  t_conference : option string }.

Record PlayerRow := {
  p_id : Z;
  p_team_id : Z;
  p_first_name : option string;
  p_last_name : option string;
  p_position : option string;
  p_jersey_number : option Z }.

Record GameRow := {
  g_id : Z;
  g_season : option string;
  g_game_type : option string;
  g_date_time : option string;
  g_home_team_id : option Z;
  g_away_team_id : option Z;
  g_home_score : Z;
  g_away_score : Z;
  g_period : option Z;
  g_game_state : option string;
  g_venue : option string }.

Record PlayerGameStatRow := {
  pgs_game_id : Z;
  pgs_player_id : Z;
  pgs_team_id : Z;
  pgs_goals : Z;
  pgs_assists : Z;
  pgs_points : Z;
  pgs_plus_minus : Z;
  pgs_penalty_minutes : Z;
  pgs_shots : Z;
  pgs_hits : Z;
  pgs_blocks : Z;
  pgs_time_on_ice_seconds : Z;
  pgs_powerplay_time_seconds : option Z;
  pgs_shorthanded_time_seconds : option Z;
  pgs_corsi_for : option Z;
  pgs_corsi_against : option Z;
  pgs_expected_goals : option Z;
  pgs_expected_assists : option Z;
  pgs_individual_corsi_for : option Z;
  pgs_individual_fenwick_for : option Z }.

Record TeamGameStatRow := {
  tgs_game_id : Z;
  tgs_team_id : Z;
  tgs_is_home : bool;
  tgs_goals : Z;
  tgs_shots : Z;
  tgs_hits : Z }.

Record PlayerSeasonStatRow := {
  pss_player_id : Z;
  pss_season : string;
  pss_team_id : Z;
  pss_games_played : Z;
  pss_goals : Z;
  pss_assists : Z;
  pss_points : Z;
  pss_plus_minus : Z;
  pss_penalty_minutes : Z;
  pss_shots : Z;
  pss_shooting_percentage : option Q;
  pss_time_on_ice_total_seconds : Z;
  pss_time_on_ice_avg_seconds : option Q;
  pss_powerplay_time_total_seconds : option Z;
  pss_shorthanded_time_total_seconds : option Z }.

Record TeamSeasonStatRow := {
  tss_team_id : Z;
  tss_season : string;
  tss_games_played : Z;
  tss_wins : Z;
  tss_losses : Z;
  tss_overtime_losses : option Z;
  tss_points : Z;
  tss_goals_for : Z;
  tss_goals_against : Z;
  tss_goal_differential : Z }.

Record GoalieGameStatRow := {
  ggs_game_id : Z;
  ggs_player_id : Z;
  ggs_team_id : Z;
  ggs_shots_against : Z;
  ggs_saves : Z;
  ggs_goals_against : Z;
  ggs_save_percentage : option Q;
  ggs_time_on_ice_seconds : Z;
  ggs_shutout : bool }.

Record ShotRow := {
  sh_game_id : Z;
  sh_shooter_id : option Z;
  sh_team_id : option Z;
  sh_period : Z;
  sh_shot_type : option string;
  sh_is_goal : bool;
  sh_shot_distance : option Q }.

Record Db := {
  teams : list TeamRow;
  players : list PlayerRow;
  games : list GameRow;
  player_game_stats : list PlayerGameStatRow;
  player_season_stats : list PlayerSeasonStatRow;
  team_game_stats : list TeamGameStatRow;
  team_season_stats : list TeamSeasonStatRow;
  goalie_game_stats : list GoalieGameStatRow;
  shots : list ShotRow }.

Definition empty_db : Db :=
  {| teams := [];
     players := [];
     games := [];
     player_game_stats := [];
     player_season_stats := [];
     team_game_stats := [];
     team_season_stats := [];
     goalie_game_stats := [];
     shots := [] |}.

Definition set_teams (x : list TeamRow) (d : Db) : Db :=
  {| teams := x;
     players := players d;
     games := games d;
     player_game_stats := player_game_stats d;
     player_season_stats := player_season_stats d;
     team_game_stats := team_game_stats d;
     team_season_stats := team_season_stats d;
     goalie_game_stats := goalie_game_stats d;
     shots := shots d |}.

Definition set_players (x : list PlayerRow) (d : Db) : Db :=
  {| teams := teams d;
     players := x;
     games := games d;
     player_game_stats := player_game_stats d;
     player_season_stats := player_season_stats d;
     team_game_stats := team_game_stats d;
     team_season_stats := team_season_stats d;
     goalie_game_stats := goalie_game_stats d;
     shots := shots d |}.

Definition set_games (x : list GameRow) (d : Db) : Db :=
  {| teams := teams d;
     players := players d;
     games := x;
     player_game_stats := player_game_stats d;
     player_season_stats := player_season_stats d;
     team_game_stats := team_game_stats d;
     team_season_stats := team_season_stats d;
     goalie_game_stats := goalie_game_stats d;
     shots := shots d |}.

Definition set_player_game_stats (x : list PlayerGameStatRow) (d : Db) : Db :=
  {| teams := teams d;
     players := players d;
     games := games d;
     player_game_stats := x;
     player_season_stats := player_season_stats d;
     team_game_stats := team_game_stats d;
     team_season_stats := team_season_stats d;
     goalie_game_stats := goalie_game_stats d;
     shots := shots d |}.

Definition set_player_season_stats (x : list PlayerSeasonStatRow) (d : Db) : Db :=
  {| teams := teams d;
     players := players d;
     games := games d;
     player_game_stats := player_game_stats d;
     player_season_stats := x;
     team_game_stats := team_game_stats d;
     team_season_stats := team_season_stats d;
     goalie_game_stats := goalie_game_stats d;
     shots := shots d |}.

Definition set_team_game_stats (x : list TeamGameStatRow) (d : Db) : Db :=
  {| teams := teams d;
     players := players d;
     games := games d;
     player_game_stats := player_game_stats d;
     player_season_stats := player_season_stats d;
     team_game_stats := x;
     team_season_stats := team_season_stats d;
     goalie_game_stats := goalie_game_stats d;
     shots := shots d |}.

Definition set_team_season_stats (x : list TeamSeasonStatRow) (d : Db) : Db :=
  {| teams := teams d;
     players := players d;
     games := games d;
     player_game_stats := player_game_stats d;
     player_season_stats := player_season_stats d;
     team_game_stats := team_game_stats d;
     team_season_stats := x;
     goalie_game_stats := goalie_game_stats d;
     shots := shots d |}.

Definition set_goalie_game_stats (x : list GoalieGameStatRow) (d : Db) : Db :=
  {| teams := teams d;
     players := players d;
     games := games d;
     player_game_stats := player_game_stats d;
     player_season_stats := player_season_stats d;
     team_game_stats := team_game_stats d;
     team_season_stats := team_season_stats d;
     goalie_game_stats := x;
     shots := shots d |}.


(** Natural keys and their equality tests. *)
Definition pair_eqb (a b : Z * Z) : bool :=
  (fst a =? fst b)%Z && (snd a =? snd b)%Z.

Definition pgs_key (r : PlayerGameStatRow) : Z * Z :=
  (pgs_game_id r, pgs_player_id r).
Definition tgs_key (r : TeamGameStatRow) : Z * Z :=
  (tgs_game_id r, tgs_team_id r).

Definition pss_key (r : PlayerSeasonStatRow) : Z * string * Z :=
  (pss_player_id r, pss_season r, pss_team_id r).
Definition pss_key_eqb (a b : Z * string * Z) : bool :=
  let '(p1, s1, t1) := a in
  let '(p2, s2, t2) := b in
  (p1 =? p2)%Z && (s1 =? s2)%string && (t1 =? t2)%Z.

Definition tss_key (r : TeamSeasonStatRow) : Z * string :=
  (tss_team_id r, tss_season r).
Definition tss_key_eqb (a b : Z * string) : bool :=
  (fst a =? fst b)%Z && (snd a =? snd b)%string.

(** The outcome of a call that talks to the store: the store it leaves
    and the message of the error it throws, if it throws. *)
Definition Outcome : Type := Db * option string.

(** One statement on one table: refused when the parameters do not fit
    the columns, in which case the table is left as it was. *)
Definition statement {Row : Type} (bound : option Row)
    (op : Row -> list Row -> list Row) (tbl : list Row)
    : list Row * option string :=
  match bound with
  | Some r => (op r tbl, None)
  | None => (tbl, Some Pg.refused)
  end.

(** [for (const x of xs) await f(x)]: stops at the first throw. *)
Fixpoint for_each {A : Type} (f : A -> Db -> Outcome) (xs : list A)
    (d : Db) : Outcome :=
  match xs with
  | [] => (d, None)
  | x :: rest =>
      match f x d with
      | (d', None) => for_each f rest d'
      | thrown => thrown
      end
  end.

(** The rows of the longest prefix of [xs] whose parameters the store
    accepts: those a loop of statements gets to write. *)
Fixpoint bound_prefix {A Row : Type} (bound : A -> option Row) (xs : list A)
    : list Row :=
  match xs with
  | [] => []
  | x :: rest =>
      match bound x with
      | Some r => r :: bound_prefix bound rest
      | None => []
      end
  end.

(** One statement of a loop, on the table that [get] reads and [put]
    writes. *)
Definition statement_on {A Row : Type} (get : Db -> list Row)
    (put : list Row -> Db -> Db) (bound : A -> option Row)
    (op : Row -> list Row -> list Row) (x : A) (d : Db) : Outcome :=
  let (tbl, e) := statement (bound x) op (get d) in (put tbl d, e).

(** Check, then insert: [SELECT COUNT( * ) ... WHERE] the two key columns
    match, and a plain [INSERT] when
    [parseInt(existsResult.rows[0].count) === 0]. *)
Definition insert_if_absent {Row : Type} (get : Db -> list Row)
    (put : list Row -> Db -> Db) (key : Row -> Z * Z) (k : Z * Z)
    (bound : option Row) (d : Db) : Outcome :=
  let count := Pg.bigint_out (Table.count_key key pair_eqb k (get d)) in
  if Js.strict_eq (Js.parseInt_v count) (Js.Num 0)
  then let (tbl, e) := statement bound Table.insert (get d) in (put tbl d, e)
  else (d, None).

(** The same call made [n] times in a row, each on the store the
    previous one left (whether or not it threw). *)
Definition repeat_call (n : nat) (call : Db -> Outcome) (d : Db) : Db :=
  Nat.iter n (fun d' => fst (call d')) d.

(* ================================================================== *)
(** * Upstream records                                                *)
(* ================================================================== *)

(** The fields the services read from the upstream JSON, each already
    taken through its access path: [st_teamAbbrev] is
    [standing.teamAbbrev?.default], and is [Js.Undefined] when any step
    of the path is missing. *)

Record Standing := {
  st_teamAbbrev : Js.value;
  st_teamName : Js.value;
  st_placeName : Js.value;
  st_divisionName : Js.value;
  st_conferenceName : Js.value }.

Record PlayerSummary := {
  pl_playerId : Js.value;
  pl_teamId : Js.value;
  pl_firstName : Js.value;
  pl_lastName : Js.value;
  pl_position : Js.value;
  pl_sweaterNumber : Js.value }.

Record ScheduleGame := {
  sg_id : Js.value;
  sg_gameType : Js.value;
  sg_gameDate : Js.value;
  sg_startTimeUTC : Js.value;
  sg_homeTeam_id : Js.value;
  sg_awayTeam_id : Js.value;
  sg_homeTeam_score : Js.value;
  sg_awayTeam_score : Js.value;
  sg_gameState : Js.value;
  sg_venue : Js.value;
  sg_period : Js.value;
  sg_gameScheduleState : Js.value }.

(** [timeOnIce] fields are typed [string | null] by the services. *)
Record SkaterStats := {
  sk_goals : Js.value;
  sk_assists : Js.value;
  sk_plusMinus : Js.value;
  sk_penaltyMinutes : Js.value;
  sk_shots : Js.value;
  sk_hits : Js.value;
  sk_blockedShots : Js.value;
  sk_timeOnIce : option string;
  sk_powerPlay_timeOnIce : option string;
  sk_penaltyKill_timeOnIce : option string;
  sk_corsiFor : Js.value;
  sk_corsiAgainst : Js.value;
  sk_expectedGoals : Js.value;
  sk_expectedAssists : Js.value;
  sk_individualCorsiFor : Js.value;
  sk_individualFenwickFor : Js.value }.

Record TeamBox := {
  tb_score : Js.value;
  tb_sog : Js.value;
  tb_hits : Js.value }.

(* ================================================================== *)
(** * Queries shared by the two services                              *)
(* ================================================================== *)

Definition opt_str_is (s : string) (o : option string) : bool :=
  match o with
  | Some x => (x =? s)%string
  | None => false
  end.

(** [FROM player_game_stats pgs JOIN games g ON pgs.game_id = g.id
     WHERE g.season = $1]: one copy of the stat row per matching game. *)
Definition pgs_in_season (season : string) (d : Db) : list PlayerGameStatRow :=
  flat_map
    (fun r =>
       map (fun _ => r)
           (filter (fun g => (g_id g =? pgs_game_id r)%Z
                             && opt_str_is season (g_season g))
                   (games d)))
    (player_game_stats d).

Definition pgs_group (r : PlayerGameStatRow) : Z * Z :=
  (pgs_player_id r, pgs_team_id r).

Definition ZZ_eq_dec (a b : Z * Z) : {a = b} + {a <> b}.
Proof. decide equality; apply Z.eq_dec. Defined.

(** [GROUP BY player_id, team_id]: the groups and the rows of a group. *)
Definition pgs_groups (rows : list PlayerGameStatRow) : list (Z * Z) :=
  nodup ZZ_eq_dec (map pgs_group rows).

Definition pgs_group_rows (k : Z * Z) (rows : list PlayerGameStatRow)
    : list PlayerGameStatRow :=
  filter (fun r => pair_eqb (pgs_group r) k) rows.

(** [SUM(col)] over a non-empty group of an integer column. *)
Definition sum_col {Row : Type} (col : Row -> Z) (rows : list Row) : Z :=
  fold_right Z.add 0 (map col rows).

(** [COUNT( * )] *)
Definition count_rows {Row : Type} (rows : list Row) : Z :=
  Z.of_nat (List.length rows).

(** [SUM(col)] of a column that holds NULLs: they are skipped, and the
    sum is NULL when nothing is left. *)
Definition sum_null_col {Row : Type} (col : Row -> option Z)
    (rows : list Row) : option Z :=
  fold_right
    (fun r acc =>
       match col r, acc with
       | Some x, Some a => Some (x + a)
       | Some x, None => Some x
       | None, _ => acc
       end) None rows.

(** [FROM team_game_stats tgs JOIN games g ON tgs.game_id = g.id
     WHERE tgs.team_id = $1 AND g.season = $2 AND g.game_state = 'Final'] *)
Definition tgs_final_in_season (team : Z) (season : string) (d : Db)
    : list (TeamGameStatRow * GameRow) :=
  flat_map
    (fun r =>
       map (fun g => (r, g))
           (filter (fun g => (g_id g =? tgs_game_id r)%Z
                             && (tgs_team_id r =? team)%Z
                             && opt_str_is season (g_season g)
                             && opt_str_is "Final" (g_game_state g))
                   (games d)))
    (team_game_stats d).

(** [(is_home AND home_score > away_score) OR
     (NOT is_home AND away_score > home_score)] *)
Definition own_score_higher (x : TeamGameStatRow * GameRow) : bool :=
  let (r, g) := x in
  (tgs_is_home r && (g_away_score g <? g_home_score g)%Z)
  || (negb (tgs_is_home r) && (g_home_score g <? g_away_score g)%Z).

(** [CASE WHEN is_home THEN away_score ELSE home_score END] *)
Definition opponent_score (x : TeamGameStatRow * GameRow) : Z :=
  let (r, g) := x in
  if tgs_is_home r then g_away_score g else g_home_score g.

Definition case_1_0 (b : bool) : Z := if b then 1 else 0.

(** [(is_home AND home_score < away_score) OR
     (NOT is_home AND away_score < home_score)] *)
Definition own_score_lower (x : TeamGameStatRow * GameRow) : bool :=
  let (r, g) := x in
  (tgs_is_home r && (g_home_score g <? g_away_score g)%Z)
  || (negb (tgs_is_home r) && (g_away_score g <? g_home_score g)%Z).

(* ================================================================== *)
(** * Asynchronous methods: state and exceptions                      *)
(* ================================================================== *)

(** An [async] method of a service is a function of the service's state
    that returns the new state with either a value or the thrown
    exception.  Every [await] is sequential in the services, so the
    order of effects is the order of the text. *)
Module Run.

Inductive exn : Type :=
| Error (message : string)
| Thrown.   (* a thrown value that is not an [Error] *)

(** [error instanceof Error ? error.message : 'Unknown error occurred'] *)
Definition errorMessage (e : exn) : string :=
  match e with
  | Error m => m
  | Thrown => "Unknown error occurred"
  end.

Inductive Result (A : Type) : Type :=
| Ok (a : A)
| Throw (e : exn).
Arguments Ok {A} a.
Arguments Throw {A} e.

Definition M (S A : Type) : Type := S -> Result A * S.

Section Monad.
Context {S : Type}.

Definition ret {A : Type} (a : A) : M S A := fun s => (Ok a, s).

Definition bind {A B : Type} (c : M S A) (k : A -> M S B) : M S B :=
  fun s =>
    match c s with
    | (Ok a, s') => k a s'
    | (Throw e, s') => (Throw e, s')
    end.

Definition throw {A : Type} (e : exn) : M S A := fun s => (Throw e, s).

Definition modify (f : S -> S) : M S unit := fun s => (Ok tt, f s).

(** [try { body } catch (error) { handler }] *)
Definition try_catch {A : Type} (body : M S A) (handler : exn -> M S A)
    : M S A :=
  fun s =>
    match body s with
    | (Throw e, s') => handler e s'
    | done => done
    end.

(** [try { body } finally { fin }], for a [fin] that cannot throw. *)
Definition try_finally {A : Type} (body : M S A) (fin : S -> S) : M S A :=
  fun s => let (r, s') := body s in (r, fin s').

(** [for (const x of xs) { await f(x) }] *)
Fixpoint for_of {A : Type} (xs : list A) (f : A -> M S unit) : M S unit :=
  match xs with
  | [] => ret tt
  | x :: rest => bind (f x) (fun _ => for_of rest f)
  end.
End Monad.

(** A store call inside a method: its error becomes the exception. *)
Definition of_outcome {A : Type} (o : A * option string) : A * option exn :=
  (fst o, option_map Error (snd o)).

End Run.

Declare Scope run_scope.
Delimit Scope run_scope with run.
Notation "c1 ;; c2" := (Run.bind c1 (fun _ => c2))
  (at level 61, right associativity) : run_scope.

(* ================================================================== *)
(** * completeDataBackfillService.ts: statements and aggregations     *)
(* ================================================================== *)

Module Complete.

Definition CAPITALS_TEAM_ID : Z := 15.

Definition mapping : list (string * Z) :=
  [("NJD", 1); ("NYI", 2); ("NYR", 3); ("PHI", 4); ("PIT", 5); ("BOS", 6);
   ("BUF", 7); ("MTL", 8); ("OTT", 9); ("TOR", 10); ("CAR", 12); ("FLA", 13);
   ("TBL", 14); ("WSH", 15); ("CHI", 16); ("DET", 17); ("NSH", 18);
   ("STL", 19); ("CGY", 20); ("COL", 21); ("EDM", 22); ("VAN", 23);
   ("ANA", 24); ("DAL", 25); ("LAK", 26); ("SJS", 27); ("CBJ", 28);
   ("MIN", 29); ("WPG", 30); ("ARI", 53); ("VGK", 54); ("SEA", 55)].

Fixpoint lookup (k : string) (m : list (string * Z)) : Js.value :=
  match m with
  | [] => Js.Undefined
  | (k', v) :: rest => if (k' =? k)%string then Js.Num v else lookup k rest
  end.

(** [mapping[abbrev] || 999]; the key is the string form of [abbrev].
    (Names inherited from [Object.prototype] are not modelled.) *)
Definition getTeamIdFromAbbrev (abbrev : Js.value) : Js.value :=
  Js.or (lookup (Js.to_string abbrev) mapping) (Js.Num 999).

Definition mapGameState (gameState : Js.value) : Js.value :=
  if Js.strict_eq gameState (Js.Num 3) || Js.strict_eq gameState (Js.Str "Final")
  then Js.Str "Final"
  else if Js.strict_eq gameState (Js.Num 1) then Js.Str "Scheduled"
  else if Js.strict_eq gameState (Js.Num 2) then Js.Str "Live"
  else Js.Str "Unknown".

(** [None] is [null]; the empty string is falsy as well. *)
Definition parseTimeToSeconds (timeString : option string) : Js.value :=
  match timeString with
  | None => Js.Num 0
  | Some s =>
      if negb (Js.truthy (Js.Str s)) then Js.Num 0
      else match Js.split ":" s with
           | [m; sec] =>
               Js.add (Js.mul (Js.parseInt m) (Js.Num 60)) (Js.parseInt sec)
           | _ => Js.Num 0
           end
  end.

(** ** teams *)

Definition insertTeam_values (standing : Standing) : list Js.value :=
  let teamAbbrev := Js.or (st_teamAbbrev standing) (Js.Str "UNK") in
  let teamName := Js.or (st_teamName standing) (Js.Str "Unknown") in
  let teamId := getTeamIdFromAbbrev teamAbbrev in
  [ teamId;
    teamName;
    teamAbbrev;
    Js.or (st_placeName standing) (Js.Str "Unknown");
    Js.or (st_divisionName standing) (Js.Str "Unknown");
    Js.or (st_conferenceName standing) (Js.Str "Unknown") ].

(** [(id, name, abbreviation, city, division, conference)
     VALUES ($1, $2, $3, $4, $5, $6)] *)
Definition bind_team (values : list Js.value) : option TeamRow :=
  match values with
  | [i; n; a; c; d; f] =>
      match Pg.int_col i with
      | Some id =>
          Some {| t_id := id; t_name := Pg.text_col n;
                  t_abbreviation := Pg.text_col a; t_city := Pg.text_col c;
                  t_division := Pg.text_col d; t_conference := Pg.text_col f |}
      | None => None
      end
  | _ => None
  end.

(** [DO UPDATE SET name, abbreviation, division, conference] *)
Definition insertTeam_set (old new : TeamRow) : TeamRow :=
  {| t_id := t_id old; t_name := t_name new;
     t_abbreviation := t_abbreviation new; t_city := t_city old;
     t_division := t_division new; t_conference := t_conference new |}.

Definition insertTeam (standing : Standing) (d : Db) : Outcome :=
  let (tbl, e) :=
    statement (bind_team (insertTeam_values standing))
              (Table.insert_do_update t_id Z.eqb insertTeam_set) (teams d) in
  (set_teams tbl d, e).

Record FallbackTeam := {
  ft_id : Z; ft_name : string; ft_abbrev : string; ft_city : string;
  ft_division : string; ft_conference : string }.

Definition ft (id : Z) (name abbrev city division conference : string) :=
  {| ft_id := id; ft_name := name; ft_abbrev := abbrev; ft_city := city;
     ft_division := division; ft_conference := conference |}.

Definition fallback_teams : list FallbackTeam :=
  [ ft 1 "New Jersey Devils" "NJD" "New Jersey" "Metropolitan" "Eastern";
    ft 2 "New York Islanders" "NYI" "New York" "Metropolitan" "Eastern";
    ft 3 "New York Rangers" "NYR" "New York" "Metropolitan" "Eastern";
    ft 4 "Philadelphia Flyers" "PHI" "Philadelphia" "Metropolitan" "Eastern";
    ft 5 "Pittsburgh Penguins" "PIT" "Pittsburgh" "Metropolitan" "Eastern";
    ft 6 "Boston Bruins" "BOS" "Boston" "Atlantic" "Eastern";
    ft 7 "Buffalo Sabres" "BUF" "Buffalo" "Atlantic" "Eastern";
    ft 8 "Montreal Canadiens" "MTL" "Montreal" "Atlantic" "Eastern";
    ft 9 "Ottawa Senators" "OTT" "Ottawa" "Atlantic" "Eastern";
    ft 10 "Toronto Maple Leafs" "TOR" "Toronto" "Atlantic" "Eastern";
    ft 12 "Carolina Hurricanes" "CAR" "Carolina" "Metropolitan" "Eastern";
    ft 13 "Florida Panthers" "FLA" "Florida" "Atlantic" "Eastern";
    ft 14 "Tampa Bay Lightning" "TBL" "Tampa Bay" "Atlantic" "Eastern";
    ft 15 "Washington Capitals" "WSH" "Washington" "Metropolitan" "Eastern";
    ft 16 "Chicago Blackhawks" "CHI" "Chicago" "Central" "Western";
    ft 17 "Detroit Red Wings" "DET" "Detroit" "Atlantic" "Eastern";
    ft 18 "Nashville Predators" "NSH" "Nashville" "Central" "Western";
    ft 19 "St. Louis Blues" "STL" "St. Louis" "Central" "Western";
    ft 20 "Calgary Flames" "CGY" "Calgary" "Pacific" "Western";
    ft 21 "Colorado Avalanche" "COL" "Colorado" "Central" "Western";
    ft 22 "Edmonton Oilers" "EDM" "Edmonton" "Pacific" "Western";
    ft 23 "Vancouver Canucks" "VAN" "Vancouver" "Pacific" "Western";
    ft 24 "Anaheim Ducks" "ANA" "Anaheim" "Pacific" "Western";
    ft 25 "Dallas Stars" "DAL" "Dallas" "Central" "Western";
    ft 26 "Los Angeles Kings" "LAK" "Los Angeles" "Pacific" "Western";
    ft 27 "San Jose Sharks" "SJS" "San Jose" "Pacific" "Western";
    ft 28 "Columbus Blue Jackets" "CBJ" "Columbus" "Metropolitan" "Eastern";
    ft 29 "Minnesota Wild" "MIN" "Minnesota" "Central" "Western";
    ft 30 "Winnipeg Jets" "WPG" "Winnipeg" "Central" "Western";
    ft 53 "Arizona Coyotes" "ARI" "Arizona" "Central" "Western";
    ft 54 "Vegas Golden Knights" "VGK" "Las Vegas" "Pacific" "Western";
    ft 55 "Seattle Kraken" "SEA" "Seattle" "Pacific" "Western" ].

(** [ON CONFLICT (id) DO UPDATE SET name = EXCLUDED.name] *)
Definition fallback_set (old new : TeamRow) : TeamRow :=
  {| t_id := t_id old; t_name := t_name new;
     t_abbreviation := t_abbreviation old; t_city := t_city old;
     t_division := t_division old; t_conference := t_conference old |}.

Definition fallback_values (team : FallbackTeam) : list Js.value :=
  [ Js.Num (ft_id team); Js.Str (ft_name team); Js.Str (ft_abbrev team);
    Js.Str (ft_city team); Js.Str (ft_division team);
    Js.Str (ft_conference team) ].

Definition insertFallbackTeam (team : FallbackTeam) (d : Db) : Outcome :=
  let (tbl, e) :=
    statement (bind_team (fallback_values team))
              (Table.insert_do_update t_id Z.eqb fallback_set) (teams d) in
  (set_teams tbl d, e).

Definition insertFallbackTeams (d : Db) : Outcome :=
  for_each insertFallbackTeam fallback_teams d.

(** ** players *)

Definition insertPlayer_values (player : PlayerSummary) : list Js.value :=
  [ pl_playerId player;
    Js.or (pl_teamId player) (Js.Num 1);
    Js.or (pl_firstName player) (Js.Str "Unknown");
    Js.or (pl_lastName player) (Js.Str "Unknown");
    Js.or (pl_position player) (Js.Str "F");
    Js.or (pl_sweaterNumber player) Js.Null ].

(** [(id, team_id, first_name, last_name, position, jersey_number)] *)
Definition bind_player (values : list Js.value) : option PlayerRow :=
  match values with
  | [i; t; f; l; p; j] =>
      match Pg.int_col i, Pg.int_col t, Pg.int_null_col j with
      | Some id, Some team, Some jersey =>
          Some {| p_id := id; p_team_id := team;
                  p_first_name := Pg.text_col f; p_last_name := Pg.text_col l;
                  p_position := Pg.text_col p; p_jersey_number := jersey |}
      | _, _, _ => None
      end
  | _ => None
  end.

(** [DO UPDATE SET team_id, position, jersey_number] *)
Definition insertPlayer_set (old new : PlayerRow) : PlayerRow :=
  {| p_id := p_id old; p_team_id := p_team_id new;
     p_first_name := p_first_name old; p_last_name := p_last_name old;
     p_position := p_position new; p_jersey_number := p_jersey_number new |}.

Definition upsert_player (values : list Js.value) (d : Db) : Outcome :=
  let (tbl, e) :=
    statement (bind_player values)
              (Table.insert_do_update p_id Z.eqb insertPlayer_set) (players d) in
  (set_players tbl d, e).

Definition insertPlayer (player : PlayerSummary) (season : string) (d : Db)
    : Outcome :=
  upsert_player (insertPlayer_values player) d.

Record FallbackPlayer := {
  fp_id : Z; fp_firstName : string; fp_lastName : string;
  fp_position : string; fp_number : Z }.

Definition fp (id : Z) (firstName lastName position : string) (number : Z) :=
  {| fp_id := id; fp_firstName := firstName; fp_lastName := lastName;
     fp_position := position; fp_number := number |}.

Definition fallback_players : list FallbackPlayer :=
  [ fp 8471214 "Alexander" "Ovechkin" "LW" 8;
    fp 8470638 "Nicklas" "Backstrom" "C" 19;
    fp 8476453 "John" "Carlson" "D" 74;
    fp 8476872 "T.J." "Oshie" "RW" 77;
    fp 8477493 "Evgeny" "Kuznetsov" "C" 92;
    fp 8477998 "Tom" "Wilson" "RW" 43;
    fp 8478402 "Charlie" "Lindgren" "G" 79;
    fp 8480817 "Dylan" "Strome" "C" 17;
    fp 8481522 "Anthony" "Mantha" "RW" 39;
    fp 8482073 "Connor" "McMichael" "C" 24 ].

Definition insertFallbackCapitalsPlayers (d : Db) : Outcome :=
  for_each
    (fun player =>
       upsert_player
         [ Js.Num (fp_id player); Js.Num CAPITALS_TEAM_ID;
           Js.Str (fp_firstName player); Js.Str (fp_lastName player);
           Js.Str (fp_position player); Js.Num (fp_number player) ])
    fallback_players d.

(** ** games *)

Definition insertGame_values (game : ScheduleGame) (season : string)
    : list Js.value :=
  [ sg_id game;
    Js.Str season;
    Js.or (sg_gameType game) (Js.Str "02");
    Js.or (sg_gameDate game) (sg_startTimeUTC game);
    sg_homeTeam_id game;
    sg_awayTeam_id game;
    Js.or (sg_homeTeam_score game) (Js.Num 0);
    Js.or (sg_awayTeam_score game) (Js.Num 0);
    mapGameState (sg_gameState game);
    Js.or (sg_venue game) (Js.Str "Unknown") ].

(** [(id, season, game_type, date_time, home_team_id, away_team_id,
      home_score, away_score, game_state, venue)]; [period] is not
    supplied. *)
Definition bind_game (values : list Js.value) : option GameRow :=
  match values with
  | [i; s; ty; dt; h; a; hs; as_; st; v] =>
      match Pg.int_col i, Pg.int_null_col h, Pg.int_null_col a,
            Pg.int_col hs, Pg.int_col as_ with
      | Some id, Some home, Some away, Some hscore, Some ascore =>
          Some {| g_id := id; g_season := Pg.text_col s;
                  g_game_type := Pg.text_col ty; g_date_time := Pg.text_col dt;
                  g_home_team_id := home; g_away_team_id := away;
                  g_home_score := hscore; g_away_score := ascore;
                  g_period := None; g_game_state := Pg.text_col st;
                  g_venue := Pg.text_col v |}
      | _, _, _, _, _ => None
      end
  | _ => None
  end.

(** [DO UPDATE SET home_score, away_score, game_state] *)
Definition insertGame_set (old new : GameRow) : GameRow :=
  {| g_id := g_id old; g_season := g_season old;
     g_game_type := g_game_type old; g_date_time := g_date_time old;
     g_home_team_id := g_home_team_id old;
     g_away_team_id := g_away_team_id old;
     g_home_score := g_home_score new; g_away_score := g_away_score new;
     g_period := g_period old; g_game_state := g_game_state new;
     g_venue := g_venue old |}.

Definition insertGame (game : ScheduleGame) (season : string) (d : Db)
    : Outcome :=
  let (tbl, e) :=
    statement (bind_game (insertGame_values game season))
              (Table.insert_do_update g_id Z.eqb insertGame_set) (games d) in
  (set_games tbl d, e).

Record SampleGame := {
  sm_id : Z; sm_homeTeamId : Z; sm_awayTeamId : Z; sm_homeScore : Z;
  sm_awayScore : Z; sm_gameDate : string; sm_venue : string }.

Definition sm (id homeTeamId awayTeamId homeScore awayScore : Z)
    (gameDate venue : string) :=
  {| sm_id := id; sm_homeTeamId := homeTeamId; sm_awayTeamId := awayTeamId;
     sm_homeScore := homeScore; sm_awayScore := awayScore;
     sm_gameDate := gameDate; sm_venue := venue |}.

Definition sample_games : list SampleGame :=
  [ sm 2024020500 15 3 4 2 "2024-12-20" "Capital One Arena";
    sm 2024020501 6 15 3 1 "2024-12-18" "TD Garden";
    sm 2024020502 15 5 2 3 "2024-12-15" "Capital One Arena";
    sm 2024020503 13 15 1 4 "2024-12-12" "FLA Live Arena";
    sm 2024020504 15 14 5 2 "2024-12-10" "Capital One Arena" ].

(** [seasons[0]] when the caller passed an empty list is [undefined]. *)
Definition insertSampleCapitalsGames (season : Js.value) (d : Db) : Outcome :=
  for_each
    (fun game d =>
       let (tbl, e) :=
         statement
           (bind_game
              [ Js.Num (sm_id game); season; Js.Str "02";
                Js.Str (sm_gameDate game); Js.Num (sm_homeTeamId game);
                Js.Num (sm_awayTeamId game); Js.Num (sm_homeScore game);
                Js.Num (sm_awayScore game); Js.Str "Final";
                Js.Str (sm_venue game) ])
           (Table.insert_do_nothing g_id Z.eqb) (games d) in
       (set_games tbl d, e))
    sample_games d.

(** ** per-game statistics *)

Definition insertPlayerGameStat_values (gameId playerId teamId : Z)
    (stats : SkaterStats) : list Js.value :=
  [ Js.Num gameId; Js.Num playerId; Js.Num teamId;
    Js.or (sk_goals stats) (Js.Num 0);
    Js.or (sk_assists stats) (Js.Num 0);
    Js.add (Js.or (sk_goals stats) (Js.Num 0))
           (Js.or (sk_assists stats) (Js.Num 0));
    Js.or (sk_plusMinus stats) (Js.Num 0);
    Js.or (sk_penaltyMinutes stats) (Js.Num 0);
    Js.or (sk_shots stats) (Js.Num 0);
    Js.or (sk_hits stats) (Js.Num 0);
    Js.or (sk_blockedShots stats) (Js.Num 0);
    parseTimeToSeconds (sk_timeOnIce stats) ].

(** [(game_id, player_id, team_id, goals, assists, points, plus_minus,
      penalty_minutes, shots, hits, blocks, time_on_ice_seconds)] *)
Definition bind_player_game_stat (values : list Js.value)
    : option PlayerGameStatRow :=
  match map Pg.int_col values with
  | [Some g; Some p; Some t; Some go; Some a; Some pts; Some pm; Some pim;
     Some sh; Some hi; Some bl; Some toi] =>
      Some {| pgs_game_id := g; pgs_player_id := p; pgs_team_id := t;
              pgs_goals := go; pgs_assists := a; pgs_points := pts;
              pgs_plus_minus := pm; pgs_penalty_minutes := pim;
              pgs_shots := sh; pgs_hits := hi; pgs_blocks := bl;
              pgs_time_on_ice_seconds := toi;
              pgs_powerplay_time_seconds := None;
              pgs_shorthanded_time_seconds := None;
              pgs_corsi_for := None; pgs_corsi_against := None;
              pgs_expected_goals := None; pgs_expected_assists := None;
              pgs_individual_corsi_for := None;
              pgs_individual_fenwick_for := None |}
  | _ => None
  end.

Definition insertPlayerGameStat (gameId playerId teamId : Z)
    (stats : SkaterStats) (d : Db) : Outcome :=
  insert_if_absent player_game_stats set_player_game_stats pgs_key
    (gameId, playerId)
    (bind_player_game_stat
       (insertPlayerGameStat_values gameId playerId teamId stats))
    d.

(** [processPlayerGameStats(gameId, boxscore)]: [lines] are the players
    of the box score that carry skater statistics, home team first, each
    with its id, the id of its team and the statistics. *)
Definition processPlayerGameStats (gameId : Z)
    (lines : list (Z * Z * SkaterStats)) (d : Db) : Outcome :=
  for_each
    (fun line => insertPlayerGameStat gameId (fst (fst line)) (snd (fst line))
                                      (snd line))
    lines d.

Definition insertTeamGameStat_values (gameId teamId : Z) (isHome : bool)
    (teamData : TeamBox) : list Js.value :=
  [ Js.Num gameId; Js.Num teamId; Js.Bool isHome;
    Js.or (tb_score teamData) (Js.Num 0);
    Js.or (tb_sog teamData) (Js.Num 0);
    Js.or (tb_hits teamData) (Js.Num 0) ].

(** [(game_id, team_id, is_home, goals, shots, hits)] *)
Definition bind_team_game_stat (values : list Js.value)
    : option TeamGameStatRow :=
  match values with
  | [g; t; h; go; sh; hi] =>
      match Pg.int_col g, Pg.int_col t, Pg.bool_col h,
            Pg.int_col go, Pg.int_col sh, Pg.int_col hi with
      | Some g', Some t', Some h', Some go', Some sh', Some hi' =>
          Some {| tgs_game_id := g'; tgs_team_id := t'; tgs_is_home := h';
                  tgs_goals := go'; tgs_shots := sh'; tgs_hits := hi' |}
      | _, _, _, _, _, _ => None
      end
  | _ => None
  end.

Definition insert_team_game_stat_if_absent (values : list Js.value)
    (gameId teamId : Z) (d : Db) : Outcome :=
  insert_if_absent team_game_stats set_team_game_stats tgs_key
    (gameId, teamId) (bind_team_game_stat values) d.

Definition insertTeamGameStat (gameId teamId : Z) (isHome : bool)
    (teamData : TeamBox) (d : Db) : Outcome :=
  insert_team_game_stat_if_absent
    (insertTeamGameStat_values gameId teamId isHome teamData) gameId teamId d.

Record SampleTeamStat := {
  ss_gameId : Z; ss_teamId : Z; ss_isHome : bool; ss_goals : Z;
  ss_shots : Z; ss_hits : Z }.

Definition sample_team_stats : list SampleTeamStat :=
  [ {| ss_gameId := 2024020500; ss_teamId := 15; ss_isHome := true;
       ss_goals := 4; ss_shots := 32; ss_hits := 18 |};
    {| ss_gameId := 2024020500; ss_teamId := 3; ss_isHome := false;
       ss_goals := 2; ss_shots := 28; ss_hits := 22 |} ].

Definition insertSampleTeamStats (d : Db) : Outcome :=
  for_each
    (fun stat =>
       insert_team_game_stat_if_absent
         [ Js.Num (ss_gameId stat); Js.Num (ss_teamId stat);
           Js.Bool (ss_isHome stat); Js.Num (ss_goals stat);
           Js.Num (ss_shots stat); Js.Num (ss_hits stat) ]
         (ss_gameId stat) (ss_teamId stat))
    sample_team_stats d.

(** ** season aggregations *)

(** The rows selected by the [INSERT ... SELECT] of [calculateSeasonStats],
    one per group:
    [(player_id, season, team_id, games_played, goals, assists, points,
      plus_minus, penalty_minutes, shots, time_on_ice_total_seconds)]. *)
Definition season_stats_row (season : string) (rows : list PlayerGameStatRow)
    (k : Z * Z) : PlayerSeasonStatRow :=
       let grp := pgs_group_rows k rows in
       {| pss_player_id := fst k; pss_season := season; pss_team_id := snd k;
          pss_games_played := count_rows grp;
          pss_goals := sum_col pgs_goals grp;
          pss_assists := sum_col pgs_assists grp;
          pss_points := sum_col pgs_points grp;
          pss_plus_minus := sum_col pgs_plus_minus grp;
          pss_penalty_minutes := sum_col pgs_penalty_minutes grp;
          pss_shots := sum_col pgs_shots grp;
          pss_shooting_percentage := None;
          pss_time_on_ice_total_seconds := sum_col pgs_time_on_ice_seconds grp;
          pss_time_on_ice_avg_seconds := None;
          pss_powerplay_time_total_seconds := None;
          pss_shorthanded_time_total_seconds := None |}.

Definition season_stats_select (season : string) (d : Db)
    : list PlayerSeasonStatRow :=
  let rows := pgs_in_season season d in
  map (season_stats_row season rows) (pgs_groups rows).

(** [DO UPDATE SET games_played, goals, assists, points] *)
Definition season_stats_set (old new : PlayerSeasonStatRow)
    : PlayerSeasonStatRow :=
  {| pss_player_id := pss_player_id old; pss_season := pss_season old;
     pss_team_id := pss_team_id old;
     pss_games_played := pss_games_played new;
     pss_goals := pss_goals new;
     pss_assists := pss_assists new;
     pss_points := pss_points new;
     pss_plus_minus := pss_plus_minus old;
     pss_penalty_minutes := pss_penalty_minutes old;
     pss_shots := pss_shots old;
     pss_shooting_percentage := pss_shooting_percentage old;
     pss_time_on_ice_total_seconds := pss_time_on_ice_total_seconds old;
     pss_time_on_ice_avg_seconds := pss_time_on_ice_avg_seconds old;
     pss_powerplay_time_total_seconds := pss_powerplay_time_total_seconds old;
     pss_shorthanded_time_total_seconds :=
       pss_shorthanded_time_total_seconds old |}.

(** The first statement of [calculateSeasonStats]. *)
Definition player_season_statement (season : string) (d : Db) : Db :=
  set_player_season_stats
    (Table.upsert_all pss_key pss_key_eqb season_stats_set
                (season_stats_select season d) (player_season_stats d))
    d.

(** [(team_id, season, games_played, wins, losses, points, goals_for,
      goals_against, goal_differential)]; [overtime_losses] is not
    supplied. *)
Definition bind_team_season_stat (values : list Js.value)
    : option TeamSeasonStatRow :=
  match values with
  | t :: s :: rest =>
      match Pg.int_col t, Pg.text_col s, map Pg.int_col rest with
      | Some team, Some season,
        [Some gp; Some w; Some l; Some pts; Some gf; Some ga; Some gd] =>
          Some {| tss_team_id := team; tss_season := season;
                  tss_games_played := gp; tss_wins := w; tss_losses := l;
                  tss_overtime_losses := None; tss_points := pts;
                  tss_goals_for := gf; tss_goals_against := ga;
                  tss_goal_differential := gd |}
      | _, _, _ => None
      end
  | _ => None
  end.

(** [DO UPDATE SET games_played, wins, losses, points, goals_for,
     goals_against, goal_differential] *)
Definition team_season_set (old new : TeamSeasonStatRow) : TeamSeasonStatRow :=
  {| tss_team_id := tss_team_id old; tss_season := tss_season old;
     tss_games_played := tss_games_played new; tss_wins := tss_wins new;
     tss_losses := tss_losses new;
     tss_overtime_losses := tss_overtime_losses old;
     tss_points := tss_points new; tss_goals_for := tss_goals_for new;
     tss_goals_against := tss_goals_against new;
     tss_goal_differential := tss_goal_differential new |}.

(** The parameters of the insert for one team; [None] when the guard
    [parseInt(stats.games_played) > 0] fails. *)
Definition team_season_values (team : Z) (season : string) (d : Db)
    : option (list Js.value) :=
  let rows := tgs_final_in_season team season d in
  let games_played := Pg.bigint_out (count_rows rows) in
  let wins := Pg.sum_out (map (fun x => case_1_0 (own_score_higher x)) rows) in
  let losses := Pg.sum_out (map (fun x => case_1_0 (own_score_lower x)) rows) in
  let goals_for := Pg.sum_out (map (fun x => tgs_goals (fst x)) rows) in
  let goals_against := Pg.sum_out (map opponent_score rows) in
  if Js.gt (Js.parseInt_v games_played) (Js.Num 0)
  then
    let points := Js.mul (Js.parseInt_v wins) (Js.Num 2) in
    Some [ Js.Num team; Js.Str season; games_played; wins; losses; points;
           goals_for; goals_against;
           Js.sub (Js.parseInt_v goals_for) (Js.parseInt_v goals_against) ]
  else None.

Definition calculateTeamSeasonStats (season : string) (d : Db) : Outcome :=
  for_each
    (fun team d' =>
       match team_season_values (t_id team) season d' with
       | Some values =>
           let (tbl, e) :=
             statement (bind_team_season_stat values)
                       (Table.insert_do_update tss_key tss_key_eqb
                                               team_season_set)
                       (team_season_stats d') in
           (set_team_season_stats tbl d', e)
       | None => (d', None)
       end)
    (teams d) d.

(** What [calculateSeasonStats] runs inside its [try]: the player
    statement, then the team loop. *)
Definition season_stats_stage (season : string) (d : Db) : Outcome :=
  calculateTeamSeasonStats season (player_season_statement season d).

(** ** the orchestrator *)

(** [startTime] and [estimatedTimeRemaining] are wall-clock values and
    are left out. *)
Record Progress := {
  currentStep : string;
  progress : Z;
  totalSteps : Z;
  errors : list string;
  completed : list string }.

(** The stages that follow the teams, each with what it is called on. *)
Inductive Stage : Type :=
| Players (season : string)
| Games (season : string) (includePlayoffs : bool)
| PlayerGameStats (season : string)
| TeamGameStats (season : string)
| GoalieStats (season : string)
| SeasonStats (season : string)
| ShotData (season : string)
| AdvancedStats (season : string).

(** What [generateFinalReport] prints: the record count of each table,
    the number of errors, and the errors it lists. *)
Record FinalReport := {
  rp_counts : list (string * Z);
  rp_error_count : Z;
  rp_errors : list string }.

(** An instance of the service.  [trace] lists the stage bodies entered,
    in order; it is bookkeeping of the model, not a field of the class. *)
Record Service := {
  progress_of : Progress;
  isRunning : bool;
  db : Db;
  trace : list Stage;
  final_report : option FinalReport;
  test_report : option (list (string * Z)) }.

(** [constructor(pool)] *)
Definition new_service (pool : Db) : Service :=
  {| progress_of :=
       {| currentStep := "Ready"; progress := 0; totalSteps := 0;
          errors := []; completed := [] |};
     isRunning := false; db := pool; trace := [];
     final_report := None; test_report := None |}.

Definition with_progress (f : Progress -> Progress) (s : Service) : Service :=
  {| progress_of := f (progress_of s); isRunning := isRunning s; db := db s;
     trace := trace s; final_report := final_report s;
     test_report := test_report s |}.

Definition set_isRunning (b : bool) (s : Service) : Service :=
  {| progress_of := progress_of s; isRunning := b; db := db s;
     trace := trace s; final_report := final_report s;
     test_report := test_report s |}.

Definition set_db (d : Db) (s : Service) : Service :=
  {| progress_of := progress_of s; isRunning := isRunning s; db := d;
     trace := trace s; final_report := final_report s;
     test_report := test_report s |}.

Definition enter (st : Stage) (s : Service) : Service :=
  {| progress_of := progress_of s; isRunning := isRunning s; db := db s;
     trace := trace s ++ [st]; final_report := final_report s;
     test_report := test_report s |}.

Definition set_final_report (r : FinalReport) (s : Service) : Service :=
  {| progress_of := progress_of s; isRunning := isRunning s; db := db s;
     trace := trace s; final_report := Some r;
     test_report := test_report s |}.

Definition set_test_report (r : list (string * Z)) (s : Service) : Service :=
  {| progress_of := progress_of s; isRunning := isRunning s; db := db s;
     trace := trace s; final_report := final_report s;
     test_report := Some r |}.

Definition updateProgress (step : string) : Run.M Service unit :=
  Run.modify
    (with_progress
       (fun p =>
          {| currentStep := step; progress := progress p + 1;
             totalSteps := totalSteps p; errors := errors p;
             completed := completed p |})).

(** [this.progress.completed.push(label)] *)
Definition push_completed (label : string) : Run.M Service unit :=
  Run.modify
    (with_progress
       (fun p =>
          {| currentStep := currentStep p; progress := progress p;
             totalSteps := totalSteps p; errors := errors p;
             completed := completed p ++ [label] |})).

(** [this.progress.errors.push(message)] *)
Definition push_error (message : string) : Run.M Service unit :=
  Run.modify
    (with_progress
       (fun p =>
          {| currentStep := currentStep p; progress := progress p;
             totalSteps := totalSteps p; errors := errors p ++ [message];
             completed := completed p |})).

Definition set_totalSteps (n : Z) : Run.M Service unit :=
  Run.modify
    (with_progress
       (fun p =>
          {| currentStep := currentStep p; progress := progress p;
             totalSteps := n; errors := errors p;
             completed := completed p |})).

Definition calculateTotalSteps (seasons : list string) (includePlayoffs : bool)
    : Z :=
  let n := Z.of_nat (List.length seasons) in
  1 + n + n + n * 3 + n + n + n.

(** A method of the service that only talks to the store. *)
Definition on_db (f : Db -> Outcome) : Run.M Service unit :=
  fun s =>
    let (d, e) := f (db s) in
    match e with
    | None => (Run.Ok tt, set_db d s)
    | Some m => (Run.Throw (Run.Error m), set_db d s)
    end.

(** [SELECT COUNT( * ) FROM table] *)
Definition table_count (table : string) (d : Db) : Z :=
  if (table =? "teams")%string then count_rows (teams d)
  else if (table =? "players")%string then count_rows (players d)
  else if (table =? "games")%string then count_rows (games d)
  else if (table =? "player_game_stats")%string
       then count_rows (player_game_stats d)
  else if (table =? "player_season_stats")%string
       then count_rows (player_season_stats d)
  else if (table =? "team_game_stats")%string
       then count_rows (team_game_stats d)
  else if (table =? "team_season_stats")%string
       then count_rows (team_season_stats d)
  else if (table =? "goalie_game_stats")%string
       then count_rows (goalie_game_stats d)
  else if (table =? "shots")%string then count_rows (shots d)
  else 0.

Definition report_tables : list string :=
  [ "teams"; "players"; "games"; "player_game_stats"; "player_season_stats";
    "team_game_stats"; "team_season_stats"; "goalie_game_stats"; "shots" ].

(** The counts, [Errors: n], and [errors.slice(0, 5)]. *)
Definition generateFinalReport : Run.M Service unit :=
  Run.modify
    (fun s =>
       set_final_report
         {| rp_counts := map (fun t => (t, table_count t (db s))) report_tables;
            rp_error_count :=
              Z.of_nat (List.length (errors (progress_of s)));
            rp_errors := firstn 5 (errors (progress_of s)) |}
         s).

(** What the live request for the standings comes to. *)
Inductive StandingsFetch : Type :=
| NetworkError (e : Run.exn)       (* [fetch] rejects *)
| BodyUnreadable (e : Run.exn)     (* [response.json()] rejects: an empty
                                      or malformed body *)
| Body (standings : option (list Standing)).
                                   (* parsed; [None]: no [standings] field *)

Section Orchestrator.
Local Open Scope run_scope.

(** The environment of one run: the answer to the standings request,
    and for each later stage what the body of its [try] does to the
    store and whether it throws. *)
Variable fetch_standings : StandingsFetch.
Variable stage_body : Stage -> Db -> Db * option Run.exn.

Definition run_stage (st : Stage) : Run.M Service unit :=
  fun s =>
    let (d, e) := stage_body st (db s) in
    let s' := enter st (set_db d s) in
    match e with
    | None => (Run.Ok tt, s')
    | Some x => (Run.Throw x, s')
    end.

Definition backfillAllTeams : Run.M Service unit :=
  updateProgress "Fetching all NHL teams" ;;
  Run.try_catch
    (match fetch_standings with
     | NetworkError e => Run.throw e
     | BodyUnreadable e => Run.throw e
     | Body (Some standings) =>
         on_db (for_each insertTeam standings)
     | Body None => on_db insertFallbackTeams
     end ;;
     push_completed "All NHL teams")
    (fun _ =>
       on_db insertFallbackTeams ;;
       push_completed "Teams (fallback)").

(** The shape shared by the eight later stages: progress, then the
    body and the [completed] entry inside [try], and a [catch] that
    records [`${label}: ${errorMessage}`] and does not rethrow. *)
Definition stage (step label : string) (st : Stage) : Run.M Service unit :=
  updateProgress step ;;
  Run.try_catch
    (run_stage st ;; push_completed label)
    (fun error => push_error (label ++ ": " ++ Run.errorMessage error)).

Definition backfillAllPlayersForSeason (season : string) :=
  stage ("Fetching all players for " ++ season)
        ("Players for " ++ season) (Players season).

Definition backfillAllGamesForSeason (season : string) (includePlayoffs : bool) :=
  stage ("Fetching games for " ++ season)
        ("Games for " ++ season) (Games season includePlayoffs).

Definition backfillPlayerGameStats (season : string) :=
  stage ("Processing player game stats for " ++ season)
        ("Player game stats for " ++ season) (PlayerGameStats season).

Definition backfillTeamGameStats (season : string) :=
  stage ("Processing team game stats for " ++ season)
        ("Team game stats for " ++ season) (TeamGameStats season).

Definition backfillGoalieStats (season : string) :=
  stage ("Processing goalie stats for " ++ season)
        ("Goalie stats for " ++ season) (GoalieStats season).

Definition calculateSeasonStats (season : string) :=
  stage ("Calculating season stats for " ++ season)
        ("Season stats for " ++ season) (SeasonStats season).

Definition backfillShotData (season : string) :=
  stage ("Fetching shot data for " ++ season)
        ("Shot data for " ++ season) (ShotData season).

Definition backfillAdvancedStats (season : string) :=
  stage ("Fetching MoneyPuck advanced stats for " ++ season)
        ("Advanced stats for " ++ season) (AdvancedStats season).

(** The body of the outer [try] of [startCompleteBackfill]. *)
Definition all_stages (seasons : list string) (includePlayoffs : bool)
    : Run.M Service unit :=
  backfillAllTeams ;;
  Run.for_of seasons backfillAllPlayersForSeason ;;
  Run.for_of seasons (fun season => backfillAllGamesForSeason season includePlayoffs) ;;
  Run.for_of seasons backfillPlayerGameStats ;;
  Run.for_of seasons backfillTeamGameStats ;;
  Run.for_of seasons backfillGoalieStats ;;
  Run.for_of seasons calculateSeasonStats ;;
  Run.for_of seasons backfillShotData ;;
  Run.for_of seasons backfillAdvancedStats ;;
  generateFinalReport.

(** [startCompleteBackfill] past its guard. *)
Definition run_backfill (seasons : list string) (includePlayoffs : bool)
    : Run.M Service unit :=
  Run.modify (set_isRunning true) ;;
  set_totalSteps (calculateTotalSteps seasons includePlayoffs) ;;
  Run.try_finally
    (Run.try_catch
       (all_stages seasons includePlayoffs)
       (fun error =>
          push_error ("Complete backfill failed: "
                      ++ Run.errorMessage error) ;;
          Run.throw error))
    (set_isRunning false).

Definition startCompleteBackfill (seasons : list string)
    (includePlayoffs : bool) : Run.M Service unit :=
  fun s =>
    if isRunning s
    then (Run.Throw (Run.Error "Backfill already in progress"), s)
    else run_backfill seasons includePlayoffs s.
End Orchestrator.

(** ** what a run does, stage by stage *)

(** The stages a run goes through after the teams, in its order. *)
Definition schedule (seasons : list string) (includePlayoffs : bool)
    : list Stage :=
  map Players seasons
  ++ map (fun season => Games season includePlayoffs) seasons
  ++ map PlayerGameStats seasons
  ++ map TeamGameStats seasons
  ++ map GoalieStats seasons
  ++ map SeasonStats seasons
  ++ map ShotData seasons
  ++ map AdvancedStats seasons.

(** The step a stage announces, and the label it goes by in the
    [completed] list and at the head of its error message. *)
Definition stage_step (st : Stage) : string :=
  match st with
  | Players season => "Fetching all players for " ++ season
  | Games season _ => "Fetching games for " ++ season
  | PlayerGameStats season => "Processing player game stats for " ++ season
  | TeamGameStats season => "Processing team game stats for " ++ season
  | GoalieStats season => "Processing goalie stats for " ++ season
  | SeasonStats season => "Calculating season stats for " ++ season
  | ShotData season => "Fetching shot data for " ++ season
  | AdvancedStats season => "Fetching MoneyPuck advanced stats for " ++ season
  end.

Definition stage_label (st : Stage) : string :=
  match st with
  | Players season => "Players for " ++ season
  | Games season _ => "Games for " ++ season
  | PlayerGameStats season => "Player game stats for " ++ season
  | TeamGameStats season => "Team game stats for " ++ season
  | GoalieStats season => "Goalie stats for " ++ season
  | SeasonStats season => "Season stats for " ++ season
  | ShotData season => "Shot data for " ++ season
  | AdvancedStats season => "Advanced stats for " ++ season
  end.

(** The message a stage leaves in the error list when it throws. *)
Definition stage_error (st : Stage) (e : Run.exn) : string :=
  stage_label st ++ ": " ++ Run.errorMessage e.

(** The stages of a list as they run one after the other from store
    [d], each with what it threw, and the store they leave. *)
Fixpoint events (stage_body : Stage -> Db -> Db * option Run.exn)
    (sts : list Stage) (d : Db) : list (Stage * option Run.exn) :=
  match sts with
  | [] => []
  | st :: rest =>
      (st, snd (stage_body st d))
      :: events stage_body rest (fst (stage_body st d))
  end.

Fixpoint store_after (stage_body : Stage -> Db -> Db * option Run.exn)
    (sts : list Stage) (d : Db) : Db :=
  match sts with
  | [] => d
  | st :: rest => store_after stage_body rest (fst (stage_body st d))
  end.

Definition error_lines (evs : list (Stage * option Run.exn)) : list string :=
  flat_map (fun ev => match snd ev with
                      | Some e => [stage_error (fst ev) e]
                      | None => []
                      end) evs.

Definition completed_labels (evs : list (Stage * option Run.exn))
    : list string :=
  flat_map (fun ev => match snd ev with
                      | Some _ => []
                      | None => [stage_label (fst ev)]
                      end) evs.

(** What running stages leaves of a service [s]: the store [d'], the
    stages entered added to the trace, the messages of those that threw
    added to the error list, the labels of the others added to the
    completed list; the running flag and the report are not touched. *)
Definition ran (evs : list (Stage * option Run.exn)) (d' : Db)
    (s s' : Service) : Prop :=
  db s' = d'
  /\ trace s' = trace s ++ map fst evs
  /\ errors (progress_of s') = errors (progress_of s) ++ error_lines evs
  /\ completed (progress_of s')
     = completed (progress_of s) ++ completed_labels evs
  /\ isRunning s' = isRunning s
  /\ final_report s' = final_report s.

(** The teams stage: the store it leaves and the label it completes
    under.  It has no way to fail in this model, the statements of both
    of its paths being accepted by the store. *)
Definition teams_store (fetch : StandingsFetch) (d : Db) : Db :=
  match fetch with
  | Body (Some standings) => fst (for_each insertTeam standings d)
  | _ => fst (insertFallbackTeams d)
  end.

Definition teams_label (fetch : StandingsFetch) : string :=
  match fetch with
  | Body _ => "All NHL teams"
  | _ => "Teams (fallback)"
  end.

(** What [generateFinalReport] prints for a store and an error list. *)
Definition report_of (d : Db) (errs : list string) : FinalReport :=
  {| rp_counts := map (fun t => (t, table_count t d)) report_tables;
     rp_error_count := Z.of_nat (List.length errs);
     rp_errors := firstn 5 errs |}.

(** One invocation: what it is called with, and its environment. *)
Record Invocation := {
  iv_fetch : StandingsFetch;
  iv_stage_body : Stage -> Db -> Db * option Run.exn;
  iv_seasons : list string;
  iv_includePlayoffs : bool }.

Definition invoke (iv : Invocation) : Run.M Service unit :=
  startCompleteBackfill (iv_fetch iv) (iv_stage_body iv) (iv_seasons iv)
                        (iv_includePlayoffs iv).

(** Invocations made one after the other on the same instance. *)
Definition invoke_all (ivs : list Invocation) (s : Service) : Service :=
  fold_left (fun s' iv => snd (invoke iv s')) ivs s.

(** ** the test backfill *)

Definition test_report_tables : list string :=
  [ "teams"; "players"; "games"; "team_game_stats" ].

Definition generateTestBackfillReport : Run.M Service unit :=
  Run.modify
    (fun s =>
       set_test_report
         (map (fun t => (t, table_count t (db s))) test_report_tables) s).

(** [seasons[0]] *)
Definition first_season (seasons : list string) : Js.value :=
  match seasons with
  | season :: _ => Js.Str season
  | [] => Js.Undefined
  end.

Definition startTestBackfill (seasons : list string) : Run.M Service unit :=
  fun s =>
    if isRunning s
    then (Run.Throw (Run.Error "Backfill already in progress"), s)
    else
      (Run.modify (set_isRunning true) ;;
       set_totalSteps 4 ;;
       Run.try_finally
         (Run.try_catch
            (on_db insertFallbackTeams ;;
             on_db insertFallbackCapitalsPlayers ;;
             on_db (insertSampleCapitalsGames (first_season seasons)) ;;
             on_db insertSampleTeamStats ;;
             generateTestBackfillReport)
            (fun error => Run.throw error))
         (set_isRunning false))%run s.

(** [isBackfillRunning()] *)
Definition isBackfillRunning (s : Service) : bool := isRunning s.

(** ** the advanced-metrics files *)

(** [h.trim()], then every double quote removed ([replace] with the
    global flag). *)
Definition csv_clean (s : string) : string :=
  Js.remove_char Js.dquote (Js.trim s).

(** [csvText.split('\n').filter(line => line.trim())] *)
Definition csv_lines (csvText : string) : list string :=
  filter (fun line => Js.truthy (Js.Str (Js.trim line)))
         (Js.split "010" csvText).

(** A value of a line, for an index within the line: trimmed and
    without its double quotes, or [null] when nothing is left. *)
Definition csv_cell (v : string) : Js.value :=
  Js.or (Js.Str (csv_clean v)) Js.Null.

(** The object [headers.forEach] fills, for a line with at least as
    many values as there are headers. *)
Definition csv_row (headers values : list string) : Js.object :=
  fold_left (fun row hv => Js.set_field (fst hv) (csv_cell (snd hv)) row)
            (combine headers values) [].

(** The body of the loop over the data lines. *)
Definition csv_data (headers lines : list string) : list Js.object :=
  flat_map
    (fun line =>
       let values := Js.split "," line in
       if (List.length headers <=? List.length values)%nat
       then [csv_row headers values]
       else [])
    lines.

(** [parseCSV(csvText)]; the loop stops at [i < 1000]. *)
Definition parseCSV (csvText : string) : list Js.object :=
  match csv_lines csvText with
  | [] | [_] => []
  | header :: rest =>
      csv_data (map csv_clean (Js.split "," header)) (firstn 999 rest)
  end.

(** ** goalies *)

(** The fields [insertGoalieStat] reads of the [goalieStats] of a
    goalie of the box score. *)
Record GoalieBox := {
  gl_shotsAgainst : Js.value;
  gl_goalsAgainst : Js.value;
  gl_timeOnIce : option string }.

Definition ggs_key (r : GoalieGameStatRow) : Z * Z :=
  (ggs_game_id r, ggs_player_id r).

(** [shotsAgainst > 0 ? saves / shotsAgainst : 0], as an exact fraction
    (what is sent is the double nearest to it); [None] when an operand
    of the division is not a number. *)
Definition save_percentage (shotsAgainst saves : Js.value) : option Q :=
  if Js.gt shotsAgainst (Js.Num 0)
  then match Js.to_number saves, Js.to_number shotsAgainst with
       | Js.Num x, Js.Num y => Some (inject_Z x / inject_Z y)%Q
       | _, _ => None
       end
  else Some (inject_Z 0).

(** The values of the insert as the store binds them to
    [(game_id, player_id, team_id, shots_against, saves, goals_against,
      save_percentage, time_on_ice_seconds, shutout)]. *)
Definition insertGoalieStat_row (gameId playerId teamId : Z)
    (stats : GoalieBox) : option GoalieGameStatRow :=
  let shotsAgainst := Js.or (gl_shotsAgainst stats) (Js.Num 0) in
  let goalsAgainst := Js.or (gl_goalsAgainst stats) (Js.Num 0) in
  let saves := Js.sub shotsAgainst goalsAgainst in
  match Pg.int_col (Js.Num gameId), Pg.int_col (Js.Num playerId),
        Pg.int_col (Js.Num teamId), Pg.int_col shotsAgainst,
        Pg.int_col saves, Pg.int_col goalsAgainst,
        save_percentage shotsAgainst saves,
        Pg.int_col (parseTimeToSeconds (gl_timeOnIce stats)) with
  | Some g, Some p, Some t, Some sa, Some sv, Some ga, Some pct, Some toi =>
      Some {| ggs_game_id := g; ggs_player_id := p; ggs_team_id := t;
              ggs_shots_against := sa; ggs_saves := sv;
              ggs_goals_against := ga; ggs_save_percentage := Some pct;
              ggs_time_on_ice_seconds := toi;
              ggs_shutout :=
                Js.strict_eq goalsAgainst (Js.Num 0)
                && Js.gt shotsAgainst (Js.Num 0) |}
  | _, _, _, _, _, _, _, _ => None
  end.

Definition insertGoalieStat (gameId playerId teamId : Z)
    (stats : GoalieBox) (d : Db) : Outcome :=
  insert_if_absent goalie_game_stats set_goalie_game_stats ggs_key
    (gameId, playerId) (insertGoalieStat_row gameId playerId teamId stats) d.

(** [processGoalieStats(gameId, boxscore)]: [lines] are the goalies of
    the box score that carry goalie statistics, home team first, each
    with its id, the id of its team and the statistics. *)
Definition processGoalieStats (gameId : Z)
    (lines : list (Z * Z * GoalieBox)) (d : Db) : Outcome :=
  for_each
    (fun line => insertGoalieStat gameId (fst (fst line)) (snd (fst line))
                                  (snd line))
    lines d.

(** ** shots *)










End Complete.

(* ================================================================== *)
(** * dataBackfillService.ts: statements and aggregations             *)
(* ================================================================== *)

Module DataBackfill.

(** The same text as in the other service. *)
Definition parseTimeToSeconds (timeString : option string) : Js.value :=
  match timeString with
  | None => Js.Num 0
  | Some s =>
      if negb (Js.truthy (Js.Str s)) then Js.Num 0
      else match Js.split ":" s with
           | [m; sec] =>
               Js.add (Js.mul (Js.parseInt m) (Js.Num 60)) (Js.parseInt sec)
           | _ => Js.Num 0
           end
  end.

Definition insertPlayerGameStats_values (gameId playerId teamId : Z)
    (stats : SkaterStats) : list Js.value :=
  [ Js.Num gameId;
    Js.Num playerId;
    Js.Num teamId;
    Js.or (sk_goals stats) (Js.Num 0);
    Js.or (sk_assists stats) (Js.Num 0);
    Js.add (Js.or (sk_goals stats) (Js.Num 0))
           (Js.or (sk_assists stats) (Js.Num 0));
    Js.or (sk_plusMinus stats) (Js.Num 0);
    Js.or (sk_penaltyMinutes stats) (Js.Num 0);
    Js.or (sk_shots stats) (Js.Num 0);
    Js.or (sk_hits stats) (Js.Num 0);
    Js.or (sk_blockedShots stats) (Js.Num 0);
    parseTimeToSeconds (sk_timeOnIce stats);
    Js.or (parseTimeToSeconds (sk_powerPlay_timeOnIce stats)) (Js.Num 0);
    Js.or (parseTimeToSeconds (sk_penaltyKill_timeOnIce stats)) (Js.Num 0);
    Js.or (sk_corsiFor stats) (Js.Num 0);
    Js.or (sk_corsiAgainst stats) (Js.Num 0);
    Js.or (sk_expectedGoals stats) (Js.Num 0);
    Js.or (sk_expectedAssists stats) (Js.Num 0);
    Js.or (sk_individualCorsiFor stats) (Js.Num 0);
    Js.or (sk_individualFenwickFor stats) (Js.Num 0) ].

(** The twenty columns of the statement, in its order. *)
Definition bind_player_game_stats (values : list Js.value)
    : option PlayerGameStatRow :=
  match map Pg.int_col values with
  | [Some g; Some p; Some t; Some go; Some a; Some pts; Some pm; Some pim;
     Some sh; Some hi; Some bl; Some toi; Some pp; Some pk; Some cf; Some ca;
     Some xg; Some xa; Some icf; Some iff] =>
      Some {| pgs_game_id := g; pgs_player_id := p; pgs_team_id := t;
              pgs_goals := go; pgs_assists := a; pgs_points := pts;
              pgs_plus_minus := pm; pgs_penalty_minutes := pim;
              pgs_shots := sh; pgs_hits := hi; pgs_blocks := bl;
              pgs_time_on_ice_seconds := toi;
              pgs_powerplay_time_seconds := Some pp;
              pgs_shorthanded_time_seconds := Some pk;
              pgs_corsi_for := Some cf; pgs_corsi_against := Some ca;
              pgs_expected_goals := Some xg; pgs_expected_assists := Some xa;
              pgs_individual_corsi_for := Some icf;
              pgs_individual_fenwick_for := Some iff |}
  | _ => None
  end.

(** [ON CONFLICT (game_id, player_id) DO UPDATE SET] every other column. *)
Definition insertPlayerGameStats_set (old new : PlayerGameStatRow)
    : PlayerGameStatRow :=
  {| pgs_game_id := pgs_game_id old; pgs_player_id := pgs_player_id old;
     pgs_team_id := pgs_team_id new;
     pgs_goals := pgs_goals new; pgs_assists := pgs_assists new;
     pgs_points := pgs_points new; pgs_plus_minus := pgs_plus_minus new;
     pgs_penalty_minutes := pgs_penalty_minutes new;
     pgs_shots := pgs_shots new; pgs_hits := pgs_hits new;
     pgs_blocks := pgs_blocks new;
     pgs_time_on_ice_seconds := pgs_time_on_ice_seconds new;
     pgs_powerplay_time_seconds := pgs_powerplay_time_seconds new;
     pgs_shorthanded_time_seconds := pgs_shorthanded_time_seconds new;
     pgs_corsi_for := pgs_corsi_for new;
     pgs_corsi_against := pgs_corsi_against new;
     pgs_expected_goals := pgs_expected_goals new;
     pgs_expected_assists := pgs_expected_assists new;
     pgs_individual_corsi_for := pgs_individual_corsi_for new;
     pgs_individual_fenwick_for := pgs_individual_fenwick_for new |}.

Definition insertPlayerGameStats (gameId playerId teamId : Z)
    (stats : SkaterStats) (d : Db) : Outcome :=
  let (tbl, e) :=
    statement
      (bind_player_game_stats
         (insertPlayerGameStats_values gameId playerId teamId stats))
      (Table.insert_do_update pgs_key pair_eqb insertPlayerGameStats_set)
      (player_game_stats d) in
  (set_player_game_stats tbl d, e).

Definition insertCompleteGameData_values (game : ScheduleGame)
    (season : string) : list Js.value :=
  [ sg_id game;
    Js.Str season;
    Js.or (sg_gameType game) (Js.Str "02");
    Js.or (sg_gameDate game) (sg_startTimeUTC game);
    sg_homeTeam_id game;
    sg_awayTeam_id game;
    Js.or (sg_homeTeam_score game) (Js.Num 0);
    Js.or (sg_awayTeam_score game) (Js.Num 0);
    Js.or (sg_period game) (Js.Num 3);
    Js.or (sg_gameState game)
          (if Js.strict_eq (sg_gameScheduleState game) (Js.Str "OK")
           then Js.Str "Final" else Js.Str "Scheduled");
    Js.or (sg_venue game) (Js.Str "Unknown") ].

(** [(id, season, game_type, date_time, home_team_id, away_team_id,
      home_score, away_score, period, game_state, venue)] *)
Definition bind_complete_game (values : list Js.value) : option GameRow :=
  match values with
  | [i; s; ty; dt; h; a; hs; as_; pe; st; v] =>
      match Pg.int_col i, Pg.int_null_col h, Pg.int_null_col a,
            Pg.int_col hs, Pg.int_col as_, Pg.int_null_col pe with
      | Some id, Some home, Some away, Some hscore, Some ascore, Some period =>
          Some {| g_id := id; g_season := Pg.text_col s;
                  g_game_type := Pg.text_col ty; g_date_time := Pg.text_col dt;
                  g_home_team_id := home; g_away_team_id := away;
                  g_home_score := hscore; g_away_score := ascore;
                  g_period := period; g_game_state := Pg.text_col st;
                  g_venue := Pg.text_col v |}
      | _, _, _, _, _, _ => None
      end
  | _ => None
  end.

(** [ON CONFLICT (id) DO UPDATE SET] every other column. *)
Definition insertCompleteGameData_set (old new : GameRow) : GameRow :=
  {| g_id := g_id old; g_season := g_season new;
     g_game_type := g_game_type new; g_date_time := g_date_time new;
     g_home_team_id := g_home_team_id new;
     g_away_team_id := g_away_team_id new;
     g_home_score := g_home_score new; g_away_score := g_away_score new;
     g_period := g_period new; g_game_state := g_game_state new;
     g_venue := g_venue new |}.

Definition insertCompleteGameData (game : ScheduleGame) (season : string)
    (d : Db) : Outcome :=
  let (tbl, e) :=
    statement (bind_complete_game (insertCompleteGameData_values game season))
              (Table.insert_do_update g_id Z.eqb insertCompleteGameData_set)
              (games d) in
  (set_games tbl d, e).

(** [processCompletePlayerGameStats(gameId, boxscore)], on the players
    of the box score that carry skater statistics. *)
Definition processCompletePlayerGameStats (gameId : Z)
    (lines : list (Z * Z * SkaterStats)) (d : Db) : Outcome :=
  for_each
    (fun line => insertPlayerGameStats gameId (fst (fst line)) (snd (fst line))
                                       (snd line))
    lines d.

(** ** season aggregations *)

(** [CASE WHEN SUM(shots) > 0 THEN SUM(goals)::NUMERIC / SUM(shots) * 100
     ELSE 0 END], as an exact fraction. *)
Definition shooting_percentage (goals shots : Z) : Q :=
  if (0 <? shots)%Z
  then (inject_Z goals / inject_Z shots * inject_Z 100)%Q
  else inject_Z 0.

Definition season_stats_row (season : string) (rows : list PlayerGameStatRow)
    (k : Z * Z) : PlayerSeasonStatRow :=
       let grp := pgs_group_rows k rows in
       {| pss_player_id := fst k; pss_season := season; pss_team_id := snd k;
          pss_games_played := count_rows grp;
          pss_goals := sum_col pgs_goals grp;
          pss_assists := sum_col pgs_assists grp;
          pss_points := sum_col pgs_points grp;
          pss_plus_minus := sum_col pgs_plus_minus grp;
          pss_penalty_minutes := sum_col pgs_penalty_minutes grp;
          pss_shots := sum_col pgs_shots grp;
          pss_shooting_percentage :=
            Some (shooting_percentage (sum_col pgs_goals grp)
                                      (sum_col pgs_shots grp));
          pss_time_on_ice_total_seconds := sum_col pgs_time_on_ice_seconds grp;
          pss_time_on_ice_avg_seconds :=
            Some (inject_Z (sum_col pgs_time_on_ice_seconds grp)
                  / inject_Z (count_rows grp))%Q;
          pss_powerplay_time_total_seconds :=
            sum_null_col pgs_powerplay_time_seconds grp;
          pss_shorthanded_time_total_seconds :=
            sum_null_col pgs_shorthanded_time_seconds grp |}.

Definition season_stats_select (season : string) (d : Db)
    : list PlayerSeasonStatRow :=
  let rows := pgs_in_season season d in
  map (season_stats_row season rows) (pgs_groups rows).

(** [DO UPDATE SET] every column but the key. *)
Definition season_stats_set (old new : PlayerSeasonStatRow)
    : PlayerSeasonStatRow :=
  {| pss_player_id := pss_player_id old; pss_season := pss_season old;
     pss_team_id := pss_team_id old;
     pss_games_played := pss_games_played new;
     pss_goals := pss_goals new;
     pss_assists := pss_assists new;
     pss_points := pss_points new;
     pss_plus_minus := pss_plus_minus new;
     pss_penalty_minutes := pss_penalty_minutes new;
     pss_shots := pss_shots new;
     pss_shooting_percentage := pss_shooting_percentage new;
     pss_time_on_ice_total_seconds := pss_time_on_ice_total_seconds new;
     pss_time_on_ice_avg_seconds := pss_time_on_ice_avg_seconds new;
     pss_powerplay_time_total_seconds := pss_powerplay_time_total_seconds new;
     pss_shorthanded_time_total_seconds :=
       pss_shorthanded_time_total_seconds new |}.

(** The statement of [calculatePlayerSeasonStats]. *)
Definition player_season_statement (season : string) (d : Db) : Db :=
  set_player_season_stats
    (Table.upsert_all pss_key pss_key_eqb season_stats_set
                         (season_stats_select season d)
                         (player_season_stats d))
    d.

Definition period_le (n : Z) (g : GameRow) : bool :=
  match g_period g with Some p => (p <=? n)%Z | None => false end.

Definition period_gt (n : Z) (g : GameRow) : bool :=
  match g_period g with Some p => (n <? p)%Z | None => false end.

(** [(is_home AND home_score < away_score) OR
     (NOT is_home AND away_score < home_score) AND period <= 3]:
    [AND] binds tighter than [OR].  A NULL [period] makes the comparison
    unknown, which the [CASE] treats as not satisfied. *)
Definition losses_case (x : TeamGameStatRow * GameRow) : bool :=
  let (r, g) := x in
  (tgs_is_home r && (g_home_score g <? g_away_score g)%Z)
  || (negb (tgs_is_home r) && (g_away_score g <? g_home_score g)%Z
      && period_le 3 g).

Definition overtime_losses_case (x : TeamGameStatRow * GameRow) : bool :=
  let (r, g) := x in
  (tgs_is_home r && (g_home_score g <? g_away_score g)%Z)
  || (negb (tgs_is_home r) && (g_away_score g <? g_home_score g)%Z
      && period_gt 3 g).

(** [(team_id, season, games_played, wins, losses, overtime_losses,
      points, goals_for, goals_against, goal_differential)] *)
Definition bind_team_season_stat (values : list Js.value)
    : option TeamSeasonStatRow :=
  match values with
  | t :: s :: rest =>
      match Pg.int_col t, Pg.text_col s, map Pg.int_col rest with
      | Some team, Some season,
        [Some gp; Some w; Some l; Some otl; Some pts; Some gf; Some ga;
         Some gd] =>
          Some {| tss_team_id := team; tss_season := season;
                  tss_games_played := gp; tss_wins := w; tss_losses := l;
                  tss_overtime_losses := Some otl; tss_points := pts;
                  tss_goals_for := gf; tss_goals_against := ga;
                  tss_goal_differential := gd |}
      | _, _, _ => None
      end
  | _ => None
  end.

(** [DO UPDATE SET] every column but the key. *)
Definition team_season_set (old new : TeamSeasonStatRow) : TeamSeasonStatRow :=
  {| tss_team_id := tss_team_id old; tss_season := tss_season old;
     tss_games_played := tss_games_played new; tss_wins := tss_wins new;
     tss_losses := tss_losses new;
     tss_overtime_losses := tss_overtime_losses new;
     tss_points := tss_points new; tss_goals_for := tss_goals_for new;
     tss_goals_against := tss_goals_against new;
     tss_goal_differential := tss_goal_differential new |}.

(** The parameters of the insert for one team; [None] when the guard
    [record.games_played > 0] fails.  The fields of [record] are the
    strings the driver returns. *)
Definition team_season_values (team : Z) (season : string) (d : Db)
    : option (list Js.value) :=
  let rows := tgs_final_in_season team season d in
  let games_played := Pg.bigint_out (count_rows rows) in
  let wins := Pg.sum_out (map (fun x => case_1_0 (own_score_higher x)) rows) in
  let losses := Pg.sum_out (map (fun x => case_1_0 (losses_case x)) rows) in
  let overtime_losses :=
    Pg.sum_out (map (fun x => case_1_0 (overtime_losses_case x)) rows) in
  let goals_for := Pg.sum_out (map (fun x => tgs_goals (fst x)) rows) in
  let goals_against := Pg.sum_out (map opponent_score rows) in
  if Js.gt games_played (Js.Num 0)
  then
    let points := Js.add (Js.mul wins (Js.Num 2)) overtime_losses in
    Some [ Js.Num team; Js.Str season; games_played; wins; losses;
           overtime_losses; points; goals_for; goals_against;
           Js.sub goals_for goals_against ]
  else None.

(** The loop of [calculateTeamSeasonStats]. *)
Definition team_season_loop (season : string) (d : Db) : Outcome :=
  for_each
    (fun team d' =>
       match team_season_values (t_id team) season d' with
       | Some values =>
           let (tbl, e) :=
             statement (bind_team_season_stat values)
                       (Table.insert_do_update tss_key tss_key_eqb
                                               team_season_set)
                       (team_season_stats d') in
           (set_team_season_stats tbl d', e)
       | None => (d', None)
       end)
    (teams d) d.

(** ** the orchestrator *)

Record Progress := {
  currentStep : string;
  progress : Z;
  totalSteps : Z;
  errors : list string;
  completed : list string;
  tablesPopulated : list (string * bool) }.

Inductive Stage : Type :=
| Teams
| Players (season : string)
| Games (season : string) (includePlayoffs : bool)
| PlayerGameStats (season : string)
| GoalieGameStats (season : string)
| TeamGameStats (season : string)
| ShotData (season : string)
| PlayerSeasonStats (season : string)
| TeamSeasonStats (season : string)
| MoneyPuck (season : string).

(** What [generateBackfillReport] prints. *)
Record BackfillReport := {
  rp_counts : list (string * Z);
  rp_error_count : Z;
  rp_errors : list string }.

Record Service := {
  progress_of : Progress;
  isRunning : bool;
  db : Db;
  trace : list Stage;
  report : option BackfillReport }.

Definition new_service (pool : Db) : Service :=
  {| progress_of :=
       {| currentStep := "Ready"; progress := 0; totalSteps := 0;
          errors := []; completed := [];
          tablesPopulated :=
            [ ("teams", false); ("players", false); ("games", false);
              ("player_game_stats", false); ("player_season_stats", false);
              ("team_game_stats", false); ("team_season_stats", false);
              ("goalie_game_stats", false); ("shots", false) ] |};
     isRunning := false; db := pool; trace := []; report := None |}.

Definition with_progress (f : Progress -> Progress) (s : Service) : Service :=
  {| progress_of := f (progress_of s); isRunning := isRunning s; db := db s;
     trace := trace s; report := report s |}.

Definition set_isRunning (b : bool) (s : Service) : Service :=
  {| progress_of := progress_of s; isRunning := b; db := db s;
     trace := trace s; report := report s |}.

Definition updateProgress (step : string) : Run.M Service unit :=
  Run.modify
    (with_progress
       (fun p =>
          {| currentStep := step; progress := progress p + 1;
             totalSteps := totalSteps p; errors := errors p;
             completed := completed p;
             tablesPopulated := tablesPopulated p |})).

Definition set_currentStep (step : string) : Run.M Service unit :=
  Run.modify
    (with_progress
       (fun p =>
          {| currentStep := step; progress := progress p;
             totalSteps := totalSteps p; errors := errors p;
             completed := completed p;
             tablesPopulated := tablesPopulated p |})).

Definition push_completed (label : string) : Run.M Service unit :=
  Run.modify
    (with_progress
       (fun p =>
          {| currentStep := currentStep p; progress := progress p;
             totalSteps := totalSteps p; errors := errors p;
             completed := completed p ++ [label];
             tablesPopulated := tablesPopulated p |})).

Definition push_error (message : string) : Run.M Service unit :=
  Run.modify
    (with_progress
       (fun p =>
          {| currentStep := currentStep p; progress := progress p;
             totalSteps := totalSteps p; errors := errors p ++ [message];
             completed := completed p;
             tablesPopulated := tablesPopulated p |})).

(** [this.progress.tablesPopulated[table] = true] *)
Definition populated (table : string) : Run.M Service unit :=
  Run.modify
    (with_progress
       (fun p =>
          {| currentStep := currentStep p; progress := progress p;
             totalSteps := totalSteps p; errors := errors p;
             completed := completed p;
             tablesPopulated :=
               map (fun e => if (fst e =? table)%string then (fst e, true) else e)
                   (tablesPopulated p) |})).

Definition set_totalSteps (n : Z) : Run.M Service unit :=
  Run.modify
    (with_progress
       (fun p =>
          {| currentStep := currentStep p; progress := progress p;
             totalSteps := n; errors := errors p;
             completed := completed p;
             tablesPopulated := tablesPopulated p |})).

Definition calculateTotalSteps (seasons : list string) (includePlayoffs : bool)
    : Z :=
  let n := Z.of_nat (List.length seasons) in
  1 + n + n * (if includePlayoffs then 2 else 1) + n * 5 + n * 2 + n.

Definition generateBackfillReport : Run.M Service unit :=
  Run.modify
    (fun s =>
       let tables :=
         map fst (filter (fun e => snd e) (tablesPopulated (progress_of s))) in
       {| progress_of := progress_of s; isRunning := isRunning s; db := db s;
          trace := trace s;
          report :=
            Some {| rp_counts :=
                      map (fun t => (t, Complete.table_count t (db s))) tables;
                    rp_error_count :=
                      Z.of_nat (List.length (errors (progress_of s)));
                    rp_errors := errors (progress_of s) |} |}).

Section Orchestrator.
Local Open Scope run_scope.

(** For each stage, what the body of its [try] does to the store and
    whether it throws. *)
Variable stage_body : Stage -> Db -> Db * option Run.exn.

Definition run_stage (st : Stage) : Run.M Service unit :=
  fun s =>
    let (d, e) := stage_body st (db s) in
    let s' :=
      {| progress_of := progress_of s; isRunning := isRunning s; db := d;
         trace := trace s ++ [st]; report := report s |} in
    match e with
    | None => (Run.Ok tt, s')
    | Some x => (Run.Throw x, s')
    end.

(** A stage whose [catch] records the error and throws it again. *)
Definition fatal_stage (step table label failed : string) (st : Stage)
    : Run.M Service unit :=
  updateProgress step ;;
  Run.try_catch
    (run_stage st ;; populated table ;; push_completed label)
    (fun error =>
       push_error (failed ++ ": " ++ Run.errorMessage error) ;;
       Run.throw error).

(** A stage whose [catch] only records the error. *)
Definition tolerant_stage (step label failed : string)
    (mark : Run.M Service unit) (st : Stage) : Run.M Service unit :=
  updateProgress step ;;
  Run.try_catch
    (run_stage st ;; mark ;; push_completed label)
    (fun error => push_error (failed ++ ": " ++ Run.errorMessage error)).

Definition backfillAllTeams :=
  fatal_stage "Fetching all NHL teams" "teams"
              "All teams with complete data" "Teams backfill failed" Teams.

Definition backfillAllPlayersForSeason (season : string) :=
  fatal_stage ("Fetching all players for " ++ season) "players"
              ("All players for " ++ season)
              ("Players backfill failed for " ++ season) (Players season).

Definition backfillCompleteGamesForSeason (season : string)
    (includePlayoffs : bool) :=
  fatal_stage ("Fetching complete games for " ++ season) "games"
              ("Complete games for " ++ season)
              ("Games backfill failed for " ++ season)
              (Games season includePlayoffs).

Definition backfillPlayerGameStats (season : string) :=
  fatal_stage ("Fetching player game stats for " ++ season)
              "player_game_stats"
              ("Player game stats for " ++ season)
              ("Player game stats failed for " ++ season)
              (PlayerGameStats season).

Definition backfillGoalieGameStats (season : string) :=
  tolerant_stage ("Fetching goalie game stats for " ++ season)
                 ("Goalie game stats for " ++ season)
                 ("Goalie game stats failed for " ++ season)
                 (populated "goalie_game_stats") (GoalieGameStats season).

Definition backfillTeamGameStats (season : string) :=
  tolerant_stage ("Fetching team game stats for " ++ season)
                 ("Team game stats for " ++ season)
                 ("Team game stats failed for " ++ season)
                 (populated "team_game_stats") (TeamGameStats season).

Definition backfillShotData (season : string) :=
  tolerant_stage ("Fetching shot data for " ++ season)
                 ("Shot data for " ++ season)
                 ("Shot data failed for " ++ season)
                 (populated "shots") (ShotData season).

Definition calculatePlayerSeasonStats (season : string) :=
  tolerant_stage ("Calculating player season stats for " ++ season)
                 ("Player season aggregations for " ++ season)
                 "Player season stats calculation failed"
                 (populated "player_season_stats")
                 (PlayerSeasonStats season).

Definition calculateTeamSeasonStats (season : string) :=
  tolerant_stage ("Calculating team season stats for " ++ season)
                 ("Team season aggregations for " ++ season)
                 "Team season stats calculation failed"
                 (populated "team_season_stats") (TeamSeasonStats season).

Definition backfillMoneyPuckAdvancedStats (season : string) :=
  tolerant_stage ("Fetching MoneyPuck advanced stats for " ++ season)
                 ("MoneyPuck advanced stats for " ++ season)
                 ("MoneyPuck stats failed for " ++ season)
                 (Run.ret tt) (MoneyPuck season).

Definition all_stages (seasons : list string) (includePlayoffs : bool)
    : Run.M Service unit :=
  backfillAllTeams ;;
  Run.for_of seasons backfillAllPlayersForSeason ;;
  Run.for_of seasons
    (fun season => backfillCompleteGamesForSeason season includePlayoffs) ;;
  Run.for_of seasons backfillPlayerGameStats ;;
  Run.for_of seasons backfillGoalieGameStats ;;
  Run.for_of seasons backfillTeamGameStats ;;
  Run.for_of seasons backfillShotData ;;
  Run.for_of seasons
    (fun season =>
       calculatePlayerSeasonStats season ;;
       calculateTeamSeasonStats season) ;;
  Run.for_of seasons backfillMoneyPuckAdvancedStats ;;
  set_currentStep "Completed Successfully" ;;
  generateBackfillReport.

(** [startCompleteBackfill] past its guard. *)
Definition run_backfill (seasons : list string) (includePlayoffs : bool)
    : Run.M Service unit :=
  Run.modify (set_isRunning true) ;;
  set_totalSteps (calculateTotalSteps seasons includePlayoffs) ;;
  Run.try_finally
    (Run.try_catch
       (all_stages seasons includePlayoffs)
       (fun error =>
          push_error ("Complete backfill failed: "
                      ++ Run.errorMessage error) ;;
          Run.throw error))
    (set_isRunning false).

Definition startCompleteBackfill (seasons : list string)
    (includePlayoffs : bool) : Run.M Service unit :=
  fun s =>
    if isRunning s
    then (Run.Throw (Run.Error "Backfill already in progress"), s)
    else run_backfill seasons includePlayoffs s.
End Orchestrator.

Definition isBackfillRunning (s : Service) : bool := isRunning s.

(** One invocation: what it is called with, and its environment. *)
Record Invocation := {
  iv_stage_body : Stage -> Db -> Db * option Run.exn;
  iv_seasons : list string;
  iv_includePlayoffs : bool }.

Definition invoke (iv : Invocation) : Run.M Service unit :=
  startCompleteBackfill (iv_stage_body iv) (iv_seasons iv)
                        (iv_includePlayoffs iv).

(** Invocations made one after the other on the same instance. *)
Definition invoke_all (ivs : list Invocation) (s : Service) : Service :=
  fold_left (fun s' iv => snd (invoke iv s')) ivs s.

(** ** the advanced-metrics files *)

(** [parseCSV(csvText)]: the text of the other service's, without the
    bound on the number of lines. *)
Definition parseCSV (csvText : string) : list Js.object :=
  match Complete.csv_lines csvText with
  | [] | [_] => []
  | header :: rest =>
      Complete.csv_data (map Complete.csv_clean (Js.split "," header)) rest
  end.

(** ** shot events *)

(** [parseGameTimeToSeconds(timeInPeriod, period)]: the parts of the
    split go through [Number], and a part that is not there is
    [undefined]; [period] is not used. *)
Definition parseGameTimeToSeconds (timeInPeriod : option string)
    (period : Js.value) : Js.value :=
  match timeInPeriod with
  | None => Js.Num 0
  | Some s =>
      if negb (Js.truthy (Js.Str s)) then Js.Num 0
      else
        let parts := map (fun p => Js.to_number (Js.Str p)) (Js.split ":" s) in
        let minutes := nth 0 parts Js.Undefined in
        let seconds := nth 1 parts Js.Undefined in
        let totalSecondsInPeriod := Js.mul (Js.Num 20) (Js.Num 60) in
        let elapsedInPeriod := Js.add (Js.mul minutes (Js.Num 60)) seconds in
        Js.sub totalSecondsInPeriod elapsedInPeriod
  end.

(** ** what a run does, stage by stage *)

(** The stages of a run, in its order. *)
Definition schedule (seasons : list string) (includePlayoffs : bool)
    : list Stage :=
  Teams
  :: map Players seasons
  ++ map (fun season => Games season includePlayoffs) seasons
  ++ map PlayerGameStats seasons
  ++ map GoalieGameStats seasons
  ++ map TeamGameStats seasons
  ++ map ShotData seasons
  ++ flat_map (fun season => [PlayerSeasonStats season; TeamSeasonStats season])
              seasons
  ++ map MoneyPuck seasons.

(** The stages whose [catch] throws the error again. *)
Definition is_fatal (st : Stage) : bool :=
  match st with
  | Teams | Players _ | Games _ _ | PlayerGameStats _ => true
  | _ => false
  end.

(** The method that runs a stage. *)
Definition wrapper (stage_body : Stage -> Db -> Db * option Run.exn)
    (st : Stage) : Run.M Service unit :=
  match st with
  | Teams => backfillAllTeams stage_body
  | Players season => backfillAllPlayersForSeason stage_body season
  | Games season includePlayoffs =>
      backfillCompleteGamesForSeason stage_body season includePlayoffs
  | PlayerGameStats season => backfillPlayerGameStats stage_body season
  | GoalieGameStats season => backfillGoalieGameStats stage_body season
  | TeamGameStats season => backfillTeamGameStats stage_body season
  | ShotData season => backfillShotData stage_body season
  | PlayerSeasonStats season => calculatePlayerSeasonStats stage_body season
  | TeamSeasonStats season => calculateTeamSeasonStats stage_body season
  | MoneyPuck season => backfillMoneyPuckAdvancedStats stage_body season
  end.

(** The label a stage goes by in the [completed] list, and the head of
    the message it leaves in the error list when it throws. *)
Definition stage_label (st : Stage) : string :=
  match st with
  | Teams => "All teams with complete data"
  | Players season => "All players for " ++ season
  | Games season _ => "Complete games for " ++ season
  | PlayerGameStats season => "Player game stats for " ++ season
  | GoalieGameStats season => "Goalie game stats for " ++ season
  | TeamGameStats season => "Team game stats for " ++ season
  | ShotData season => "Shot data for " ++ season
  | PlayerSeasonStats season => "Player season aggregations for " ++ season
  | TeamSeasonStats season => "Team season aggregations for " ++ season
  | MoneyPuck season => "MoneyPuck advanced stats for " ++ season
  end.

Definition stage_failed (st : Stage) : string :=
  match st with
  | Teams => "Teams backfill failed"
  | Players season => "Players backfill failed for " ++ season
  | Games season _ => "Games backfill failed for " ++ season
  | PlayerGameStats season => "Player game stats failed for " ++ season
  | GoalieGameStats season => "Goalie game stats failed for " ++ season
  | TeamGameStats season => "Team game stats failed for " ++ season
  | ShotData season => "Shot data failed for " ++ season
  | PlayerSeasonStats _ => "Player season stats calculation failed"
  | TeamSeasonStats _ => "Team season stats calculation failed"
  | MoneyPuck season => "MoneyPuck stats failed for " ++ season
  end.

Definition stage_error (st : Stage) (e : Run.exn) : string :=
  stage_failed st ++ ": " ++ Run.errorMessage e.

(** The stages of a list as they run one after the other from store
    [d], each with what it threw; the first foundational stage that
    throws is the last to run.  And the store they leave. *)
Fixpoint events (stage_body : Stage -> Db -> Db * option Run.exn)
    (sts : list Stage) (d : Db) : list (Stage * option Run.exn) :=
  match sts with
  | [] => []
  | st :: rest =>
      (st, snd (stage_body st d))
      :: match snd (stage_body st d) with
         | Some _ =>
             if is_fatal st then []
             else events stage_body rest (fst (stage_body st d))
         | None => events stage_body rest (fst (stage_body st d))
         end
  end.

Fixpoint store_after (stage_body : Stage -> Db -> Db * option Run.exn)
    (sts : list Stage) (d : Db) : Db :=
  match sts with
  | [] => d
  | st :: rest =>
      match snd (stage_body st d) with
      | Some _ =>
          if is_fatal st then fst (stage_body st d)
          else store_after stage_body rest (fst (stage_body st d))
      | None => store_after stage_body rest (fst (stage_body st d))
      end
  end.

(** The error of the foundational stage that threw, if one did. *)
Fixpoint fatal_error (evs : list (Stage * option Run.exn)) : option Run.exn :=
  match evs with
  | [] => None
  | (st, Some e) :: rest => if is_fatal st then Some e else fatal_error rest
  | (_, None) :: rest => fatal_error rest
  end.

Definition error_lines (evs : list (Stage * option Run.exn)) : list string :=
  flat_map (fun ev => match snd ev with
                      | Some e => [stage_error (fst ev) e]
                      | None => []
                      end) evs.

Definition completed_labels (evs : list (Stage * option Run.exn))
    : list string :=
  flat_map (fun ev => match snd ev with
                      | Some _ => []
                      | None => [stage_label (fst ev)]
                      end) evs.

(** What running stages leaves of a service [s]: the store [d'], the
    stages entered added to the trace, the messages of those that threw
    added to the error list, the labels of the others added to the
    completed list, the counter of the progress gone up by one for
    each; the total of the steps, the running flag and the report are
    not touched. *)
Definition ran (evs : list (Stage * option Run.exn)) (d' : Db)
    (s s' : Service) : Prop :=
  db s' = d'
  /\ trace s' = trace s ++ map fst evs
  /\ errors (progress_of s') = errors (progress_of s) ++ error_lines evs
  /\ completed (progress_of s')
     = completed (progress_of s) ++ completed_labels evs
  /\ progress (progress_of s')
     = progress (progress_of s) + Z.of_nat (List.length evs)
  /\ totalSteps (progress_of s') = totalSteps (progress_of s)
  /\ isRunning s' = isRunning s
  /\ report s' = report s.

(** ** the teams stage *)

(** A standings entry as [backfillAllTeams] and [insertCompleteTeamData]
    read it.  [ls_teamAbbrev] is [None] when the entry has no
    [teamAbbrev] object, and otherwise the [default] of that object;
    [ls_teamName] is [standing.teamName?.default]. *)
Record LiveStanding := {
  ls_teamAbbrev : option Js.value;
  ls_teamName : Js.value;
  ls_divisionName : Js.value;
  ls_conferenceName : Js.value }.

(** A team of the answer of the statistics interface. *)
Record StatsTeam := {
  tm_id : Js.value;
  tm_fullName : Js.value;
  tm_teamName : Js.value;
  tm_abbreviation : Js.value;
  tm_locationName : Js.value;
  tm_city : Js.value;
  tm_division : Js.value;
  tm_conference : Js.value }.

(** The [TypeError]s of the stage; their messages are the engine's. *)
Definition not_iterable : Run.exn :=
  Run.Error "standingsData.standings is not iterable".
Definition no_find : Run.exn :=
  Run.Error "Cannot read properties of undefined (reading 'find')".
Definition no_default : Run.exn :=
  Run.Error "Cannot read properties of undefined (reading 'default')".

(** [teamsData.data.find(t => t.id === standing.teamAbbrev.default)]:
    the test is evaluated for each team in turn, and throws when the
    entry has no [teamAbbrev]. *)
Fixpoint find_team (abbrev : option Js.value) (data : list StatsTeam)
    : Run.Result (option StatsTeam) :=
  match data with
  | [] => Run.Ok None
  | t :: rest =>
      match abbrev with
      | None => Run.Throw no_default
      | Some a =>
          if Js.strict_eq (tm_id t) a then Run.Ok (Some t)
          else find_team abbrev rest
      end
  end.

(** [standing.teamAbbrev?.default] *)
Definition abbrev_default (standing : LiveStanding) : Js.value :=
  match ls_teamAbbrev standing with
  | Some a => a
  | None => Js.Undefined
  end.

Definition insertCompleteTeamData_values (standing : LiveStanding)
    (team : StatsTeam) : list Js.value :=
  [ tm_id team;
    Js.or (Js.or (tm_fullName team) (tm_teamName team)) (ls_teamName standing);
    Js.or (abbrev_default standing) (tm_abbreviation team);
    Js.or (tm_locationName team) (tm_city team);
    Js.or (ls_divisionName standing) (tm_division team);
    Js.or (ls_conferenceName standing) (tm_conference team) ].

(** [DO UPDATE SET name, abbreviation, city, division, conference] *)
Definition insertCompleteTeamData_set (old new : TeamRow) : TeamRow :=
  {| t_id := t_id old; t_name := t_name new;
     t_abbreviation := t_abbreviation new; t_city := t_city new;
     t_division := t_division new; t_conference := t_conference new |}.

Definition insertCompleteTeamData (standing : LiveStanding) (team : StatsTeam)
    (d : Db) : Outcome :=
  let (tbl, e) :=
    statement
      (Complete.bind_team (insertCompleteTeamData_values standing team))
      (Table.insert_do_update t_id Z.eqb insertCompleteTeamData_set)
      (teams d) in
  (set_teams tbl d, e).

(** The loop over the standings; [data] is [teamsData.data], [None]
    when the answer has none. *)
Fixpoint teams_loop (data : option (list StatsTeam))
    (standings : list LiveStanding) (d : Db) : Db * option Run.exn :=
  match standings with
  | [] => (d, None)
  | standing :: rest =>
      match data with
      | None => (d, Some no_find)
      | Some teams =>
          match find_team (ls_teamAbbrev standing) teams with
          | Run.Throw e => (d, Some e)
          | Run.Ok None => teams_loop data rest d
          | Run.Ok (Some team) =>
              match insertCompleteTeamData standing team d with
              | (d', None) => teams_loop data rest d'
              | (d', Some m) => (d', Some (Run.Error m))
              end
          end
      end
  end.

(** What [backfillAllTeams] runs inside its [try], up to the flag and
    the [completed] entry: the two requests, each of which may reject
    (the request itself or the reading of its body), then the loop.
    [Run.Ok None] for the standings: the answer has no [standings]. *)
Definition teams_body
    (standingsData : Run.Result (option (list LiveStanding)))
    (teamsData : Run.Result (option (list StatsTeam)))
    (d : Db) : Db * option Run.exn :=
  match standingsData with
  | Run.Throw e => (d, Some e)
  | Run.Ok standings =>
      match teamsData with
      | Run.Throw e => (d, Some e)
      | Run.Ok data =>
          match standings with
          | None => (d, Some not_iterable)
          | Some l => teams_loop data l d
          end
      end
  end.

End DataBackfill.

(* ================================================================== *)
(** * Sequences of writes, and sample inputs                          *)
(* ================================================================== *)

(** One write of a player's statistics of a game, through the one
    service or the other. *)
Inductive PgsWrite : Type :=
| ViaComplete (gameId playerId teamId : Z) (stats : SkaterStats)
| ViaDataBackfill (gameId playerId teamId : Z) (stats : SkaterStats).

Definition run_write (w : PgsWrite) (d : Db) : Db :=
  match w with
  | ViaComplete g p t stats => fst (Complete.insertPlayerGameStat g p t stats d)
  | ViaDataBackfill g p t stats =>
      fst (DataBackfill.insertPlayerGameStats g p t stats d)
  end.

(** Any number of them, in any order. *)
Definition run_writes (ws : list PgsWrite) (d : Db) : Db :=
  fold_left (fun d' w => run_write w d') ws d.


(** The per-game rows of player [p] with team [t] whose game belongs to
    [season]: one group of the season aggregation. *)
Definition pgs_rows_of (p t : Z) (season : string) (d : Db)
    : list PlayerGameStatRow :=
  pgs_group_rows (p, t) (pgs_in_season season d).

(** All per-game rows of player [p] whose game belongs to [season]. *)
Definition pgs_rows_of_player (p : Z) (season : string) (d : Db)
    : list PlayerGameStatRow :=
  filter (fun r => (pgs_player_id r =? p)%Z) (pgs_in_season season d).

(** [SELECT * FROM player_season_stats WHERE player_id = p AND season = s
     AND team_id = t] *)
Definition pss_rows_for (p : Z) (season : string) (t : Z) (d : Db)
    : list PlayerSeasonStatRow :=
  filter (Table.has_key pss_key pss_key_eqb (p, season, t))
         (player_season_stats d).

(** [SELECT * FROM player_season_stats WHERE player_id = p AND season = s] *)
Definition pss_rows_of_player (p : Z) (season : string) (d : Db)
    : list PlayerSeasonStatRow :=
  filter (fun r => (pss_player_id r =? p)%Z && (pss_season r =? season)%string)
         (player_season_stats d).

(** [SELECT * FROM team_season_stats WHERE team_id = t AND season = s] *)
Definition tss_rows_for (t : Z) (season : string) (d : Db)
    : list TeamSeasonStatRow :=
  filter (Table.has_key tss_key tss_key_eqb (t, season)) (team_season_stats d).

(** A season row carries the totals of the per-game rows [G]: the number
    of games and the scoring columns, and the shots and penalty minutes. *)
Definition carries_scoring_totals (G : list PlayerGameStatRow)
    (r : PlayerSeasonStatRow) : Prop :=
  pss_games_played r = count_rows G
  /\ pss_goals r = sum_col pgs_goals G
  /\ pss_assists r = sum_col pgs_assists G
  /\ pss_points r = sum_col pgs_points G.

Definition carries_shot_totals (G : list PlayerGameStatRow)
    (r : PlayerSeasonStatRow) : Prop :=
  pss_shots r = sum_col pgs_shots G
  /\ pss_penalty_minutes r = sum_col pgs_penalty_minutes G.

(** The statistics of a skater of whom upstream reports goals, assists
    and shots and a time on ice, and nothing else. *)
Definition skater (goals assists shots : Z) (timeOnIce : option string)
    : SkaterStats :=
  {| sk_goals := Js.Num goals; sk_assists := Js.Num assists;
     sk_plusMinus := Js.Undefined; sk_penaltyMinutes := Js.Undefined;
     sk_shots := Js.Num shots; sk_hits := Js.Undefined;
     sk_blockedShots := Js.Undefined; sk_timeOnIce := timeOnIce;
     sk_powerPlay_timeOnIce := None; sk_penaltyKill_timeOnIce := None;
     sk_corsiFor := Js.Undefined; sk_corsiAgainst := Js.Undefined;
     sk_expectedGoals := Js.Undefined; sk_expectedAssists := Js.Undefined;
     sk_individualCorsiFor := Js.Undefined;
     sk_individualFenwickFor := Js.Undefined |}.

(** The rows the fallback sends, as the store binds them. *)
Definition fallback_rows : list TeamRow :=
  bound_prefix (fun team => Complete.bind_team (Complete.fallback_values team))
               Complete.fallback_teams.

(** The live request for the teams brings nothing: a network error, an
    empty body, or a body without the [standings] field. *)
Definition no_live_teams (fetch : Complete.StandingsFetch) : bool :=
  match fetch with
  | Complete.NetworkError _ | Complete.BodyUnreadable _ | Complete.Body None => true
  | Complete.Body (Some _) => false
  end.

(** A standings entry under an abbreviation the service has no id for. *)
Definition utah_standing : Standing :=
  {| st_teamAbbrev := Js.Str "UTA"; st_teamName := Js.Str "Utah Hockey Club";
     st_placeName := Js.Str "Utah";
     st_divisionName := Js.Str "Central";
     st_conferenceName := Js.Str "Western" |}.

(** The store after the teams, the sample games of season 20232024 and
    their team statistics have been written. *)
Definition sample_store : Db :=
  fst (Complete.insertSampleTeamStats
         (fst (Complete.insertSampleCapitalsGames (Js.Str "20232024")
                 (fst (Complete.insertFallbackTeams empty_db))))).

(** ... and with the lines of a player who played the first game for
    team 15 and the second for team 6. *)
Definition traded_store : Db :=
  run_writes
    [ ViaDataBackfill 2024020500 8471214 15 (skater 1 0 3 (Some "18:30"));
      ViaDataBackfill 2024020501 8471214 6 (skater 2 1 4 (Some "19:02")) ]
    sample_store.


(** A team's record in a season, from its per-game rows joined with the
    Final games of the season: games won and lost by the comparison of
    its own score with the opponent's, games lost after the third
    period, goals for and against. *)
Definition team_games (t : Z) (season : string) (d : Db) : Z :=
  count_rows (tgs_final_in_season t season d).
Definition team_wins (t : Z) (season : string) (d : Db) : Z :=
  sum_col (fun x => case_1_0 (own_score_higher x)) (tgs_final_in_season t season d).
Definition team_losses (t : Z) (season : string) (d : Db) : Z :=
  sum_col (fun x => case_1_0 (own_score_lower x)) (tgs_final_in_season t season d).
Definition team_goals_for (t : Z) (season : string) (d : Db) : Z :=
  sum_col (fun x => tgs_goals (fst x)) (tgs_final_in_season t season d).
Definition team_goals_against (t : Z) (season : string) (d : Db) : Z :=
  sum_col opponent_score (tgs_final_in_season t season d).

(** The row [Complete.calculateTeamSeasonStats] sends for a team. *)
Definition complete_team_row (t : Z) (season : string) (d : Db)
    : TeamSeasonStatRow :=
  {| tss_team_id := t; tss_season := season;
     tss_games_played := team_games t season d;
     tss_wins := team_wins t season d;
     tss_losses := team_losses t season d;
     tss_overtime_losses := None;
     tss_points := team_wins t season d * 2;
     tss_goals_for := team_goals_for t season d;
     tss_goals_against := team_goals_against t season d;
     tss_goal_differential :=
       team_goals_for t season d - team_goals_against t season d |}.

(** What [DataBackfill.calculateTeamSeasonStats] sends for the points
    column, as the store reads it: [(record.wins * 2) +
    record.overtime_losses] on the strings of the driver. *)
Definition databackfill_points (t : Z) (season : string) (d : Db) : Z :=
  let rows := tgs_final_in_season t season d in
  let otl := sum_col (fun x => case_1_0 (DataBackfill.overtime_losses_case x)) rows in
  match Pg.int_col (Js.add (Js.mul (Pg.bigint_out (team_wins t season d)) (Js.Num 2))
                           (Pg.bigint_out otl)) with
  | Some z => z
  | None => 0
  end.

(** The row [DataBackfill.calculateTeamSeasonStats] sends for a team. *)
Definition databackfill_team_row (t : Z) (season : string) (d : Db)
    : TeamSeasonStatRow :=
  let rows := tgs_final_in_season t season d in
  {| tss_team_id := t; tss_season := season;
     tss_games_played := team_games t season d;
     tss_wins := team_wins t season d;
     tss_losses := sum_col (fun x => case_1_0 (DataBackfill.losses_case x)) rows;
     tss_overtime_losses :=
       Some (sum_col (fun x => case_1_0 (DataBackfill.overtime_losses_case x)) rows);
     tss_points := databackfill_points t season d;
     tss_goals_for := team_goals_for t season d;
     tss_goals_against := team_goals_against t season d;
     tss_goal_differential :=
       team_goals_for t season d - team_goals_against t season d |}.

(** The rows a team loop sends: one for each team of the list that has
    a game to count. *)
Definition team_rows (row_of : Z -> TeamSeasonStatRow) (season : string)
    (d : Db) (l : list TeamRow) : list TeamSeasonStatRow :=
  flat_map
    (fun team =>
       match tgs_final_in_season (t_id team) season d with
       | [] => []
       | _ => [row_of (t_id team)]
       end) l.

(** A game of season 20232024 that team 15 won 3-2 at home against
    team 3 in overtime, as the schedule reports it. *)
Definition overtime_game : ScheduleGame :=
  {| sg_id := Js.Num 2023020700; sg_gameType := Js.Str "02";
     sg_gameDate := Js.Str "2024-01-14"; sg_startTimeUTC := Js.Undefined;
     sg_homeTeam_id := Js.Num 15; sg_awayTeam_id := Js.Num 3;
     sg_homeTeam_score := Js.Num 3; sg_awayTeam_score := Js.Num 2;
     sg_gameState := Js.Str "Final"; sg_venue := Js.Str "Capital One Arena";
     sg_period := Js.Num 4; sg_gameScheduleState := Js.Str "OK" |}.

(** The store with the teams, that game, and its two team lines. *)
Definition overtime_store : Db :=
  let d1 := fst (Complete.insertFallbackTeams empty_db) in
  let d2 := fst (DataBackfill.insertCompleteGameData overtime_game "20232024" d1) in
  let d3 :=
    fst (Complete.insertTeamGameStat 2023020700 15 true
           {| tb_score := Js.Num 3; tb_sog := Js.Num 31; tb_hits := Js.Num 20 |}
           d2) in
  fst (Complete.insertTeamGameStat 2023020700 3 false
         {| tb_score := Js.Num 2; tb_sog := Js.Num 27; tb_hits := Js.Num 24 |}
         d3).


(** A run in which every stage after the teams throws. *)
Definition every_stage_fails : Complete.Invocation :=
  {| Complete.iv_fetch := Complete.NetworkError (Run.Error "fetch failed");
     Complete.iv_stage_body := fun _ d => (d, Some (Run.Error "upstream down"));
     Complete.iv_seasons := ["20232024"];
     Complete.iv_includePlayoffs := false |}.

(** A run of the other service in which the teams stage throws. *)
Definition teams_stage_fails : DataBackfill.Invocation :=
  {| DataBackfill.iv_stage_body :=
       fun st d =>
         match st with
         | DataBackfill.Teams => (d, Some (Run.Error "fetch failed"))
         | _ => (d, None)
         end;
     DataBackfill.iv_seasons := ["20232024"];
     DataBackfill.iv_includePlayoffs := false |}.

(** The standings entry of the Capitals. *)
Definition capitals_standing : Standing :=
  {| st_teamAbbrev := Js.Str "WSH"; st_teamName := Js.Str "Washington Capitals";
     st_placeName := Js.Str "Washington";
     st_divisionName := Js.Str "Metropolitan";
     st_conferenceName := Js.Str "Eastern" |}.

(* ================================================================== *)
(** * Strings and tables the further properties speak of              *)
(* ================================================================== *)

(** How often a character occurs in a string. *)
Fixpoint occurrences (c : ascii) (s : string) : nat :=
  match s with
  | EmptyString => O
  | String x r => (if Ascii.eqb x c then 1 else 0) + occurrences c r
  end.













(** The statistics of a goalie who faced 30 shots and let in 2 goals,
    and of one who faced 25 and let in none. *)
Definition goalie_30_2 : Complete.GoalieBox :=
  {| Complete.gl_shotsAgainst := Js.Num 30;
     Complete.gl_goalsAgainst := Js.Num 2;
     Complete.gl_timeOnIce := Some "60:00" |}.

Definition goalie_25_0 : Complete.GoalieBox :=
  {| Complete.gl_shotsAgainst := Js.Num 25;
     Complete.gl_goalsAgainst := Js.Undefined;
     Complete.gl_timeOnIce := Some "59:12" |}.



(** A run of [DataBackfill] in which the shot data and the team season
    statistics throw, and nothing else does. *)
Definition two_stages_fail : DataBackfill.Invocation :=
  {| DataBackfill.iv_stage_body :=
       fun st d =>
         match st with
         | DataBackfill.ShotData _ => (d, Some (Run.Error "rate limited"))
         | DataBackfill.TeamSeasonStats _ => (d, Some (Run.Error "deadlock"))
         | _ => (d, None)
         end;
     DataBackfill.iv_seasons := ["20232024"];
     DataBackfill.iv_includePlayoffs := true |}.

(** The live answers as the two interfaces give them for the Capitals:
    the standings under the abbreviation, the team under its number. *)
Definition capitals_live_standing : DataBackfill.LiveStanding :=
  {| DataBackfill.ls_teamAbbrev := Some (Js.Str "WSH");
     DataBackfill.ls_teamName := Js.Str "Washington Capitals";
     DataBackfill.ls_divisionName := Js.Str "Metropolitan";
     DataBackfill.ls_conferenceName := Js.Str "Eastern" |}.

Definition capitals_stats_team : DataBackfill.StatsTeam :=
  {| DataBackfill.tm_id := Js.Num 15;
     DataBackfill.tm_fullName := Js.Str "Washington Capitals";
     DataBackfill.tm_teamName := Js.Undefined;
     DataBackfill.tm_abbreviation := Js.Undefined;
     DataBackfill.tm_locationName := Js.Undefined;
     DataBackfill.tm_city := Js.Undefined;
     DataBackfill.tm_division := Js.Undefined;
     DataBackfill.tm_conference := Js.Undefined |}.

(** The games a team lost at home, and those it lost away among the
    games that satisfy [test], over its per-game rows joined with the
    Final games of the season. *)
Definition lost_at_home (x : TeamGameStatRow * GameRow) : bool :=
  tgs_is_home (fst x) && (g_home_score (snd x) <? g_away_score (snd x))%Z.
Definition lost_away (x : TeamGameStatRow * GameRow) : bool :=
  negb (tgs_is_home (fst x)) && (g_away_score (snd x) <? g_home_score (snd x))%Z.
Definition team_home_losses (t : Z) (season : string) (d : Db) : Z :=
  sum_col (fun x => case_1_0 (lost_at_home x)) (tgs_final_in_season t season d).
Definition team_away_losses (test : GameRow -> bool) (t : Z) (season : string)
    (d : Db) : Z :=
  sum_col (fun x => case_1_0 (lost_away x && test (snd x)))
          (tgs_final_in_season t season d).

(** The number of decimal digits of a count. *)
Definition decimal_digits (z : Z) : Z :=
  Z.of_nat (String.length (Js.Z_to_string z)).

(** A game of season 20232024 that team 3 lost 1-4 at home to team 15
    in three periods, and the store with the teams, that game and its
    two team lines. *)
Definition regulation_game : ScheduleGame :=
  {| sg_id := Js.Num 2023020811; sg_gameType := Js.Str "02";
     sg_gameDate := Js.Str "2024-02-03"; sg_startTimeUTC := Js.Undefined;
     sg_homeTeam_id := Js.Num 3; sg_awayTeam_id := Js.Num 15;
     sg_homeTeam_score := Js.Num 1; sg_awayTeam_score := Js.Num 4;
     sg_gameState := Js.Str "Final"; sg_venue := Js.Str "Madison Square Garden";
     sg_period := Js.Num 3; sg_gameScheduleState := Js.Str "OK" |}.

Definition home_loss_store : Db :=
  let d1 := fst (Complete.insertFallbackTeams empty_db) in
  let d2 := fst (DataBackfill.insertCompleteGameData regulation_game "20232024" d1) in
  let d3 :=
    fst (Complete.insertTeamGameStat 2023020811 3 true
           {| tb_score := Js.Num 1; tb_sog := Js.Num 22; tb_hits := Js.Num 18 |}
           d2) in
  fst (Complete.insertTeamGameStat 2023020811 15 false
         {| tb_score := Js.Num 4; tb_sog := Js.Num 35; tb_hits := Js.Num 21 |}
         d3).

(** Rows added one after the other where their key is not taken. *)
Definition add_absent {Row Key : Type} (key : Row -> Key)
    (key_eqb : Key -> Key -> bool) (rows tbl : list Row) : list Row :=
  fold_left (fun t r => Table.insert_do_nothing key key_eqb r t) rows tbl.

(** The rows the test backfill sends for the Capitals players, for the
    sample games of a season, and for the two team lines. *)
Definition capitals_player_bound (player : Complete.FallbackPlayer)
    : option PlayerRow :=
  Complete.bind_player
    [ Js.Num (Complete.fp_id player); Js.Num Complete.CAPITALS_TEAM_ID;
      Js.Str (Complete.fp_firstName player); Js.Str (Complete.fp_lastName player);
      Js.Str (Complete.fp_position player); Js.Num (Complete.fp_number player) ].

Definition capitals_player_rows : list PlayerRow :=
  bound_prefix capitals_player_bound Complete.fallback_players.

Definition sample_game_bound (season : Js.value) (game : Complete.SampleGame)
    : option GameRow :=
  Complete.bind_game
    [ Js.Num (Complete.sm_id game); season; Js.Str "02";
      Js.Str (Complete.sm_gameDate game); Js.Num (Complete.sm_homeTeamId game);
      Js.Num (Complete.sm_awayTeamId game); Js.Num (Complete.sm_homeScore game);
      Js.Num (Complete.sm_awayScore game); Js.Str "Final";
      Js.Str (Complete.sm_venue game) ].

Definition sample_game_rows (season : Js.value) : list GameRow :=
  bound_prefix (sample_game_bound season) Complete.sample_games.

Definition sample_team_bound (stat : Complete.SampleTeamStat)
    : option TeamGameStatRow :=
  Complete.bind_team_game_stat
    [ Js.Num (Complete.ss_gameId stat); Js.Num (Complete.ss_teamId stat);
      Js.Bool (Complete.ss_isHome stat); Js.Num (Complete.ss_goals stat);
      Js.Num (Complete.ss_shots stat); Js.Num (Complete.ss_hits stat) ].

Definition sample_team_lines : list TeamGameStatRow :=
  bound_prefix sample_team_bound Complete.sample_team_stats.

(** The store after the four steps of the test backfill. *)
Definition test_store (season : Js.value) (d : Db) : Db :=
  set_team_game_stats
    (add_absent tgs_key pair_eqb sample_team_lines (team_game_stats d))
    (set_games (add_absent g_id Z.eqb (sample_game_rows season) (games d))
       (set_players
          (Table.upsert_all p_id Z.eqb Complete.insertPlayer_set
             capitals_player_rows (players d))
          (set_teams
             (Table.upsert_all t_id Z.eqb Complete.fallback_set fallback_rows
                (teams d)) d))).

(* ================================================================== *)
(** * Properties                                                      *)
(* ================================================================== *)

(** ** Decimal strings: what is printed is read back *)

Example parseInt_12 : Js.parseInt "12" = Js.Num 12. Proof. reflexivity. Qed.
Example parseInt_12px : Js.parseInt " -12px" = Js.Num (-12). Proof. reflexivity. Qed.
Example parseInt_hex : Js.parseInt "0x1f" = Js.Num 31. Proof. reflexivity. Qed.
Example parseInt_empty : Js.parseInt "" = Js.NaN. Proof. reflexivity. Qed.
Example split_time : Js.split ":" "12:34" = ["12"; "34"]. Proof. reflexivity. Qed.
Example split_none : Js.split ":" "1234" = ["1234"]. Proof. reflexivity. Qed.
Example add_concat : Js.add (Js.Num 6) (Js.Str "1") = Js.Str "61". Proof. reflexivity. Qed.
Example mul_str : Js.mul (Js.Str "3") (Js.Num 2) = Js.Num 6. Proof. reflexivity. Qed.

Lemma string_of_uint_all_digits (d : Decimal.uint) :
  Js.all_digits (NilEmpty.string_of_uint d) = true.
Proof. induction d; simpl; auto. Qed.

Lemma digits_prefix_all (s : string) :
  Js.all_digits s = true -> Js.digits_prefix s = (s, EmptyString).
Proof.
  induction s as [|c r IH]; simpl; [reflexivity|].
  intros H. apply andb_true_iff in H. destruct H as [Hc Hr].
  rewrite Hc, (IH Hr). reflexivity.
Qed.

Lemma digit_bounds (c : ascii) :
  Js.is_digit c = true -> (48 <= N_of_ascii c <= 57)%N.
Proof.
  unfold Js.is_digit. intros H. apply andb_true_iff in H.
  destruct H as [H1 H2]. apply N.leb_le in H1. apply N.leb_le in H2. lia.
Qed.

Lemma digit_not_ws (c : ascii) : Js.is_digit c = true -> Js.is_ws c = false.
Proof.
  intros H. apply digit_bounds in H. unfold Js.is_ws.
  apply orb_false_iff. split.
  - apply N.eqb_neq. lia.
  - apply andb_false_iff. right. apply N.leb_gt. lia.
Qed.

Lemma digit_not_char (c k : ascii) :
  Js.is_digit c = true -> Js.is_digit k = false -> Ascii.eqb c k = false.
Proof.
  intros Hc Hk. destruct (Ascii.eqb_spec c k) as [->|]; [congruence|reflexivity].
Qed.

Lemma rstrip_ws_all_digits (s : string) :
  Js.all_digits s = true -> Js.rstrip_ws s = s.
Proof.
  induction s as [|c r IH]; simpl; [reflexivity|].
  intros H. apply andb_true_iff in H. destruct H as [Hc Hr].
  rewrite (IH Hr). destruct r; [|reflexivity].
  now rewrite (digit_not_ws _ Hc).
Qed.

Lemma strip_ws_digit_first (c : ascii) (r : string) :
  Js.is_digit c = true -> Js.strip_ws (String c r) = String c r.
Proof. intros H. simpl. now rewrite (digit_not_ws _ H). Qed.

Lemma split_sign_digit_first (c : ascii) (r : string) :
  Js.is_digit c = true -> Js.split_sign (String c r) = (false, String c r).
Proof.
  intros H. simpl.
  rewrite (digit_not_char c "-" H eq_refl), (digit_not_char c "+" H eq_refl).
  reflexivity.
Qed.

Lemma after_hex_prefix_all_digits (s : string) :
  Js.all_digits s = true -> Js.after_hex_prefix s = None.
Proof.
  destruct s as [|c [|x r]]; simpl; try reflexivity.
  intros H. apply andb_true_iff in H. destruct H as [_ H].
  apply andb_true_iff in H. destruct H as [Hx _].
  rewrite (digit_not_char x "x" Hx eq_refl), (digit_not_char x "X" Hx eq_refl).
  now rewrite andb_false_r.
Qed.

(** The digits of a positive number: non-empty, all digits, and worth
    the number. *)
Lemma pos_digits (p : positive) :
  let s := NilEmpty.string_of_uint (Pos.to_uint p) in
  Js.all_digits s = true
  /\ (exists c r, s = String c r /\ Js.is_digit c = true)
  /\ Js.digits_value s = Some (Zpos p)
  /\ NilZero.string_of_uint (Pos.to_uint p) = s.
Proof.
  intros s. subst s.
  pose proof (string_of_uint_all_digits (Pos.to_uint p)) as Hall.
  pose proof (Unsigned.to_uint_nonnil p) as Hnn.
  repeat split.
  - exact Hall.
  - destruct (Pos.to_uint p) eqn:E; [congruence| ..];
      simpl; eexists; eexists; split; reflexivity.
  - unfold Js.digits_value. rewrite NilEmpty.usu. simpl.
    unfold Z.of_uint. now rewrite Unsigned.of_to.
  - destruct (Pos.to_uint p); [congruence| ..]; reflexivity.
Qed.

Lemma dec_prefix_value_pos (p : positive) :
  Js.dec_prefix_value (NilEmpty.string_of_uint (Pos.to_uint p)) = Some (Zpos p).
Proof.
  destruct (pos_digits p) as (Hall & (c & r & Hs & Hc) & Hv & _).
  unfold Js.dec_prefix_value. rewrite (digits_prefix_all _ Hall).
  rewrite Hs in *. exact Hv.
Qed.

Lemma parseInt_digits (s : string) (c : ascii) (r : string) :
  s = String c r -> Js.is_digit c = true -> Js.all_digits s = true ->
  Js.parseInt s =
  match Js.dec_prefix_value s with Some m => Js.Num m | None => Js.NaN end.
Proof.
  intros -> Hc Hall. unfold Js.parseInt.
  rewrite (strip_ws_digit_first _ _ Hc), (split_sign_digit_first _ _ Hc).
  rewrite (after_hex_prefix_all_digits _ Hall). reflexivity.
Qed.

Lemma Z_to_string_pos (p : positive) :
  Js.Z_to_string (Zpos p) = NilEmpty.string_of_uint (Pos.to_uint p).
Proof.
  destruct (pos_digits p) as (_ & _ & _ & Hz). exact Hz.
Qed.

Lemma Z_to_string_neg (p : positive) :
  Js.Z_to_string (Zneg p) = String "-" (NilEmpty.string_of_uint (Pos.to_uint p)).
Proof.
  destruct (pos_digits p) as (_ & _ & _ & Hz).
  unfold Js.Z_to_string. simpl. f_equal. exact Hz.
Qed.

Lemma parseInt_Z_to_string (z : Z) : Js.parseInt (Js.Z_to_string z) = Js.Num z.
Proof.
  destruct z as [|p|p]; [reflexivity| |].
  - rewrite Z_to_string_pos.
    destruct (pos_digits p) as (Hall & (c & r & Hs & Hc) & _ & _).
    rewrite (parseInt_digits _ c r Hs Hc Hall).
    now rewrite dec_prefix_value_pos.
  - rewrite Z_to_string_neg.
    destruct (pos_digits p) as (Hall & _ & _ & _).
    unfold Js.parseInt.
    replace (Js.strip_ws (String "-" (NilEmpty.string_of_uint (Pos.to_uint p))))
      with (String "-" (NilEmpty.string_of_uint (Pos.to_uint p)))
      by reflexivity.
    replace (Js.split_sign (String "-" (NilEmpty.string_of_uint (Pos.to_uint p))))
      with (true, NilEmpty.string_of_uint (Pos.to_uint p)) by reflexivity.
    rewrite (after_hex_prefix_all_digits _ Hall), dec_prefix_value_pos.
    reflexivity.
Qed.

Lemma signed_digits_Z_to_string (z : Z) :
  Js.signed_digits (Js.Z_to_string z) = Some z.
Proof.
  destruct z as [|p|p]; [reflexivity| |].
  - rewrite Z_to_string_pos.
    destruct (pos_digits p) as (Hall & (c & r & Hs & Hc) & Hv & _).
    unfold Js.signed_digits. rewrite Hs in *.
    rewrite (split_sign_digit_first _ _ Hc), (digits_prefix_all _ Hall), Hv.
    reflexivity.
  - rewrite Z_to_string_neg.
    destruct (pos_digits p) as (Hall & (c & r & Hs & Hc) & Hv & _).
    unfold Js.signed_digits.
    replace (Js.split_sign (String "-" (NilEmpty.string_of_uint (Pos.to_uint p))))
      with (true, NilEmpty.string_of_uint (Pos.to_uint p)) by reflexivity.
    rewrite Hs in *. rewrite (digits_prefix_all _ Hall), Hv. reflexivity.
Qed.

Lemma trim_Z_to_string (z : Z) : Js.trim (Js.Z_to_string z) = Js.Z_to_string z.
Proof.
  destruct z as [|p|p]; [reflexivity| |].
  - rewrite Z_to_string_pos.
    destruct (pos_digits p) as (Hall & (c & r & Hs & Hc) & _ & _).
    unfold Js.trim. rewrite Hs in *.
    rewrite (strip_ws_digit_first _ _ Hc). now apply rstrip_ws_all_digits.
  - rewrite Z_to_string_neg.
    destruct (pos_digits p) as (Hall & (c & r & Hs & Hc) & _ & _).
    unfold Js.trim.
    replace (Js.strip_ws (String "-" (NilEmpty.string_of_uint (Pos.to_uint p))))
      with (String "-" (NilEmpty.string_of_uint (Pos.to_uint p)))
      by reflexivity.
    cbn [Js.rstrip_ws]. rewrite (rstrip_ws_all_digits _ Hall).
    rewrite Hs. reflexivity.
Qed.

Lemma Z_to_string_nonempty (z : Z) : Js.Z_to_string z <> EmptyString.
Proof.
  destruct z as [|p|p]; [discriminate| |].
  - rewrite Z_to_string_pos.
    destruct (pos_digits p) as (_ & (c & r & Hs & _) & _ & _).
    rewrite Hs. discriminate.
  - rewrite Z_to_string_neg. discriminate.
Qed.

(** The store reads back the integer a number was sent as. *)
Lemma int_col_Num (z : Z) : Pg.int_col (Js.Num z) = Some z.
Proof.
  unfold Pg.int_col, Pg.param, Pg.int_in. simpl Js.to_string.
  now rewrite trim_Z_to_string, signed_digits_Z_to_string.
Qed.

(** ... and the integer a [bigint] string stands for. *)
Lemma int_col_bigint (z : Z) : Pg.int_col (Pg.bigint_out z) = Some z.
Proof.
  unfold Pg.int_col, Pg.param, Pg.int_in, Pg.bigint_out. simpl Js.to_string.
  now rewrite trim_Z_to_string, signed_digits_Z_to_string.
Qed.

Lemma parseInt_v_bigint (z : Z) : Js.parseInt_v (Pg.bigint_out z) = Js.Num z.
Proof. unfold Js.parseInt_v, Pg.bigint_out. simpl. apply parseInt_Z_to_string. Qed.

Lemma to_number_bigint (z : Z) : Js.to_number (Pg.bigint_out z) = Js.Num z.
Proof.
  unfold Pg.bigint_out, Js.to_number. rewrite trim_Z_to_string.
  pose proof (Z_to_string_nonempty z) as Hne.
  destruct (Js.Z_to_string z) eqn:E; [congruence|].
  rewrite <- E. now rewrite signed_digits_Z_to_string.
Qed.

Lemma text_col_Str (s : string) : Pg.text_col (Js.Str s) = Some s.
Proof. reflexivity. Qed.

(** ** The write statements on a table *)

Section TableFacts.
Context {Row Key : Type}.
Variable key : Row -> Key.
Variable key_eqb : Key -> Key -> bool.
Hypothesis key_eqb_eq : forall a b, key_eqb a b = true <-> a = b.

(** [set old new] is [DO UPDATE SET ...]: it keeps the key of the row
    it updates. *)
Variable set : Row -> Row -> Row.
Hypothesis set_key : forall old new, key (set old new) = key old.

Local Abbreviation has := (Table.has_key key key_eqb).
Local Abbreviation upsert := (Table.insert_do_update key key_eqb set).

Lemma has_key_true (k : Key) (r : Row) : has k r = true <-> key r = k.
Proof. apply key_eqb_eq. Qed.

Lemma has_key_false (k : Key) (r : Row) : has k r = false <-> key r <> k.
Proof.
  split.
  - intros H E. apply has_key_true in E. congruence.
  - intros H. destruct (has k r) eqn:E; [|reflexivity].
    apply has_key_true in E. contradiction.
Qed.

Lemma has_key_set (k : Key) (old new : Row) : has k (set old new) = has k old.
Proof. unfold Table.has_key. now rewrite set_key. Qed.

Lemma conflicts_filter (k : Key) (tbl : list Row) :
  Table.conflicts key key_eqb k tbl = true <-> filter (has k) tbl <> [].
Proof.
  unfold Table.conflicts. induction tbl as [|r tbl IH]; simpl.
  - split; [discriminate | congruence].
  - destruct (has k r); simpl.
    + split; [discriminate | reflexivity].
    + exact IH.
Qed.

Lemma no_conflict_filter (k : Key) (tbl : list Row) :
  Table.conflicts key key_eqb k tbl = false <-> filter (has k) tbl = [].
Proof.
  pose proof (conflicts_filter k tbl) as H.
  destruct (Table.conflicts key key_eqb k tbl); split; intros E.
  - discriminate.
  - destruct H as [H _]. specialize (H eq_refl). congruence.
  - destruct (filter (has k) tbl) eqn:F; [reflexivity|].
    destruct H as [_ H]. assert (true = false) by (symmetry; apply H; discriminate).
    discriminate.
  - reflexivity.
Qed.

Lemma map_update_keys (new : Row) (tbl : list Row) :
  map key (map (fun r => if has (key new) r then set r new else r) tbl)
  = map key tbl.
Proof.
  induction tbl as [|r tbl IH]; simpl; [reflexivity|].
  rewrite IH. destruct (has (key new) r); [now rewrite set_key | reflexivity].
Qed.

(** An upsert leaves the keys as they are, or adds the new key at the
    end when it was not there. *)
Lemma upsert_keys (new : Row) (tbl : list Row) :
  map key (upsert new tbl) =
  if Table.conflicts key key_eqb (key new) tbl
  then map key tbl else map key tbl ++ [key new].
Proof.
  unfold Table.insert_do_update.
  destruct (Table.conflicts key key_eqb (key new) tbl).
  - apply map_update_keys.
  - now rewrite map_app.
Qed.

Lemma conflicts_in_keys (k : Key) (tbl : list Row) :
  Table.conflicts key key_eqb k tbl = true <-> In k (map key tbl).
Proof.
  unfold Table.conflicts. rewrite existsb_exists, in_map_iff.
  split; intros [r [H1 H2]]; exists r.
  - split; [now apply has_key_true | exact H1].
  - split; [exact H2 | now apply has_key_true].
Qed.

Lemma upsert_NoDup (new : Row) (tbl : list Row) :
  NoDup (map key tbl) -> NoDup (map key (upsert new tbl)).
Proof.
  intros H. rewrite upsert_keys.
  destruct (Table.conflicts key key_eqb (key new) tbl) eqn:E; [exact H|].
  apply NoDup_app; [exact H | repeat constructor; intros [] | ].
  intros x Hx [<-|[]].
  apply conflicts_in_keys in Hx. congruence.
Qed.

(** The rows under the key of the new row, after the upsert. *)
Lemma upsert_same_key (new : Row) (tbl : list Row) :
  filter (has (key new)) (upsert new tbl) =
  match filter (has (key new)) tbl with
  | [] => [new]
  | rows => map (fun r => set r new) rows
  end.
Proof.
  unfold Table.insert_do_update.
  destruct (Table.conflicts key key_eqb (key new) tbl) eqn:E.
  - apply conflicts_filter in E.
    assert (G : filter (has (key new))
                  (map (fun r => if has (key new) r then set r new else r) tbl)
                = map (fun r => set r new) (filter (has (key new)) tbl)).
    { clear E. induction tbl as [|r tbl IH]; simpl; [reflexivity|].
      destruct (has (key new) r) eqn:F.
      - rewrite has_key_set, F. simpl. now rewrite IH.
      - rewrite F. exact IH. }
    rewrite G. destruct (filter (has (key new)) tbl); [congruence|reflexivity].
  - apply no_conflict_filter in E. rewrite filter_app, E. simpl.
    assert (F : has (key new) new = true) by now apply has_key_true.
    now rewrite F.
Qed.

(** The rows under any other key are untouched. *)
Lemma upsert_other_key (k : Key) (new : Row) (tbl : list Row) :
  key new <> k -> filter (has k) (upsert new tbl) = filter (has k) tbl.
Proof.
  intros Hne. unfold Table.insert_do_update.
  destruct (Table.conflicts key key_eqb (key new) tbl).
  - induction tbl as [|r tbl IH]; simpl; [reflexivity|].
    destruct (has (key new) r) eqn:F.
    + rewrite has_key_set.
      assert (G : has k r = false).
      { apply has_key_false. apply has_key_true in F. congruence. }
      rewrite G. exact IH.
    + destruct (has k r); rewrite IH; reflexivity.
  - rewrite filter_app. simpl.
    assert (F : has k new = false) by now apply has_key_false.
    rewrite F. apply app_nil_r.
Qed.

(** Sending the same row twice is sending it once. *)
Lemma upsert_idempotent (new : Row) (tbl : list Row) :
  (forall old, set (set old new) new = set old new) ->
  set new new = new ->
  upsert new (upsert new tbl) = upsert new tbl.
Proof.
  intros Hidem Hself.
  unfold Table.insert_do_update at 1.
  assert (C : Table.conflicts key key_eqb (key new) (upsert new tbl) = true).
  { apply conflicts_in_keys. rewrite upsert_keys.
    destruct (Table.conflicts key key_eqb (key new) tbl) eqn:E.
    - now apply conflicts_in_keys.
    - apply in_or_app. right. now left. }
  rewrite C. unfold Table.insert_do_update.
  destruct (Table.conflicts key key_eqb (key new) tbl) eqn:E.
  - rewrite map_map. apply map_ext. intros r. fold has.
    destruct (has (key new) r) eqn:F.
    + now rewrite has_key_set, F, Hidem.
    + now rewrite F.
  - rewrite map_app. simpl.
    assert (F : has (key new) new = true) by now apply has_key_true.
    rewrite F, Hself. f_equal.
    apply no_conflict_filter in E.
    clear C. induction tbl as [|r tbl IH]; simpl; [reflexivity|].
    simpl in E. destruct (has (key new) r) eqn:G; [discriminate|].
    now rewrite (IH E).
Qed.

Lemma do_nothing_idempotent (new : Row) (tbl : list Row) :
  Table.insert_do_nothing key key_eqb new
    (Table.insert_do_nothing key key_eqb new tbl)
  = Table.insert_do_nothing key key_eqb new tbl.
Proof.
  unfold Table.insert_do_nothing.
  destruct (Table.conflicts key key_eqb (key new) tbl) eqn:E.
  - now rewrite E.
  - assert (C : Table.conflicts key key_eqb (key new) (tbl ++ [new]) = true).
    { apply conflicts_in_keys. rewrite map_app. apply in_or_app. right. now left. }
    now rewrite C.
Qed.

Lemma count_key_zero (k : Key) (tbl : list Row) :
  Table.count_key key key_eqb k tbl = 0%Z <-> ~ In k (map key tbl).
Proof.
  unfold Table.count_key. fold has.
  rewrite <- conflicts_in_keys.
  split.
  - intros H C. apply conflicts_filter in C.
    destruct (filter (has k) tbl); [congruence | simpl in H; lia].
  - intros H. destruct (Table.conflicts key key_eqb k tbl) eqn:E; [congruence|].
    apply no_conflict_filter in E. now rewrite E.
Qed.

(** Any number of selected rows: the rows under a key that was not
    selected are untouched. *)
Lemma upsert_all_other_key (k : Key) (sel tbl : list Row) :
  ~ In k (map key sel) ->
  filter (has k) (Table.upsert_all key key_eqb set sel tbl)
  = filter (has k) tbl.
Proof.
  revert tbl. induction sel as [|x rest IH]; intros tbl H; simpl; [reflexivity|].
  simpl in H. rewrite IH by tauto.
  apply upsert_other_key. tauto.
Qed.

(** ... and the rows under a selected key are those its own upsert
    leaves, when no two selected rows share a key. *)
Lemma upsert_all_same_key (a : Row) (sel tbl : list Row) :
  NoDup (map key sel) -> In a sel ->
  filter (has (key a)) (Table.upsert_all key key_eqb set sel tbl)
  = match filter (has (key a)) tbl with
    | [] => [a]
    | rows => map (fun r => set r a) rows
    end.
Proof.
  revert tbl. induction sel as [|x rest IH]; intros tbl Hnd Hin; [destruct Hin|].
  simpl in Hnd. inversion Hnd as [|k ks Hnotin Hnd' Heq]; subst.
  simpl. destruct Hin as [->|Hin].
  - rewrite upsert_all_other_key by exact Hnotin.
    apply upsert_same_key.
  - rewrite (IH _ Hnd' Hin).
    assert (Hne : key x <> key a).
    { intros E. apply Hnotin. rewrite E. now apply in_map. }
    now rewrite (upsert_other_key (key a) x tbl Hne).
Qed.

Lemma upsert_all_NoDup (sel tbl : list Row) :
  NoDup (map key tbl) ->
  NoDup (map key (Table.upsert_all key key_eqb set sel tbl)).
Proof.
  revert tbl. induction sel as [|x rest IH]; intros tbl H; simpl; [exact H|].
  apply IH. now apply upsert_NoDup.
Qed.
End TableFacts.

(** ** Replaying a sequence of upserts *)

Section Replay.
Context {Row Key : Type}.
Variable key : Row -> Key.
Variable key_eqb : Key -> Key -> bool.
Hypothesis key_eqb_eq : forall a b, key_eqb a b = true <-> a = b.
Variable set : Row -> Row -> Row.
Hypothesis set_key : forall old new, key (set old new) = key old.
(** The columns a statement sets are overwritten, not accumulated. *)
Hypothesis set_set : forall x a b, set (set x a) b = set x b.
Hypothesis set_self : forall a, set a a = a.

Local Abbreviation has := (Table.has_key key key_eqb).
Local Abbreviation upsert := (Table.insert_do_update key key_eqb set).
Local Abbreviation upsert_all := (Table.upsert_all key key_eqb set).
Local Abbreviation touch := (Table.touch key key_eqb set).
Local Abbreviation touch_all := (Table.touch_all key key_eqb set).
Local Abbreviation last_with := (Table.last_with key key_eqb).

Lemma touch_key (new r : Row) : key (touch new r) = key r.
Proof.
  unfold Table.touch. destruct (has (key new) r); [apply set_key | reflexivity].
Qed.

Lemma last_with_key (k : Key) (sel : list Row) (a : Row) :
  last_with k sel = Some a -> In a sel /\ key a = k.
Proof.
  induction sel as [|x rest IH]; simpl; [discriminate|].
  destruct (last_with k rest) as [b|].
  - intros [= <-]. destruct (IH eq_refl). split; [now right | assumption].
  - destruct (has k x) eqn:E; [|discriminate].
    intros [= <-]. split; [now left | now apply key_eqb_eq].
Qed.

Lemma last_with_none (k : Key) (sel : list Row) :
  last_with k sel = None -> ~ In k (map key sel).
Proof.
  induction sel as [|x rest IH]; simpl; [tauto|].
  destruct (last_with k rest); [discriminate|].
  destruct (has k x) eqn:E; [discriminate|].
  intros _ [H|H]; [|now apply IH].
  apply key_eqb_eq in H. unfold Table.has_key in E. congruence.
Qed.

Lemma touch_all_last (sel : list Row) (r : Row) :
  touch_all sel r =
  match last_with (key r) sel with
  | Some a => set r a
  | None => r
  end.
Proof.
  revert r. induction sel as [|x rest IH]; intros r; simpl; [reflexivity|].
  unfold Table.touch_all in *. simpl. rewrite IH, touch_key.
  destruct (last_with (key r) rest) as [a|].
  - unfold Table.touch. destruct (has (key x) r); [apply set_set | reflexivity].
  - unfold Table.touch, Table.has_key.
    destruct (key_eqb (key r) (key x)) eqn:E.
    + apply key_eqb_eq in E.
      assert (F : key_eqb (key x) (key r) = true) by now apply key_eqb_eq.
      now rewrite F.
    + destruct (key_eqb (key x) (key r)) eqn:F; [|reflexivity].
      apply key_eqb_eq in F. symmetry in F. apply key_eqb_eq in F. congruence.
Qed.

Lemma upsert_keeps_keys (k : Key) (new : Row) (tbl : list Row) :
  In k (map key tbl) -> In k (map key (upsert new tbl)).
Proof.
  intros H. rewrite (upsert_keys key key_eqb set set_key).
  destruct (Table.conflicts key key_eqb (key new) tbl); [exact H|].
  apply in_or_app. now left.
Qed.

Lemma upsert_has_key (new : Row) (tbl : list Row) :
  In (key new) (map key (upsert new tbl)).
Proof.
  rewrite (upsert_keys key key_eqb set set_key).
  destruct (Table.conflicts key key_eqb (key new) tbl) eqn:E.
  - now apply (conflicts_in_keys key key_eqb key_eqb_eq).
  - apply in_or_app. right. now left.
Qed.

Lemma upsert_all_keeps_keys (k : Key) (sel tbl : list Row) :
  In k (map key tbl) -> In k (map key (upsert_all sel tbl)).
Proof.
  revert tbl. induction sel as [|x rest IH]; intros tbl H; simpl; [exact H|].
  apply IH. now apply upsert_keeps_keys.
Qed.

Lemma upsert_all_has_keys (sel tbl : list Row) (a : Row) :
  In a sel -> In (key a) (map key (upsert_all sel tbl)).
Proof.
  revert tbl. induction sel as [|x rest IH]; intros tbl H; [destruct H|].
  simpl. destruct H as [->|H].
  - apply upsert_all_keeps_keys, upsert_has_key.
  - now apply IH.
Qed.

(** On a table that holds every selected key, the sequence only
    touches rows. *)
Lemma upsert_all_touch (sel tbl : list Row) :
  (forall a, In a sel -> In (key a) (map key tbl)) ->
  upsert_all sel tbl = map (touch_all sel) tbl.
Proof.
  revert tbl. induction sel as [|x rest IH]; intros tbl H.
  - symmetry. apply map_id.
  - assert (C : Table.conflicts key key_eqb (key x) tbl = true).
    { apply (conflicts_in_keys key key_eqb key_eqb_eq). apply H. now left. }
    assert (U : upsert x tbl = map (touch x) tbl).
    { unfold Table.insert_do_update. now rewrite C. }
    change (upsert_all (x :: rest) tbl) with (upsert_all rest (upsert x tbl)).
    rewrite U, IH.
    + rewrite map_map. reflexivity.
    + intros a Ha. rewrite map_map.
      rewrite (map_ext (fun r => key (touch x r)) key (touch_key x)).
      apply H. now right.
Qed.

(** Every row the sequence leaves carries the columns of the last
    selected row with its key. *)
Lemma upsert_all_settled (sel tbl : list Row) (r a : Row) :
  In r (upsert_all sel tbl) -> last_with (key r) sel = Some a ->
  exists y, r = set y a.
Proof.
  revert tbl. induction sel as [|x rest IH]; intros tbl Hin Hl; [discriminate|].
  simpl in Hin, Hl.
  destruct (last_with (key r) rest) as [b|] eqn:E.
  - inversion Hl; subst. now apply (IH _ Hin).
  - destruct (has (key r) x) eqn:F; [|discriminate].
    inversion Hl; subst. apply key_eqb_eq in F.
    apply last_with_none in E.
    assert (G : In r (filter (has (key r)) (upsert_all rest (upsert a tbl)))).
    { apply filter_In. split; [exact Hin | now apply key_eqb_eq]. }
    rewrite (upsert_all_other_key key key_eqb key_eqb_eq set set_key) in G
      by exact E.
    rewrite <- F in G.
    rewrite (upsert_same_key key key_eqb key_eqb_eq set set_key) in G.
    destruct (filter (has (key a)) tbl) as [|r0 rows].
    + destruct G as [<-|[]]. exists a. now rewrite set_self.
    + apply in_map_iff in G. destruct G as [y [Hy _]]. now exists y.
Qed.

(** Running the sequence again leaves the table as the first run
    left it. *)
Theorem upsert_all_replay (sel tbl : list Row) :
  upsert_all sel (upsert_all sel tbl) = upsert_all sel tbl.
Proof.
  rewrite upsert_all_touch by (intros a Ha; now apply upsert_all_has_keys).
  rewrite <- (map_id (upsert_all sel tbl)) at 2.
  apply map_ext_in. intros r Hr. rewrite touch_all_last.
  destruct (last_with (key r) sel) as [a|] eqn:E; [|reflexivity].
  destruct (upsert_all_settled _ _ _ _ Hr E) as [y ->].
  apply set_set.
Qed.
End Replay.

(** ** Calls and loops of calls on one table of the store *)

Section OneTable.
Context {A Row Key : Type}.
Variable get : Db -> list Row.
Variable put : list Row -> Db -> Db.
Hypothesis get_put : forall x d, get (put x d) = x.
Hypothesis put_put : forall x y d, put x (put y d) = put x d.
Hypothesis put_get : forall d, put (get d) d = d.

Variable key : Row -> Key.
Variable key_eqb : Key -> Key -> bool.
Hypothesis key_eqb_eq : forall a b, key_eqb a b = true <-> a = b.
Variable set : Row -> Row -> Row.
Hypothesis set_key : forall old new, key (set old new) = key old.
Hypothesis set_set : forall x a b, set (set x a) b = set x b.
Hypothesis set_self : forall a, set a a = a.

Variable bound : A -> option Row.

Local Abbreviation call :=
  (statement_on get put bound (Table.insert_do_update key key_eqb set)).

Lemma call_eq (x : A) (d : Db) :
  call x d =
  match bound x with
  | Some r => (put (Table.insert_do_update key key_eqb set r (get d)) d, None)
  | None => (d, Some Pg.refused)
  end.
Proof.
  unfold statement_on, statement. destruct (bound x); [reflexivity|].
  now rewrite put_get.
Qed.

Lemma call_fst (x : A) (d : Db) :
  fst (call x d) =
  match bound x with
  | Some r => put (Table.insert_do_update key key_eqb set r (get d)) d
  | None => d
  end.
Proof. rewrite call_eq. now destruct (bound x). Qed.

Lemma call_twice (x : A) (d : Db) :
  fst (call x (fst (call x d))) = fst (call x d).
Proof.
  rewrite !call_fst. destruct (bound x) as [r|]; [|reflexivity].
  rewrite get_put, put_put.
  now rewrite (upsert_idempotent key key_eqb key_eqb_eq set set_key r (get d)
                 (fun old => set_set old r r) (set_self r)).
Qed.

Lemma loop_fst (xs : list A) (d : Db) :
  fst (for_each call xs d) =
  put (Table.upsert_all key key_eqb set (bound_prefix bound xs) (get d)) d.
Proof.
  revert d. induction xs as [|x rest IH]; intros d; simpl.
  - symmetry. apply put_get.
  - rewrite call_eq. destruct (bound x) as [r|]; simpl.
    + rewrite IH. now rewrite get_put, put_put.
    + symmetry. apply put_get.
Qed.

Lemma loop_snd (xs : list A) (d : Db) :
  List.length (bound_prefix bound xs) = List.length xs ->
  snd (for_each call xs d) = None.
Proof.
  revert d. induction xs as [|x rest IH]; intros d H; simpl; [reflexivity|].
  rewrite call_eq. simpl in H. destruct (bound x) as [r|]; [|discriminate].
  apply IH. simpl in H. congruence.
Qed.

Lemma loop_twice (xs : list A) (d : Db) :
  fst (for_each call xs (fst (for_each call xs d))) = fst (for_each call xs d).
Proof.
  rewrite !loop_fst. rewrite get_put, put_put.
  now rewrite (upsert_all_replay key key_eqb key_eqb_eq set set_key
                 set_set set_self).
Qed.
End OneTable.

Lemma repeat_call_once (call : Db -> Outcome) :
  (forall d, fst (call (fst (call d))) = fst (call d)) ->
  forall (n : nat) (d : Db), (1 <= n)%nat -> repeat_call n call d = fst (call d).
Proof.
  intros Hidem n d Hn. unfold repeat_call.
  induction n as [|n IH]; [lia|].
  destruct n as [|n]; [reflexivity|].
  change (Nat.iter (S (S n)) (fun d' => fst (call d')) d)
    with (fst (call (Nat.iter (S n) (fun d' => fst (call d')) d))).
  rewrite IH by lia. apply Hidem.
Qed.

(** ** The keys and the [SET] lists of the services' statements *)

Lemma pair_eqb_eq (a b : Z * Z) : pair_eqb a b = true <-> a = b.
Proof.
  destruct a as [a1 a2], b as [b1 b2]. unfold pair_eqb. simpl.
  rewrite andb_true_iff, !Z.eqb_eq. split; [intros [-> ->]; reflexivity|].
  intros [= -> ->]. split; reflexivity.
Qed.

Lemma pss_key_eqb_eq (a b : Z * string * Z) : pss_key_eqb a b = true <-> a = b.
Proof.
  destruct a as [[a1 a2] a3], b as [[b1 b2] b3]. unfold pss_key_eqb.
  rewrite !andb_true_iff, !Z.eqb_eq, String.eqb_eq.
  split; [intros [[-> ->] ->]; reflexivity|].
  intros [= -> -> ->]. repeat split.
Qed.

Lemma tss_key_eqb_eq (a b : Z * string) : tss_key_eqb a b = true <-> a = b.
Proof.
  destruct a as [a1 a2], b as [b1 b2]. unfold tss_key_eqb. simpl.
  rewrite andb_true_iff, Z.eqb_eq, String.eqb_eq.
  split; [intros [-> ->]; reflexivity|]. intros [= -> ->]. split; reflexivity.
Qed.

Lemma teams_lens :
  (forall x d, teams (set_teams x d) = x)
  /\ (forall x y d, set_teams x (set_teams y d) = set_teams x d)
  /\ (forall d, set_teams (teams d) d = d).
Proof. repeat split; intros; try reflexivity. now destruct d. Qed.

Lemma players_lens :
  (forall x d, players (set_players x d) = x)
  /\ (forall x y d, set_players x (set_players y d) = set_players x d)
  /\ (forall d, set_players (players d) d = d).
Proof. repeat split; intros; try reflexivity. now destruct d. Qed.

Lemma games_lens :
  (forall x d, games (set_games x d) = x)
  /\ (forall x y d, set_games x (set_games y d) = set_games x d)
  /\ (forall d, set_games (games d) d = d).
Proof. repeat split; intros; try reflexivity. now destruct d. Qed.

Lemma player_game_stats_lens :
  (forall x d, player_game_stats (set_player_game_stats x d) = x)
  /\ (forall x y d,
        set_player_game_stats x (set_player_game_stats y d)
        = set_player_game_stats x d)
  /\ (forall d, set_player_game_stats (player_game_stats d) d = d).
Proof. repeat split; intros; try reflexivity. now destruct d. Qed.

Lemma team_game_stats_lens :
  (forall x d, team_game_stats (set_team_game_stats x d) = x)
  /\ (forall x y d,
        set_team_game_stats x (set_team_game_stats y d)
        = set_team_game_stats x d)
  /\ (forall d, set_team_game_stats (team_game_stats d) d = d).
Proof. repeat split; intros; try reflexivity. now destruct d. Qed.

(** Each [SET] list keeps the key, overwrites, and changes nothing when
    a row is merged with itself. *)
Ltac set_laws :=
  split; [|split]; [intros [] [] | intros [] [] [] | intros []]; reflexivity.

Lemma insertTeam_set_laws :
  (forall old new, t_id (Complete.insertTeam_set old new) = t_id old)
  /\ (forall x a b, Complete.insertTeam_set (Complete.insertTeam_set x a) b
                    = Complete.insertTeam_set x b)
  /\ (forall a, Complete.insertTeam_set a a = a).
Proof. set_laws. Qed.

Lemma fallback_set_laws :
  (forall old new, t_id (Complete.fallback_set old new) = t_id old)
  /\ (forall x a b, Complete.fallback_set (Complete.fallback_set x a) b
                    = Complete.fallback_set x b)
  /\ (forall a, Complete.fallback_set a a = a).
Proof. set_laws. Qed.

Lemma insertPlayer_set_laws :
  (forall old new, p_id (Complete.insertPlayer_set old new) = p_id old)
  /\ (forall x a b, Complete.insertPlayer_set (Complete.insertPlayer_set x a) b
                    = Complete.insertPlayer_set x b)
  /\ (forall a, Complete.insertPlayer_set a a = a).
Proof. set_laws. Qed.

Lemma insertGame_set_laws :
  (forall old new, g_id (Complete.insertGame_set old new) = g_id old)
  /\ (forall x a b, Complete.insertGame_set (Complete.insertGame_set x a) b
                    = Complete.insertGame_set x b)
  /\ (forall a, Complete.insertGame_set a a = a).
Proof. set_laws. Qed.

Lemma insertPlayerGameStats_set_laws :
  (forall old new,
     pgs_key (DataBackfill.insertPlayerGameStats_set old new) = pgs_key old)
  /\ (forall x a b,
        DataBackfill.insertPlayerGameStats_set
          (DataBackfill.insertPlayerGameStats_set x a) b
        = DataBackfill.insertPlayerGameStats_set x b)
  /\ (forall a, DataBackfill.insertPlayerGameStats_set a a = a).
Proof. set_laws. Qed.

Section CheckThenInsert.
Context {A Row : Type}.
Variable get : Db -> list Row.
Variable put : list Row -> Db -> Db.
Hypothesis get_put : forall x d, get (put x d) = x.
Hypothesis put_put : forall x y d, put x (put y d) = put x d.
Hypothesis put_get : forall d, put (get d) d = d.
Variable key : Row -> Z * Z.

Lemma guard_absent (k : Z * Z) (d : Db) :
  Js.strict_eq
    (Js.parseInt_v (Pg.bigint_out (Table.count_key key pair_eqb k (get d))))
    (Js.Num 0) = true
  <-> ~ In k (map key (get d)).
Proof.
  rewrite parseInt_v_bigint. simpl. rewrite Z.eqb_eq.
  apply (count_key_zero key pair_eqb pair_eqb_eq).
Qed.

Lemma insert_if_absent_eq (k : Z * Z) (bound : option Row) (d : Db) :
  insert_if_absent get put key k bound d =
  if in_dec ZZ_eq_dec k (map key (get d)) then (d, None)
  else match bound with
       | Some r => (put (get d ++ [r]) d, None)
       | None => (d, Some Pg.refused)
       end.
Proof.
  unfold insert_if_absent.
  pose proof (guard_absent k d) as G.
  destruct (Js.strict_eq _ _); destruct (in_dec ZZ_eq_dec k (map key (get d))) as [I|I].
  - exfalso. now apply G.
  - unfold statement, Table.insert. destruct bound; [reflexivity|].
    now rewrite put_get.
  - reflexivity.
  - assert (false = true) by now apply G. discriminate.
Qed.

(** The calls of a loop: the key checked and the row sent, whose key
    is the one checked. *)
Variable k_of : A -> Z * Z.
Variable bound : A -> option Row.
Hypothesis bound_key : forall x r, bound x = Some r -> key r = k_of x.

Local Abbreviation call :=
  (fun x => insert_if_absent get put key (k_of x) (bound x)).

Lemma check_insert_keeps_keys (x : A) (d : Db) (k : Z * Z) :
  In k (map key (get d)) -> In k (map key (get (fst (call x d)))).
Proof.
  intros H. cbv beta. rewrite insert_if_absent_eq.
  destruct (in_dec ZZ_eq_dec (k_of x) (map key (get d))); [exact H|].
  destruct (bound x); simpl; [|exact H].
  rewrite get_put, map_app. apply in_or_app. now left.
Qed.

Lemma check_insert_present (x : A) (d : Db) :
  snd (call x d) = None -> In (k_of x) (map key (get (fst (call x d)))).
Proof.
  cbv beta. rewrite insert_if_absent_eq.
  destruct (in_dec ZZ_eq_dec (k_of x) (map key (get d))) as [I|I]; [intros _; exact I|].
  destruct (bound x) as [r|] eqn:B; simpl; [|discriminate].
  intros _. rewrite get_put, map_app. apply in_or_app. right.
  simpl. left. now apply bound_key.
Qed.

Lemma check_insert_twice (x : A) (d : Db) :
  fst (call x (fst (call x d))) = fst (call x d).
Proof.
  pose proof (check_insert_present x d) as P.
  cbv beta in *. rewrite (insert_if_absent_eq _ _ d) in *.
  destruct (in_dec ZZ_eq_dec (k_of x) (map key (get d))) as [I|I]; simpl in *.
  - rewrite insert_if_absent_eq.
    destruct (in_dec ZZ_eq_dec (k_of x) (map key (get d))); [reflexivity|contradiction].
  - destruct (bound x) as [r|] eqn:B; simpl in *.
    + specialize (P eq_refl). rewrite insert_if_absent_eq.
      destruct (in_dec ZZ_eq_dec (k_of x) (map key (get (put (get d ++ [r]) d))));
        [reflexivity|contradiction].
    + rewrite insert_if_absent_eq.
      destruct (in_dec ZZ_eq_dec (k_of x) (map key (get d))); [contradiction|reflexivity].
Qed.

Lemma check_loop_keeps_keys (xs : list A) (d : Db) (k : Z * Z) :
  In k (map key (get d)) -> In k (map key (get (fst (for_each call xs d)))).
Proof.
  revert d. induction xs as [|x rest IH]; intros d H; simpl; [exact H|].
  pose proof (check_insert_keeps_keys x d k H) as K. cbv beta in K.
  destruct (insert_if_absent get put key (k_of x) (bound x) d) as [d1 [e|]];
    simpl in *; [exact K|]. now apply IH.
Qed.

(** A second pass over the same calls finds every row in place. *)
Lemma check_loop_settled (xs : list A) (d : Db) :
  for_each call xs (fst (for_each call xs d))
  = (fst (for_each call xs d), snd (for_each call xs d)).
Proof.
  revert d. induction xs as [|x rest IH]; intros d; simpl; [reflexivity|].
  pose proof (check_insert_present x d) as P.
  pose proof (check_insert_twice x d) as T.
  cbv beta in P, T.
  destruct (insert_if_absent get put key (k_of x) (bound x) d) as [d1 [e|]] eqn:E;
    simpl in *.
  - (* the call threw: the store is as it was, and it throws again *)
    assert (D : d1 = d).
    { rewrite insert_if_absent_eq in E.
      destruct (in_dec ZZ_eq_dec (k_of x) (map key (get d))); [congruence|].
      destruct (bound x); congruence. }
    subst d1. now rewrite E.
  - specialize (P eq_refl).
    pose proof (check_loop_keeps_keys rest d1 _ P) as K.
    rewrite (insert_if_absent_eq _ _ (fst (for_each call rest d1))).
    destruct (in_dec ZZ_eq_dec (k_of x)
                (map key (get (fst (for_each call rest d1))))); [|contradiction].
    apply IH.
Qed.

Lemma check_loop_twice (xs : list A) (d : Db) :
  fst (for_each call xs (fst (for_each call xs d))) = fst (for_each call xs d).
Proof. now rewrite check_loop_settled. Qed.
End CheckThenInsert.

(** ** The rows the per-game statements send carry the ids passed in *)

Ltac destruct_cols :=
  repeat match goal with
    | |- context [match Pg.int_col ?v with _ => _ end] => destruct (Pg.int_col v)
    | |- context [match Pg.bool_col ?v with _ => _ end] => destruct (Pg.bool_col v)
    end.

Lemma bind_player_game_stat_key (g p t : Z) (stats : SkaterStats)
    (r : PlayerGameStatRow) :
  Complete.bind_player_game_stat
    (Complete.insertPlayerGameStat_values g p t stats) = Some r ->
  pgs_key r = (g, p).
Proof.
  unfold Complete.bind_player_game_stat, Complete.insertPlayerGameStat_values.
  cbn [map]. rewrite !int_col_Num. destruct_cols; try discriminate.
  now intros [= <-].
Qed.


Lemma bind_team_game_stat_key (g t : Z) (h : bool) (teamData : TeamBox)
    (r : TeamGameStatRow) :
  Complete.bind_team_game_stat
    (Complete.insertTeamGameStat_values g t h teamData) = Some r ->
  tgs_key r = (g, t).
Proof.
  unfold Complete.bind_team_game_stat, Complete.insertTeamGameStat_values.
  rewrite !int_col_Num. destruct_cols; try discriminate.
  now intros [= <-].
Qed.

(** ** C1: repeated identical upserts *)

(** C1.  Idempotence of the upserts.  For a team, a player, a game and a
    per-game statistics row (of a player, through either service, and of
    a team), making the same call [n >= 1] times with the same input
    leaves the store exactly as one call leaves it: the same rows with
    the same column values.  The same holds for a whole loop of such
    calls over the same upstream items (the standings of the teams
    stage, the players and the games of a season, the players of a box
    score): running it again changes nothing. *)
Theorem upsert_calls_idempotent (n : nat) (d : Db) :
  (1 <= n)%nat ->
  (forall standing,
     repeat_call n (Complete.insertTeam standing) d
     = fst (Complete.insertTeam standing d))
  /\ (forall player season,
        repeat_call n (Complete.insertPlayer player season) d
        = fst (Complete.insertPlayer player season d))
  /\ (forall game season,
        repeat_call n (Complete.insertGame game season) d
        = fst (Complete.insertGame game season d))
  /\ (forall g p t stats,
        repeat_call n (Complete.insertPlayerGameStat g p t stats) d
        = fst (Complete.insertPlayerGameStat g p t stats d))
  /\ (forall g p t stats,
        repeat_call n (DataBackfill.insertPlayerGameStats g p t stats) d
        = fst (DataBackfill.insertPlayerGameStats g p t stats d))
  /\ (forall g t isHome teamData,
        repeat_call n (Complete.insertTeamGameStat g t isHome teamData) d
        = fst (Complete.insertTeamGameStat g t isHome teamData d))
  /\ (forall standings,
        repeat_call n (for_each Complete.insertTeam standings) d
        = fst (for_each Complete.insertTeam standings d))
  /\ (forall season roster,
        repeat_call n
          (for_each (fun player => Complete.insertPlayer player season) roster) d
        = fst (for_each (fun player => Complete.insertPlayer player season)
                        roster d))
  /\ (forall season schedule,
        repeat_call n
          (for_each (fun game => Complete.insertGame game season) schedule) d
        = fst (for_each (fun game => Complete.insertGame game season)
                        schedule d))
  /\ (forall g lines,
        repeat_call n (Complete.processPlayerGameStats g lines) d
        = fst (Complete.processPlayerGameStats g lines d))
  /\ (forall g lines,
        repeat_call n (DataBackfill.processCompletePlayerGameStats g lines) d
        = fst (DataBackfill.processCompletePlayerGameStats g lines d)).
Proof.
  intros Hn.
  destruct teams_lens as (tl1 & tl2 & tl3).
  destruct players_lens as (pl1 & pl2 & pl3).
  destruct games_lens as (gl1 & gl2 & gl3).
  destruct player_game_stats_lens as (sl1 & sl2 & sl3).
  destruct team_game_stats_lens as (ul1 & ul2 & ul3).
  destruct insertTeam_set_laws as (ts1 & ts2 & ts3).
  destruct insertPlayer_set_laws as (ps1 & ps2 & ps3).
  destruct insertGame_set_laws as (gs1 & gs2 & gs3).
  destruct insertPlayerGameStats_set_laws as (ss1 & ss2 & ss3).
  repeat match goal with |- _ /\ _ => split end; intros;
    apply repeat_call_once; try exact Hn; intros d0.
  - apply (call_twice teams set_teams tl1 tl2 tl3 t_id Z.eqb Z.eqb_eq
             Complete.insertTeam_set ts1 ts2 ts3
             (fun st => Complete.bind_team (Complete.insertTeam_values st))).
  - apply (call_twice players set_players pl1 pl2 pl3 p_id Z.eqb Z.eqb_eq
             Complete.insertPlayer_set ps1 ps2 ps3
             (fun pl => Complete.bind_player (Complete.insertPlayer_values pl))).
  - apply (call_twice games set_games gl1 gl2 gl3 g_id Z.eqb Z.eqb_eq
             Complete.insertGame_set gs1 gs2 gs3
             (fun gm => Complete.bind_game (Complete.insertGame_values gm season))).
  - apply (check_insert_twice player_game_stats set_player_game_stats
             sl1 sl3 pgs_key
             (fun _ : unit => (g, p))
             (fun _ => Complete.bind_player_game_stat
                         (Complete.insertPlayerGameStat_values g p t stats))
             (fun _ r => bind_player_game_stat_key g p t stats r) tt).
  - apply (call_twice player_game_stats set_player_game_stats sl1 sl2 sl3
             pgs_key pair_eqb pair_eqb_eq
             DataBackfill.insertPlayerGameStats_set ss1 ss2 ss3
             (fun _ : unit => DataBackfill.bind_player_game_stats
                         (DataBackfill.insertPlayerGameStats_values g p t stats))
             tt).
  - apply (check_insert_twice team_game_stats set_team_game_stats
             ul1 ul3 tgs_key
             (fun _ : unit => (g, t))
             (fun _ => Complete.bind_team_game_stat
                         (Complete.insertTeamGameStat_values g t isHome teamData))
             (fun _ r => bind_team_game_stat_key g t isHome teamData r) tt).
  - apply (loop_twice teams set_teams tl1 tl2 tl3 t_id Z.eqb Z.eqb_eq
             Complete.insertTeam_set ts1 ts2 ts3
             (fun st => Complete.bind_team (Complete.insertTeam_values st))).
  - apply (loop_twice players set_players pl1 pl2 pl3 p_id Z.eqb Z.eqb_eq
             Complete.insertPlayer_set ps1 ps2 ps3
             (fun pl => Complete.bind_player (Complete.insertPlayer_values pl))).
  - apply (loop_twice games set_games gl1 gl2 gl3 g_id Z.eqb Z.eqb_eq
             Complete.insertGame_set gs1 gs2 gs3
             (fun gm => Complete.bind_game (Complete.insertGame_values gm season))).
  - apply (check_loop_twice player_game_stats set_player_game_stats
             sl1 sl3 pgs_key
             (fun line : Z * Z * SkaterStats => (g, fst (fst line)))
             (fun line => Complete.bind_player_game_stat
                            (Complete.insertPlayerGameStat_values
                               g (fst (fst line)) (snd (fst line)) (snd line)))
             (fun line r =>
                bind_player_game_stat_key g (fst (fst line)) (snd (fst line))
                                          (snd line) r)).
  - apply (loop_twice player_game_stats set_player_game_stats sl1 sl2 sl3
             pgs_key pair_eqb pair_eqb_eq
             DataBackfill.insertPlayerGameStats_set ss1 ss2 ss3
             (fun line : Z * Z * SkaterStats =>
                DataBackfill.bind_player_game_stats
                  (DataBackfill.insertPlayerGameStats_values
                     g (fst (fst line)) (snd (fst line)) (snd line)))).
Qed.

Lemma upsert_calls_idempotent_witness :
  repeat_call 3 (Complete.insertTeam capitals_standing) empty_db
  = fst (Complete.insertTeam capitals_standing empty_db).
Proof.
  apply (upsert_calls_idempotent 3 empty_db). lia.
Defined.

(** ** C3: one row per game and player *)







(** ** C8: what is sent for a malformed field *)

(** C8.  The claim does not hold of the code.  A time-on-ice string whose
    parts are not numbers makes [parseTimeToSeconds] return [NaN], which
    [Complete.insertPlayerGameStat] sends as it is for
    [time_on_ice_seconds]; the store refuses the statement, the row is
    not written, and neither are the rows of the players that follow in
    the same box score.  A count that is a non-numeric string passes
    [|| 0] unchanged, with the same outcome.  (The other service guards
    the power-play time with [parseTimeToSeconds(...) || 0], which does
    yield 0 on the same string.) *)
Theorem malformed_time_on_ice_is_NaN :
  let stats := skater 1 0 3 (Some "--:--") in
  Complete.parseTimeToSeconds (Some "--:--") = Js.NaN
  /\ nth_error (Complete.insertPlayerGameStat_values 2024020500 8471214 15 stats) 11
     = Some Js.NaN
  /\ Complete.insertPlayerGameStat 2024020500 8471214 15 stats empty_db
     = (empty_db, Some Pg.refused)
  /\ Complete.processPlayerGameStats 2024020500
       [ (8471214, 15, stats); (8476453, 15, skater 0 1 2 (Some "21:10")) ]
       empty_db
     = (empty_db, Some Pg.refused)
  /\ Js.or (DataBackfill.parseTimeToSeconds (Some "--:--")) (Js.Num 0) = Js.Num 0
  /\ Js.or (Js.Str "n/a") (Js.Num 0) = Js.Str "n/a"
  /\ Pg.int_col (Js.Str "n/a") = None.
Proof. vm_compute. repeat split. Qed.

(** ** C9: the test backfill on a fresh store *)


(** ** C5: the teams stage without live data *)

Section KeptColumns.
Context {Row Key V : Type}.
Variable key : Row -> Key.
Variable key_eqb : Key -> Key -> bool.
Variable set : Row -> Row -> Row.
Hypothesis set_key : forall old new, key (set old new) = key old.
(** A column that the [SET] list does not name. *)
Variable col : Row -> V.
Hypothesis set_col : forall old new, col (set old new) = col old.

Lemma upsert_keeps_column (new r : Row) (tbl : list Row) :
  In r tbl ->
  exists r', In r' (Table.insert_do_update key key_eqb set new tbl)
             /\ key r' = key r /\ col r' = col r.
Proof.
  intros H. unfold Table.insert_do_update.
  destruct (Table.conflicts key key_eqb (key new) tbl).
  - exists (if Table.has_key key key_eqb (key new) r then set r new else r).
    split.
    + apply in_map_iff. now exists r.
    + destruct (Table.has_key key key_eqb (key new) r); auto.
  - exists r. split; [apply in_or_app; now left | auto].
Qed.

Lemma upsert_all_keeps_column (sel tbl : list Row) (r : Row) :
  In r tbl ->
  exists r', In r' (Table.upsert_all key key_eqb set sel tbl)
             /\ key r' = key r /\ col r' = col r.
Proof.
  revert tbl r. induction sel as [|x rest IH]; intros tbl r H; simpl.
  - now exists r.
  - destruct (upsert_keeps_column x r tbl H) as (r1 & H1 & K1 & C1).
    destruct (IH _ _ H1) as (r2 & H2 & K2 & C2).
    exists r2. repeat split; congruence.
Qed.
End KeptColumns.

Lemma insertFallbackTeams_eq (d : Db) :
  Complete.insertFallbackTeams d
  = (set_teams (Table.upsert_all t_id Z.eqb Complete.fallback_set fallback_rows
                                 (teams d)) d,
     None).
Proof.
  destruct teams_lens as (l1 & l2 & l3).
  unfold Complete.insertFallbackTeams, fallback_rows.
  rewrite (surjective_pairing (for_each _ _ _)).
  change Complete.insertFallbackTeam with
    (statement_on teams set_teams
       (fun team => Complete.bind_team (Complete.fallback_values team))
       (Table.insert_do_update t_id Z.eqb Complete.fallback_set)).
  rewrite (loop_fst teams set_teams l1 l2 l3 t_id Z.eqb Complete.fallback_set).
  rewrite (loop_snd teams set_teams l3 t_id Z.eqb Complete.fallback_set).
  - reflexivity.
  - vm_compute. reflexivity.
Qed.

(** Without live data the stage comes down to the fallback upserts. *)
Lemma backfillAllTeams_fallback (fetch : Complete.StandingsFetch)
    (s : Complete.Service) :
  no_live_teams fetch = true ->
  fst (Complete.backfillAllTeams fetch s) = Run.Ok tt
  /\ teams (Complete.db (snd (Complete.backfillAllTeams fetch s)))
     = Table.upsert_all t_id Z.eqb Complete.fallback_set fallback_rows
                        (teams (Complete.db s)).
Proof.
  intros H.
  destruct fetch as [e|e|[standings|]]; try discriminate;
    unfold Complete.backfillAllTeams, Run.bind, Run.try_catch, Run.throw,
      Complete.updateProgress, Complete.push_completed, Run.modify,
      Complete.on_db;
    cbn [Complete.db Complete.with_progress];
    rewrite insertFallbackTeams_eq; split; reflexivity.
Qed.

(** C5 (as amended).  When the live request for the teams brings nothing
    (network error, empty body, no [standings] field), the teams stage
    completes and the Team table then holds a row for each of the 32
    fallback ids.  Rows that were there before are kept, a row under a
    fallback id with the abbreviation it had (the fallback only
    overwrites its name); on a table that was empty the stage leaves
    exactly the 32 fallback rows.  In these, each id is the one the
    service's own abbreviation table gives, and id 15 goes with WSH. *)
Theorem fallback_teams_without_live_data (fetch : Complete.StandingsFetch)
    (s : Complete.Service) :
  no_live_teams fetch = true ->
  let after := Complete.backfillAllTeams fetch s in
  let before := teams (Complete.db s) in
  let rows := teams (Complete.db (snd after)) in
  fst after = Run.Ok tt
  /\ incl (map Complete.ft_id Complete.fallback_teams) (map t_id rows)
  /\ (forall r, In r before ->
        exists r', In r' rows /\ t_id r' = t_id r
                   /\ t_abbreviation r' = t_abbreviation r)
  /\ (before = [] -> rows = fallback_rows)
  /\ List.length fallback_rows = 32%nat
  /\ NoDup (map t_id fallback_rows)
  /\ (forall r, In r fallback_rows ->
        exists a, t_abbreviation r = Some a
                  /\ Complete.getTeamIdFromAbbrev (Js.Str a) = Js.Num (t_id r))
  /\ filter (fun r => (t_id r =? 15)%Z) fallback_rows
     = [ {| t_id := 15; t_name := Some "Washington Capitals";
            t_abbreviation := Some "WSH"; t_city := Some "Washington";
            t_division := Some "Metropolitan";
            t_conference := Some "Eastern" |} ].
Proof.
  intros H after before rows.
  destruct (backfillAllTeams_fallback fetch s H) as [Hok Hrows].
  destruct fallback_set_laws as (s1 & s2 & s3).
  subst after before rows. rewrite Hrows.
  repeat match goal with |- _ /\ _ => split end.
  - exact Hok.
  - intros k Hk.
    assert (E : map Complete.ft_id Complete.fallback_teams = map t_id fallback_rows)
      by reflexivity.
    rewrite E in Hk. apply in_map_iff in Hk. destruct Hk as (a & <- & Ha).
    now apply (upsert_all_has_keys t_id Z.eqb Z.eqb_eq Complete.fallback_set s1).
  - intros r Hr.
    apply (upsert_all_keeps_column t_id Z.eqb Complete.fallback_set s1
             t_abbreviation); [|exact Hr].
    now intros [] [].
  - intros ->. reflexivity.
  - reflexivity.
  - vm_compute. repeat (constructor; [simpl; intuition discriminate|]).
    constructor.
  - intros r Hr. vm_compute in Hr.
    repeat (destruct Hr as [<-|Hr]; [eexists; split; reflexivity|]).
    destruct Hr.
  - reflexivity.
Qed.

Lemma fallback_teams_without_live_data_witness :
  teams (Complete.db
           (snd (Complete.backfillAllTeams (Complete.Body None)
                   (Complete.new_service empty_db))))
  = fallback_rows.
Proof.
  apply (fallback_teams_without_live_data (Complete.Body None)
           (Complete.new_service empty_db)); reflexivity.
Defined.

(** C5, as the spec states it, fails on a store that already holds a
    team outside the fallback list.  A live run has stored the Utah
    entry, for whose abbreviation the service has no id, under 999; the
    next run finds the network down, and the Team table then holds 33
    rows, not exactly the 32 of the fallback. *)
Lemma fallback_keeps_an_earlier_team :
  let d0 := fst (Complete.insertTeam utah_standing empty_db) in
  let after :=
    Complete.backfillAllTeams (Complete.NetworkError (Run.Error "fetch failed"))
                              (Complete.new_service d0) in
  map (fun r => (t_id r, t_abbreviation r)) (teams d0) = [(999, Some "UTA")]
  /\ fst after = Run.Ok tt
  /\ count_rows (teams (Complete.db (snd after))) = 33
  /\ In (999, Some "UTA")
        (map (fun r => (t_id r, t_abbreviation r))
             (teams (Complete.db (snd after)))).
Proof. vm_compute. repeat split. now left. Qed.

(** ** C2 and C6: the season totals of a player *)

Lemma pgs_group_in_groups (k : Z * Z) (rows : list PlayerGameStatRow) :
  pgs_group_rows k rows <> [] -> In k (pgs_groups rows).
Proof.
  intros H. unfold pgs_groups. apply nodup_In.
  destruct (pgs_group_rows k rows) as [|r rest] eqn:E; [congruence|].
  assert (I : In r (pgs_group_rows k rows)) by (rewrite E; now left).
  unfold pgs_group_rows in I. apply filter_In in I. destruct I as [I1 I2].
  apply pair_eqb_eq in I2. rewrite <- I2. now apply in_map.
Qed.

Lemma NoDup_map_injective {X Y : Type} (f : X -> Y) (l : list X) :
  (forall a b, f a = f b -> a = b) -> NoDup l -> NoDup (map f l).
Proof.
  intros Hinj H. induction H as [|x l Hx Hl IH]; simpl; constructor; [|exact IH].
  intros I. apply in_map_iff in I. destruct I as (y & E & Hy).
  apply Hinj in E. subst y. contradiction.
Qed.

Lemma season_set_laws_complete :
  forall old new, pss_key (Complete.season_stats_set old new) = pss_key old.
Proof. now intros [] []. Qed.

Lemma season_set_laws_databackfill :
  forall old new, pss_key (DataBackfill.season_stats_set old new) = pss_key old.
Proof. now intros [] []. Qed.

(** The rows of a selected group after [DataBackfill]'s statement. *)
Lemma databackfill_season_rows (season : string) (d : Db) (p t : Z) :
  pgs_rows_of p t season d <> [] ->
  exists a,
    carries_scoring_totals (pgs_rows_of p t season d) a
    /\ carries_shot_totals (pgs_rows_of p t season d) a
    /\ pss_shooting_percentage a
       = Some (DataBackfill.shooting_percentage
                 (sum_col pgs_goals (pgs_rows_of p t season d))
                 (sum_col pgs_shots (pgs_rows_of p t season d)))
    /\ pss_rows_for p season t (DataBackfill.player_season_statement season d)
       = match pss_rows_for p season t d with
         | [] => [a]
         | rows => map (fun r => DataBackfill.season_stats_set r a) rows
         end.
Proof.
  intros H. apply pgs_group_in_groups in H.
  set (mk := DataBackfill.season_stats_row season (pgs_in_season season d)).
  exists (mk (p, t)).
  split; [repeat split|]. split; [repeat split|]. split; [reflexivity|].
  unfold pss_rows_for, DataBackfill.player_season_statement.
  cbn [player_season_stats set_player_season_stats].
  change (p, season, t) with (pss_key (mk (p, t))).
  apply (upsert_all_same_key pss_key pss_key_eqb pss_key_eqb_eq
           DataBackfill.season_stats_set season_set_laws_databackfill).
  - unfold DataBackfill.season_stats_select. cbv zeta. fold mk. rewrite map_map.
    apply NoDup_map_injective; [|apply NoDup_nodup].
    intros [a1 a2] [b1 b2]. unfold mk, pss_key. simpl. now intros [= -> ->].
  - unfold DataBackfill.season_stats_select. cbv zeta. fold mk. now apply in_map.
Qed.

Lemma complete_season_rows (season : string) (d : Db) (p t : Z) :
  pgs_rows_of p t season d <> [] ->
  exists a,
    carries_scoring_totals (pgs_rows_of p t season d) a
    /\ carries_shot_totals (pgs_rows_of p t season d) a
    /\ pss_shooting_percentage a = None
    /\ pss_rows_for p season t (Complete.player_season_statement season d)
       = match pss_rows_for p season t d with
         | [] => [a]
         | rows => map (fun r => Complete.season_stats_set r a) rows
         end.
Proof.
  intros H. apply pgs_group_in_groups in H.
  set (mk := Complete.season_stats_row season (pgs_in_season season d)).
  exists (mk (p, t)).
  split; [repeat split|]. split; [repeat split|]. split; [reflexivity|].
  unfold pss_rows_for, Complete.player_season_statement.
  cbn [player_season_stats set_player_season_stats].
  change (p, season, t) with (pss_key (mk (p, t))).
  apply (upsert_all_same_key pss_key pss_key_eqb pss_key_eqb_eq
           Complete.season_stats_set season_set_laws_complete).
  - unfold Complete.season_stats_select. cbv zeta. fold mk. rewrite map_map.
    apply NoDup_map_injective; [|apply NoDup_nodup].
    intros [a1 a2] [b1 b2]. unfold mk, pss_key. simpl. now intros [= -> ->].
  - unfold Complete.season_stats_select. cbv zeta. fold mk. now apply in_map.
Qed.

(** C2 (as amended).  The season aggregation groups by player and team.
    For every season, player and team such that the player has at least
    one per-game row with that team whose game belongs to the season,
    after the aggregation statement there is a season row for (player,
    season, team), and every such row has games_played equal to the
    number of those per-game rows and goals, assists and points equal to
    their sums.  Through [DataBackfill] the shots and penalty minutes
    are their sums as well; through [Complete] they are when the row is
    first inserted. *)
Theorem season_totals_per_player_and_team (season : string) (d : Db) (p t : Z) :
  pgs_rows_of p t season d <> [] ->
  let G := pgs_rows_of p t season d in
  (pss_rows_for p season t (DataBackfill.player_season_statement season d) <> []
   /\ forall r,
        In r (pss_rows_for p season t
                (DataBackfill.player_season_statement season d)) ->
        carries_scoring_totals G r /\ carries_shot_totals G r)
  /\ (pss_rows_for p season t (Complete.player_season_statement season d) <> []
      /\ (forall r,
            In r (pss_rows_for p season t
                    (Complete.player_season_statement season d)) ->
            carries_scoring_totals G r)
      /\ (pss_rows_for p season t d = [] ->
          forall r,
            In r (pss_rows_for p season t
                    (Complete.player_season_statement season d)) ->
            carries_shot_totals G r)).
Proof.
  intros H G. subst G. split.
  - destruct (databackfill_season_rows season d p t H) as (a & A1 & A2 & _ & E).
    rewrite E. destruct (pss_rows_for p season t d) as [|r0 rows].
    + split; [discriminate|]. intros r [<-|[]]. now split.
    + split; [discriminate|]. intros r Hr.
      apply in_map_iff in Hr. destruct Hr as (old & <- & _).
      destruct old, a. exact (conj A1 A2).
  - destruct (complete_season_rows season d p t H) as (a & A1 & A2 & _ & E).
    rewrite E. destruct (pss_rows_for p season t d) as [|r0 rows].
    + split; [discriminate|]. split.
      * intros r [<-|[]]. exact A1.
      * intros _ r [<-|[]]. exact A2.
    + split; [discriminate|]. split.
      * intros r Hr. apply in_map_iff in Hr. destruct Hr as (old & <- & _).
        destruct old, a. exact A1.
      * discriminate.
Qed.

Lemma season_totals_per_player_and_team_witness :
  pss_rows_for 8471214 "20232024" 15
    (DataBackfill.player_season_statement "20232024" traded_store) <> [].
Proof.
  apply (season_totals_per_player_and_team "20232024" traded_store 8471214 15).
  vm_compute. discriminate.
Defined.

(** C2, as the spec states it, fails for a player with two teams in one
    season.  The player has two per-game rows in 20232024, with 1 goal
    for team 15 and 2 goals for team 6, 3 goals in all; the aggregation
    writes one season row per team, with 1 and 2 goals and one game
    each, and no row for the player and season that has 3 goals. *)
Lemma season_rows_split_by_team :
  let after := DataBackfill.player_season_statement "20232024" traded_store in
  sum_col pgs_goals (pgs_rows_of_player 8471214 "20232024" traded_store) = 3
  /\ count_rows (pgs_rows_of_player 8471214 "20232024" traded_store) = 2
  /\ map (fun r => (pss_team_id r, pss_goals r, pss_games_played r))
         (pss_rows_of_player 8471214 "20232024" after)
     = [(15, 1, 1); (6, 2, 1)].
Proof. vm_compute. repeat split. Qed.






(** ** C7: the season record of a team *)

Section Settles.
Context {Row Key : Type}.
Variable key : Row -> Key.
Variable key_eqb : Key -> Key -> bool.
Hypothesis key_eqb_eq : forall a b, key_eqb a b = true <-> a = b.
Variable set : Row -> Row -> Row.
Hypothesis set_key : forall old new, key (set old new) = key old.

(** After a sequence of upserts in which a key always comes with the
    same row, the rows under that key are that row, or older rows
    updated with it. *)
Lemma upsert_all_settles (sel tbl : list Row) (a : Row) :
  In a sel ->
  (forall b, In b sel -> key b = key a -> b = a) ->
  let F := filter (Table.has_key key key_eqb (key a))
                  (Table.upsert_all key key_eqb set sel tbl) in
  F <> [] /\ forall r, In r F -> r = a \/ exists old, r = set old a.
Proof.
  revert tbl. induction sel as [|x rest IH]; intros tbl Hin Hsame; [destruct Hin|].
  cbv zeta. simpl.
  destruct (Table.conflicts key key_eqb (key a) rest) eqn:C.
  - apply (conflicts_in_keys key key_eqb key_eqb_eq) in C.
    apply in_map_iff in C. destruct C as (b & Kb & Hb).
    assert (b = a) by (apply Hsame; [now right | exact Kb]). subst b.
    apply IH; [exact Hb|]. intros b' Hb'. apply Hsame. now right.
  - assert (N : ~ In (key a) (map key rest)).
    { intros I. apply (conflicts_in_keys key key_eqb key_eqb_eq) in I. congruence. }
    assert (a = x).
    { destruct Hin as [->|Hin]; [reflexivity|].
      exfalso. apply N. now apply in_map. }
    subst x.
    rewrite (upsert_all_other_key key key_eqb key_eqb_eq set set_key) by exact N.
    rewrite (upsert_same_key key key_eqb key_eqb_eq set set_key).
    destruct (filter (Table.has_key key key_eqb (key a)) tbl) as [|r0 rows].
    + split; [discriminate|]. intros r [<-|[]]. now left.
    + split; [discriminate|]. intros r Hr. right.
      apply in_map_iff in Hr. destruct Hr as (old & <- & _). now exists old.
Qed.
End Settles.

Lemma sum_out_nonempty (xs : list Z) :
  xs <> [] -> Pg.sum_out xs = Pg.bigint_out (fold_right Z.add 0 xs).
Proof. destruct xs; [congruence|reflexivity]. Qed.

Lemma sum_out_map {X : Type} (f : X -> Z) (rows : list X) :
  rows <> [] -> Pg.sum_out (map f rows) = Pg.bigint_out (sum_col f rows).
Proof.
  intros H. apply sum_out_nonempty. destruct rows; [congruence|discriminate].
Qed.

Lemma count_rows_positive {X : Type} (rows : list X) :
  rows <> [] -> 0 < count_rows rows.
Proof. destruct rows; [congruence|]. intros _. unfold count_rows. simpl. lia. Qed.

Lemma gt_bigint_zero (n : Z) : Js.gt (Pg.bigint_out n) (Js.Num 0) = (0 <? n)%Z.
Proof.
  unfold Js.gt. change (Pg.bigint_out n) with (Js.Str (Js.Z_to_string n)).
  cbv iota beta. fold (Pg.bigint_out n). now rewrite to_number_bigint.
Qed.

Lemma mul_bigint (w k : Z) : Js.mul (Pg.bigint_out w) (Js.Num k) = Js.Num (w * k).
Proof. unfold Js.mul, Js.arith. now rewrite to_number_bigint. Qed.

Lemma sub_bigint (a b : Z) :
  Js.sub (Pg.bigint_out a) (Pg.bigint_out b) = Js.Num (a - b).
Proof. unfold Js.sub, Js.arith. now rewrite !to_number_bigint. Qed.

(** What [Complete]'s loop sends for a team with games, and that it
    sends nothing for a team without. *)
Lemma complete_team_values (t : Z) (season : string) (d : Db) :
  match tgs_final_in_season t season d with
  | [] => Complete.team_season_values t season d = None
  | _ => exists values,
           Complete.team_season_values t season d = Some values
           /\ Complete.bind_team_season_stat values
              = Some (complete_team_row t season d)
  end.
Proof.
  unfold Complete.team_season_values.
  destruct (tgs_final_in_season t season d) as [|x rows] eqn:E; [reflexivity|].
  assert (NE : x :: rows <> []) by discriminate.
  rewrite parseInt_v_bigint.
  pose proof (count_rows_positive _ NE) as P.
  assert (G : Js.gt (Js.Num (count_rows (x :: rows))) (Js.Num 0) = true).
  { unfold Js.gt. simpl Js.to_number. now apply Z.ltb_lt. }
  rewrite G. eexists. split; [reflexivity|].
  rewrite !(sum_out_map _ _ NE), !parseInt_v_bigint.
  unfold Complete.bind_team_season_stat. cbn [map].
  rewrite !int_col_bigint, !int_col_Num.
  unfold Js.mul, Js.sub, Js.arith. cbn [Js.to_number].
  rewrite !int_col_Num, text_col_Str.
  unfold complete_team_row, team_games, team_wins, team_losses,
    team_goals_for, team_goals_against. now rewrite E.
Qed.

Lemma digits_value_total (s : string) :
  Js.all_digits s = true -> exists v, Js.digits_value s = Some v.
Proof.
  unfold Js.digits_value.
  assert (H : Js.all_digits s = true -> exists u, NilEmpty.uint_of_string s = Some u).
  { induction s as [|c r IH]; simpl; [intros _; now eexists|].
    intros H. apply andb_true_iff in H. destruct H as [Hc Hr].
    destruct (IH Hr) as [u ->].
    destruct c as [[|] [|] [|] [|] [|] [|] [|] [|]]; try discriminate Hc;
      simpl; eexists; reflexivity. }
  intros A. destruct (H A) as [u ->]. simpl. now eexists.
Qed.

Lemma all_digits_app (a b : string) :
  Js.all_digits (a ++ b) = Js.all_digits a && Js.all_digits b.
Proof.
  induction a as [|c r IH]; simpl; [reflexivity|].
  now rewrite IH, andb_assoc.
Qed.

Lemma Z_to_string_nonneg (z : Z) :
  0 <= z ->
  Js.all_digits (Js.Z_to_string z) = true
  /\ exists c r, Js.Z_to_string z = String c r /\ Js.is_digit c = true.
Proof.
  destruct z as [|p|p]; intros H; [| |lia].
  - split; [reflexivity|]. now exists "0"%char, EmptyString.
  - rewrite Z_to_string_pos.
    destruct (pos_digits p) as (Hall & (c & r & Hs & Hc) & _ & _).
    split; [exact Hall|]. now exists c, r.
Qed.

Lemma int_in_digits (s : string) (c : ascii) (r : string) :
  s = String c r -> Js.is_digit c = true -> Js.all_digits s = true ->
  exists z, Pg.int_in s = Some z.
Proof.
  intros -> Hc Hall. unfold Pg.int_in, Js.trim.
  rewrite (strip_ws_digit_first _ _ Hc), (rstrip_ws_all_digits _ Hall).
  unfold Js.signed_digits.
  rewrite (split_sign_digit_first _ _ Hc), (digits_prefix_all _ Hall).
  destruct (digits_value_total _ Hall) as [v ->]. simpl. now eexists.
Qed.

(** The concatenation of two non-negative numbers reads as a number. *)
Lemma int_col_concat (a b : Z) :
  0 <= a -> 0 <= b ->
  exists z, Pg.int_col (Js.add (Js.Num a) (Pg.bigint_out b)) = Some z.
Proof.
  intros Ha Hb. unfold Js.add, Pg.bigint_out. simpl.
  unfold Pg.int_col, Pg.param. simpl Js.to_string.
  destruct (Z_to_string_nonneg a Ha) as (A1 & c & r & A2 & A3).
  destruct (Z_to_string_nonneg b Hb) as (B1 & _).
  apply (int_in_digits _ c (r ++ Js.Z_to_string b)).
  - now rewrite A2.
  - exact A3.
  - now rewrite all_digits_app, A1, B1.
Qed.

Lemma sum_col_case_nonneg {X : Type} (f : X -> bool) (rows : list X) :
  0 <= sum_col (fun x => case_1_0 (f x)) rows.
Proof.
  unfold sum_col. induction rows as [|x rows IH]; simpl; [lia|].
  unfold case_1_0 at 1. destruct (f x); lia.
Qed.

Lemma databackfill_points_bound (t : Z) (season : string) (d : Db) :
  Pg.int_col
    (Js.add (Js.mul (Pg.bigint_out (team_wins t season d)) (Js.Num 2))
            (Pg.bigint_out
               (sum_col (fun x => case_1_0 (DataBackfill.overtime_losses_case x))
                        (tgs_final_in_season t season d))))
  = Some (databackfill_points t season d).
Proof.
  unfold databackfill_points. cbv zeta. rewrite mul_bigint.
  destruct (int_col_concat (team_wins t season d * 2)
              (sum_col (fun x => case_1_0 (DataBackfill.overtime_losses_case x))
                       (tgs_final_in_season t season d))) as [z ->].
  - pose proof (sum_col_case_nonneg own_score_higher (tgs_final_in_season t season d)).
    unfold team_wins. lia.
  - apply sum_col_case_nonneg.
  - reflexivity.
Qed.

Lemma databackfill_team_values (t : Z) (season : string) (d : Db) :
  match tgs_final_in_season t season d with
  | [] => DataBackfill.team_season_values t season d = None
  | _ => exists values,
           DataBackfill.team_season_values t season d = Some values
           /\ DataBackfill.bind_team_season_stat values
              = Some (databackfill_team_row t season d)
  end.
Proof.
  pose proof (databackfill_points_bound t season d) as PB.
  unfold DataBackfill.team_season_values.
  destruct (tgs_final_in_season t season d) as [|x rows] eqn:E; [reflexivity|].
  assert (NE : x :: rows <> []) by discriminate.
  rewrite gt_bigint_zero.
  pose proof (count_rows_positive _ NE) as P. apply Z.ltb_lt in P. rewrite P.
  eexists. split; [reflexivity|].
  rewrite !(sum_out_map _ _ NE).
  unfold DataBackfill.bind_team_season_stat. cbn [map].
  unfold team_wins in PB. rewrite E in PB. rewrite PB.
  rewrite !int_col_bigint, !int_col_Num, sub_bigint, int_col_Num, text_col_Str.
  unfold databackfill_team_row, team_games, team_wins, team_goals_for,
    team_goals_against. now rewrite E.
Qed.

Lemma tgs_final_same_inputs (t : Z) (season : string) (d d' : Db) :
  team_game_stats d' = team_game_stats d -> games d' = games d ->
  tgs_final_in_season t season d' = tgs_final_in_season t season d.
Proof. intros H1 H2. unfold tgs_final_in_season. now rewrite H1, H2. Qed.

Section TeamLoop.
Variable season : string.
Variable d : Db.
Variable values : Z -> string -> Db -> option (list Js.value).
Variable bind : list Js.value -> option TeamSeasonStatRow.
Variable set : TeamSeasonStatRow -> TeamSeasonStatRow -> TeamSeasonStatRow.
Variable row_of : Z -> TeamSeasonStatRow.

Hypothesis values_same : forall t d',
  team_game_stats d' = team_game_stats d -> games d' = games d ->
  values t season d' = values t season d.
Hypothesis values_row : forall t,
  match tgs_final_in_season t season d with
  | [] => values t season d = None
  | _ => exists v, values t season d = Some v /\ bind v = Some (row_of t)
  end.
Hypothesis set_key : forall old new, tss_key (set old new) = tss_key old.
Hypothesis row_key : forall t, tss_key (row_of t) = (t, season).

(** The body of the loop over the teams. *)
Let body (team : TeamRow) (d' : Db) : Outcome :=
  match values (t_id team) season d' with
  | Some v =>
      let (tbl, e) :=
        statement (bind v)
                  (Table.insert_do_update tss_key tss_key_eqb set)
                  (team_season_stats d') in
      (set_team_season_stats tbl d', e)
  | None => (d', None)
  end.

Lemma team_loop_eq (l : list TeamRow) (d' : Db) :
  team_game_stats d' = team_game_stats d -> games d' = games d ->
  for_each body l d'
  = (set_team_season_stats
       (Table.upsert_all tss_key tss_key_eqb set
          (team_rows row_of season d l) (team_season_stats d')) d',
     None).
Proof.
  revert d'. induction l as [|team rest IH]; intros d' H1 H2; simpl.
  - now destruct d'.
  - unfold body at 1. rewrite (values_same _ _ H1 H2).
    pose proof (values_row (t_id team)) as V.
    destruct (tgs_final_in_season (t_id team) season d) as [|x rows].
    + rewrite V. simpl. now apply IH.
    + destruct V as (v & -> & B). unfold statement. rewrite B.
      rewrite IH by (simpl; assumption). now destruct d'.
Qed.

(** After the loop, a team of the list that has games has its rows,
    each carrying what the loop sent for it, up to the columns that
    [set] does not overwrite. *)
Lemma team_loop_rows (t : Z) :
  In t (map t_id (teams d)) ->
  tgs_final_in_season t season d <> [] ->
  snd (for_each body (teams d) d) = None
  /\ tss_rows_for t season (fst (for_each body (teams d) d)) <> []
  /\ forall r,
       In r (tss_rows_for t season (fst (for_each body (teams d) d))) ->
       r = row_of t \/ exists old, r = set old (row_of t).
Proof.
  intros Hin Hrows. rewrite (team_loop_eq (teams d) d eq_refl eq_refl).
  split; [reflexivity|]. unfold tss_rows_for.
  cbn [fst team_season_stats set_team_season_stats].
  rewrite <- (row_key t).
  apply (upsert_all_settles tss_key tss_key_eqb tss_key_eqb_eq set set_key).
  - unfold team_rows. apply in_flat_map.
    apply in_map_iff in Hin. destruct Hin as (team & <- & Hteam).
    exists team. split; [exact Hteam|].
    destruct (tgs_final_in_season (t_id team) season d); [congruence|now left].
  - intros b Hb Kb. unfold team_rows in Hb. apply in_flat_map in Hb.
    destruct Hb as (team & _ & Hb).
    destruct (tgs_final_in_season (t_id team) season d); [destruct Hb|].
    destruct Hb as [<-|[]]. rewrite !row_key in Kb. now inversion Kb.
Qed.
End TeamLoop.




(** The points [DataBackfill.calculateTeamSeasonStats] writes are not part
    of C7 as amended: [(record.wins * 2) + record.overtime_losses] adds a
    number to the string the driver returns for the count, which
    concatenates.  Team 15 won its one game: 2 followed by 0. *)
Lemma databackfill_points_are_concatenated :
  let after := fst (DataBackfill.team_season_loop "20232024" overtime_store) in
  map (fun r => (tss_wins r, tss_overtime_losses r, tss_points r))
      (tss_rows_for 15 "20232024" after)
  = [(1, Some 0, 20)].
Proof. vm_compute. reflexivity. Qed.

(** ** C10: the running flag *)

Lemma complete_run_backfill_releases (fetch : Complete.StandingsFetch)
    (body : Complete.Stage -> Db -> Db * option Run.exn)
    (seasons : list string) (includePlayoffs : bool) (s : Complete.Service) :
  Complete.isRunning
    (snd (Complete.run_backfill fetch body seasons includePlayoffs s)) = false.
Proof.
  unfold Complete.run_backfill, Complete.set_totalSteps, Run.bind, Run.modify,
    Run.try_finally.
  cbv beta iota.
  match goal with |- context [let (r, s') := ?c in _] => destruct c end.
  reflexivity.
Qed.

Lemma databackfill_run_backfill_releases
    (body : DataBackfill.Stage -> Db -> Db * option Run.exn)
    (seasons : list string) (includePlayoffs : bool) (s : DataBackfill.Service) :
  DataBackfill.isRunning
    (snd (DataBackfill.run_backfill body seasons includePlayoffs s)) = false.
Proof.
  unfold DataBackfill.run_backfill, DataBackfill.set_totalSteps, Run.bind,
    Run.modify, Run.try_finally.
  cbv beta iota.
  match goal with |- context [let (r, s') := ?c in _] => destruct c end.
  reflexivity.
Qed.

Lemma complete_invoke_all_idle (ivs : list Complete.Invocation)
    (s : Complete.Service) :
  Complete.isRunning s = false ->
  Complete.isRunning (Complete.invoke_all ivs s) = false.
Proof.
  revert s. induction ivs as [|iv ivs IH]; intros s H; simpl; [exact H|].
  apply IH. unfold Complete.invoke, Complete.startCompleteBackfill.
  rewrite H. apply complete_run_backfill_releases.
Qed.

Lemma databackfill_invoke_all_idle (ivs : list DataBackfill.Invocation)
    (s : DataBackfill.Service) :
  DataBackfill.isRunning s = false ->
  DataBackfill.isRunning (DataBackfill.invoke_all ivs s) = false.
Proof.
  revert s. induction ivs as [|iv ivs IH]; intros s H; simpl; [exact H|].
  apply IH. unfold DataBackfill.invoke, DataBackfill.startCompleteBackfill.
  rewrite H. apply databackfill_run_backfill_releases.
Qed.

(** C10.  In both services, an invocation of [startCompleteBackfill] that
    is let in (the instance is not running) leaves the running flag
    false when it terminates, whether it resolved or threw; the next
    invocation on the instance is therefore let in as well, and so is
    every invocation of any sequence made one after the other on a new
    instance.  (An invocation that finds the flag set is rejected and
    changes nothing; the state of another instance is not involved.) *)
Theorem running_flag_released :
  (forall (iv next : Complete.Invocation) (s : Complete.Service),
     Complete.isBackfillRunning s = false ->
     let s' := snd (Complete.invoke iv s) in
     Complete.isBackfillRunning s' = false
     /\ Complete.invoke next s'
        = Complete.run_backfill (Complete.iv_fetch next)
            (Complete.iv_stage_body next) (Complete.iv_seasons next)
            (Complete.iv_includePlayoffs next) s')
  /\ (forall (ivs : list Complete.Invocation) (pool : Db),
        Complete.isBackfillRunning
          (Complete.invoke_all ivs (Complete.new_service pool)) = false)
  /\ (forall (iv next : DataBackfill.Invocation) (s : DataBackfill.Service),
        DataBackfill.isBackfillRunning s = false ->
        let s' := snd (DataBackfill.invoke iv s) in
        DataBackfill.isBackfillRunning s' = false
        /\ DataBackfill.invoke next s'
           = DataBackfill.run_backfill (DataBackfill.iv_stage_body next)
               (DataBackfill.iv_seasons next)
               (DataBackfill.iv_includePlayoffs next) s')
  /\ (forall (ivs : list DataBackfill.Invocation) (pool : Db),
        DataBackfill.isBackfillRunning
          (DataBackfill.invoke_all ivs (DataBackfill.new_service pool)) = false)
  /\ (forall (iv : Complete.Invocation) (s : Complete.Service),
        Complete.isBackfillRunning s = true ->
        Complete.invoke iv s
        = (Run.Throw (Run.Error "Backfill already in progress"), s))
  /\ (forall (iv : DataBackfill.Invocation) (s : DataBackfill.Service),
        DataBackfill.isBackfillRunning s = true ->
        DataBackfill.invoke iv s
        = (Run.Throw (Run.Error "Backfill already in progress"), s)).
Proof.
  unfold Complete.isBackfillRunning, DataBackfill.isBackfillRunning.
  repeat match goal with |- _ /\ _ => split end.
  - intros iv next s H. set (s' := snd (Complete.invoke iv s)).
    assert (R : Complete.isRunning s' = false).
    { subst s'. unfold Complete.invoke, Complete.startCompleteBackfill.
      rewrite H. apply complete_run_backfill_releases. }
    split; [exact R|].
    unfold Complete.invoke at 1. unfold Complete.startCompleteBackfill.
    now rewrite R.
  - intros ivs pool. now apply complete_invoke_all_idle.
  - intros iv next s H. set (s' := snd (DataBackfill.invoke iv s)).
    assert (R : DataBackfill.isRunning s' = false).
    { subst s'. unfold DataBackfill.invoke, DataBackfill.startCompleteBackfill.
      rewrite H. apply databackfill_run_backfill_releases. }
    split; [exact R|].
    unfold DataBackfill.invoke at 1. unfold DataBackfill.startCompleteBackfill.
    now rewrite R.
  - intros ivs pool. now apply databackfill_invoke_all_idle.
  - intros iv s H. unfold Complete.invoke, Complete.startCompleteBackfill.
    now rewrite H.
  - intros iv s H. unfold DataBackfill.invoke, DataBackfill.startCompleteBackfill.
    now rewrite H.
Qed.

Lemma running_flag_released_witness :
  DataBackfill.isBackfillRunning
    (snd (DataBackfill.invoke teams_stage_fails (DataBackfill.new_service empty_db)))
  = false.
Proof.
  apply (proj1 (proj2 (proj2 running_flag_released))
           teams_stage_fails teams_stage_fails (DataBackfill.new_service empty_db)).
  reflexivity.
Defined.


(** ** C4: a stage that throws *)

Lemma bind_after {S A B : Type} (c : Run.M S A) (k : A -> Run.M S B)
    (s s1 : S) (a : A) :
  c s = (Run.Ok a, s1) -> Run.bind c k s = k a s1.
Proof. intros H. unfold Run.bind. now rewrite H. Qed.

Lemma for_of_app {S A : Type} (l1 l2 : list A) (f : A -> Run.M S unit) (s : S) :
  Run.for_of (l1 ++ l2) f s
  = Run.bind (Run.for_of l1 f) (fun _ => Run.for_of l2 f) s.
Proof.
  revert s. induction l1 as [|x l1 IH]; intros s; simpl.
  - unfold Run.bind, Run.ret. reflexivity.
  - unfold Run.bind in *. destruct (f x s) as [[[]|e] s1]; [apply IH|reflexivity].
Qed.

Lemma for_of_map {S A B : Type} (g : A -> B) (l : list A)
    (f : B -> Run.M S unit) (s : S) :
  Run.for_of (map g l) f s = Run.for_of l (fun x => f (g x)) s.
Proof.
  revert s. induction l as [|x l IH]; intros s; simpl; [reflexivity|].
  unfold Run.bind. destruct (f (g x) s) as [[[]|e] s1]; [apply IH|reflexivity].
Qed.

Section CompleteRun.
Variable fetch : Complete.StandingsFetch.
Variable body : Complete.Stage -> Db -> Db * option Run.exn.

(** A stage under its own step and label, as the eight wrappers
    call it. *)
Local Abbreviation one st :=
  (Complete.stage body (Complete.stage_step st) (Complete.stage_label st) st).

Lemma events_app (l1 l2 : list Complete.Stage) (d : Db) :
  Complete.events body (l1 ++ l2) d
  = Complete.events body l1 d
    ++ Complete.events body l2 (Complete.store_after body l1 d).
Proof.
  revert d. induction l1 as [|st l1 IH]; intros d; simpl; [reflexivity|].
  now rewrite IH.
Qed.

Lemma events_stages (l : list Complete.Stage) (d : Db) :
  map fst (Complete.events body l d) = l.
Proof.
  revert d. induction l as [|st l IH]; intros d; simpl; [reflexivity|].
  now rewrite IH.
Qed.

Lemma ran_nothing (s : Complete.Service) : Complete.ran [] (Complete.db s) s s.
Proof.
  unfold Complete.ran. simpl. rewrite !app_nil_r. repeat split.
Qed.

Lemma ran_then (ev : Complete.Stage * option Run.exn)
    (evs : list (Complete.Stage * option Run.exn)) (d1 d2 : Db)
    (s s1 s2 : Complete.Service) :
  Complete.ran [ev] d1 s s1 -> Complete.ran evs d2 s1 s2 ->
  Complete.ran (ev :: evs) d2 s s2.
Proof.
  unfold Complete.ran. simpl. rewrite !app_nil_r.
  intros (A1 & A2 & A3 & A4 & A5 & A6) (B1 & B2 & B3 & B4 & B5 & B6).
  rewrite B2, B3, B4, B5, B6, A2, A3, A4, A5, A6, <- !app_assoc.
  repeat split; assumption.
Qed.

(** One stage: it returns, whatever its body does. *)
Lemma one_stage (st : Complete.Stage) (s : Complete.Service) :
  fst (one st s) = Run.Ok tt
  /\ Complete.ran [(st, snd (body st (Complete.db s)))]
                  (fst (body st (Complete.db s))) s (snd (one st s)).
Proof.
  unfold Complete.stage, Complete.updateProgress, Complete.run_stage,
    Complete.push_completed, Complete.push_error, Run.bind, Run.try_catch,
    Run.modify, Complete.ran, Complete.error_lines, Complete.completed_labels,
    Complete.stage_error.
  cbn [Complete.db Complete.with_progress Complete.set_db Complete.enter].
  destruct (body st (Complete.db s)) as [d' [e|]]; simpl;
    rewrite ?app_nil_r; repeat split.
Qed.

Lemma stage_list (sts : list Complete.Stage) (s : Complete.Service) :
  fst (Run.for_of sts (fun st => one st) s) = Run.Ok tt
  /\ Complete.ran (Complete.events body sts (Complete.db s))
                  (Complete.store_after body sts (Complete.db s))
                  s (snd (Run.for_of sts (fun st => one st) s)).
Proof.
  revert s. induction sts as [|st sts IH]; intros s.
  - split; [reflexivity | apply ran_nothing].
  - destruct (one_stage st s) as [O1 O2].
    simpl Run.for_of.
    rewrite (bind_after _ _ s (snd (one st s)) tt)
      by (rewrite (surjective_pairing (one st s)), O1; reflexivity).
    destruct (IH (snd (one st s))) as [I1 I2].
    split; [exact I1|].
    assert (D : Complete.db (snd (one st s)) = fst (body st (Complete.db s)))
      by apply O2.
    rewrite D in I2. simpl.
    exact (ran_then _ _ _ _ _ _ _ O2 I2).
Qed.

Lemma loop_then {A : Type} (K : A -> Complete.Stage) (seasons : list A)
    (rest : list Complete.Stage) (k1 k2 : Run.M Complete.Service unit) :
  (forall s, k1 s = Run.bind (Run.for_of rest (fun st => one st))
                             (fun _ => k2) s) ->
  forall s,
    Run.bind (Run.for_of seasons (fun x => one (K x))) (fun _ => k1) s
    = Run.bind (Run.for_of (map K seasons ++ rest) (fun st => one st))
               (fun _ => k2) s.
Proof.
  intros H s. unfold Run.bind. rewrite for_of_app. unfold Run.bind.
  rewrite for_of_map.
  destruct (Run.for_of seasons (fun x => one (K x)) s) as [[[]|e] s1];
    [|reflexivity].
  rewrite H. reflexivity.
Qed.

Lemma loop_last {A : Type} (K : A -> Complete.Stage) (seasons : list A)
    (k : Run.M Complete.Service unit) (s : Complete.Service) :
  Run.bind (Run.for_of seasons (fun x => one (K x))) (fun _ => k) s
  = Run.bind (Run.for_of (map K seasons) (fun st => one st)) (fun _ => k) s.
Proof. unfold Run.bind. now rewrite for_of_map. Qed.

(** The eight loops of a run are one pass over its schedule. *)
Lemma all_stages_schedule (seasons : list string) (includePlayoffs : bool)
    (s : Complete.Service) :
  Complete.all_stages fetch body seasons includePlayoffs s
  = Run.bind (Complete.backfillAllTeams fetch)
      (fun _ =>
         Run.bind
           (Run.for_of (Complete.schedule seasons includePlayoffs)
                       (fun st => one st))
           (fun _ => Complete.generateFinalReport)) s.
Proof.
  unfold Complete.all_stages, Complete.schedule.
  unfold Run.bind at 1 10.
  destruct (Complete.backfillAllTeams fetch s) as [[[]|e] s0]; [|reflexivity].
  revert s0.
  apply (loop_then Complete.Players); intros s1.
  apply (loop_then (fun season => Complete.Games season includePlayoffs));
    intros s2.
  apply (loop_then Complete.PlayerGameStats); intros s3.
  apply (loop_then Complete.TeamGameStats); intros s4.
  apply (loop_then Complete.GoalieStats); intros s5.
  apply (loop_then Complete.SeasonStats); intros s6.
  apply (loop_then Complete.ShotData); intros s7.
  apply (loop_last Complete.AdvancedStats).
Qed.

Lemma lookup_num (k : string) (m : list (string * Z)) :
  Complete.lookup k m = Js.Undefined \/ exists z, Complete.lookup k m = Js.Num z.
Proof.
  induction m as [|[k' v] m IH]; simpl; [now left|].
  destruct (k' =? k)%string; [right; now exists v | exact IH].
Qed.

Lemma getTeamIdFromAbbrev_num (abbrev : Js.value) :
  exists z, Complete.getTeamIdFromAbbrev abbrev = Js.Num z.
Proof.
  unfold Complete.getTeamIdFromAbbrev, Js.or.
  destruct (lookup_num (Js.to_string abbrev) Complete.mapping) as [->|[z ->]].
  - now exists 999.
  - simpl. destruct (z =? 0)%Z; simpl; eexists; reflexivity.
Qed.

Lemma bind_team_insertTeam (st : Standing) :
  exists r, Complete.bind_team (Complete.insertTeam_values st) = Some r.
Proof.
  unfold Complete.bind_team, Complete.insertTeam_values.
  destruct (getTeamIdFromAbbrev_num
              (Js.or (st_teamAbbrev st) (Js.Str "UNK"))) as [z ->].
  rewrite int_col_Num. eexists; reflexivity.
Qed.

(** The store accepts every team the live path sends. *)
Lemma insertTeam_accepted (standings : list Standing) :
  List.length
    (bound_prefix (fun st => Complete.bind_team (Complete.insertTeam_values st))
                  standings)
  = List.length standings.
Proof.
  induction standings as [|st rest IH]; [reflexivity|].
  cbn [bound_prefix]. destruct (bind_team_insertTeam st) as [r ->].
  cbn [List.length]. now rewrite IH.
Qed.

Lemma teams_stage (s : Complete.Service) :
  fst (Complete.backfillAllTeams fetch s) = Run.Ok tt
  /\ Complete.db (snd (Complete.backfillAllTeams fetch s))
     = Complete.teams_store fetch (Complete.db s)
  /\ Complete.trace (snd (Complete.backfillAllTeams fetch s)) = Complete.trace s
  /\ Complete.errors (Complete.progress_of (snd (Complete.backfillAllTeams fetch s)))
     = Complete.errors (Complete.progress_of s)
  /\ Complete.completed
       (Complete.progress_of (snd (Complete.backfillAllTeams fetch s)))
     = Complete.completed (Complete.progress_of s)
       ++ [Complete.teams_label fetch]
  /\ Complete.isRunning (snd (Complete.backfillAllTeams fetch s))
     = Complete.isRunning s.
Proof.
  destruct teams_lens as (l1 & l2 & l3).
  assert (L : forall standings d,
             snd (for_each Complete.insertTeam standings d) = None).
  { intros standings d.
    change Complete.insertTeam with
      (statement_on teams set_teams
         (fun st => Complete.bind_team (Complete.insertTeam_values st))
         (Table.insert_do_update t_id Z.eqb Complete.insertTeam_set)).
    apply (loop_snd teams set_teams l3 t_id Z.eqb Complete.insertTeam_set
             (fun st => Complete.bind_team (Complete.insertTeam_values st))).
    apply insertTeam_accepted. }
  unfold Complete.backfillAllTeams, Run.bind, Run.try_catch, Run.throw,
    Complete.updateProgress, Complete.push_completed, Run.modify,
    Complete.on_db, Complete.teams_store, Complete.teams_label.
  cbn [Complete.db Complete.with_progress].
  destruct fetch as [e|e|[standings|]];
    rewrite ?insertFallbackTeams_eq;
    try (rewrite (surjective_pairing (for_each Complete.insertTeam standings _)), L);
    repeat split.
Qed.

Lemma all_stages_run (seasons : list string) (includePlayoffs : bool)
    (s : Complete.Service) :
  let out := Complete.all_stages fetch body seasons includePlayoffs s in
  let d0 := Complete.teams_store fetch (Complete.db s) in
  let sts := Complete.schedule seasons includePlayoffs in
  let evs := Complete.events body sts d0 in
  let errs := Complete.errors (Complete.progress_of s) ++ Complete.error_lines evs in
  fst out = Run.Ok tt
  /\ Complete.db (snd out) = Complete.store_after body sts d0
  /\ Complete.trace (snd out) = Complete.trace s ++ sts
  /\ Complete.errors (Complete.progress_of (snd out)) = errs
  /\ Complete.completed (Complete.progress_of (snd out))
     = Complete.completed (Complete.progress_of s)
       ++ Complete.teams_label fetch :: Complete.completed_labels evs
  /\ Complete.isRunning (snd out) = Complete.isRunning s
  /\ Complete.final_report (snd out)
     = Some (Complete.report_of (Complete.store_after body sts d0) errs).
Proof.
  cbv zeta. rewrite all_stages_schedule.
  destruct (teams_stage s) as (T1 & T2 & T3 & T4 & T5 & T6).
  set (s0 := snd (Complete.backfillAllTeams fetch s)) in *.
  rewrite (bind_after _ _ s s0 tt)
    by (rewrite (surjective_pairing (Complete.backfillAllTeams fetch s)), T1;
        reflexivity).
  destruct (stage_list (Complete.schedule seasons includePlayoffs) s0)
    as (L1 & L2 & L3 & L4 & L5 & L6 & L7).
  set (s1 := snd (Run.for_of (Complete.schedule seasons includePlayoffs)
                             (fun st => one st) s0)) in *.
  rewrite (bind_after _ _ s0 s1 tt)
    by (rewrite (surjective_pairing (Run.for_of _ _ s0)), L1; reflexivity).
  unfold Complete.generateFinalReport, Run.modify.
  cbn [fst snd Complete.db Complete.trace Complete.progress_of
       Complete.isRunning Complete.final_report Complete.set_final_report].
  rewrite T2 in L2. rewrite T2 in L4, L5. rewrite events_stages in L3.
  rewrite L2, L3, L4, L5, L6, T3, T4, T5, T6, <- app_assoc.
  repeat split.
Qed.
End CompleteRun.




(* ================================================================== *)
(** * Further properties of the two services                          *)
(* ================================================================== *)

(** ** Splitting and joining *)

Lemma split_nonempty (sep : ascii) (s : string) : Js.split sep s <> [].
Proof.
  induction s as [|c r IH]; simpl; [discriminate|].
  destruct (Ascii.eqb c sep); [discriminate|].
  destruct (Js.split sep r); discriminate.
Qed.

Lemma split_length (sep : ascii) (s : string) :
  List.length (Js.split sep s) = S (occurrences sep s).
Proof.
  induction s as [|c r IH]; simpl; [reflexivity|].
  destruct (Ascii.eqb c sep); simpl; [now rewrite IH|].
  destruct (Js.split sep r) as [|h t] eqn:E; [now apply split_nonempty in E|].
  simpl in *. exact IH.
Qed.

Lemma split_no_sep (sep : ascii) (s : string) :
  occurrences sep s = O -> Js.split sep s = [s].
Proof.
  induction s as [|c r IH]; simpl; [reflexivity|].
  destruct (Ascii.eqb c sep); [discriminate|].
  intros H. now rewrite (IH H).
Qed.






(** ** Runs of digits *)





Lemma to_number_cases (v : Js.value) :
  (exists z, Js.to_number v = Js.Num z) \/ Js.to_number v = Js.NaN.
Proof.
  destruct v as [| |b|z| |s]; simpl; eauto.
  destruct (Js.trim s); [eauto|].
  destruct (Js.signed_digits _); eauto.
Qed.

(** ** Times *)



(** X2.  [parseTimeToSeconds] of both services is 0 for [null] and for
    every string that does not hold exactly one colon: the empty
    string, seconds alone, and a time with hours such as 1:02:03. *)
Theorem time_without_one_colon_is_zero (timeString : option string) :
  (forall s, timeString = Some s -> occurrences ":" s <> 1%nat) ->
  Complete.parseTimeToSeconds timeString = Js.Num 0
  /\ DataBackfill.parseTimeToSeconds timeString = Js.Num 0.
Proof.
  intros H. unfold Complete.parseTimeToSeconds, DataBackfill.parseTimeToSeconds.
  destruct timeString as [s|]; [|split; reflexivity].
  specialize (H s eq_refl).
  destruct (negb (Js.truthy (Js.Str s))); [split; reflexivity|].
  pose proof (split_length ":" s) as L.
  destruct (Js.split ":" s) as [|a [|b [|c rest]]]; try (split; reflexivity).
  simpl in L. exfalso. apply H. lia.
Qed.

Lemma time_without_one_colon_is_zero_witness :
  Complete.parseTimeToSeconds (Some "1:02:03") = Js.Num 0
  /\ DataBackfill.parseTimeToSeconds (Some "1:02:03") = Js.Num 0.
Proof.
  apply (time_without_one_colon_is_zero (Some "1:02:03")).
  intros s [= <-]. simpl. lia.
Defined.



(** X4.  For a non-empty time in the period without a colon,
    [parseGameTimeToSeconds] is [NaN]: the seconds are [undefined].
    (For [null] and the empty string it is 0.) *)
Theorem time_in_period_without_colon (s : string) (period : Js.value) :
  s <> "" -> occurrences ":" s = O ->
  DataBackfill.parseGameTimeToSeconds (Some s) period = Js.NaN
  /\ DataBackfill.parseGameTimeToSeconds (Some "") period = Js.Num 0
  /\ DataBackfill.parseGameTimeToSeconds None period = Js.Num 0.
Proof.
  intros Hne Hc. split; [|split; reflexivity].
  unfold DataBackfill.parseGameTimeToSeconds.
  replace (Js.truthy (Js.Str s)) with true by (destruct s; [congruence|reflexivity]).
  rewrite (split_no_sep _ _ Hc). cbn [map nth negb].
  unfold Js.sub, Js.add, Js.mul, Js.arith.
  destruct (to_number_cases (Js.Str s)) as [[z ->] | ->]; reflexivity.
Qed.

Lemma time_in_period_without_colon_witness :
  DataBackfill.parseGameTimeToSeconds (Some "754") (Js.Num 1) = Js.NaN.
Proof.
  apply (time_in_period_without_colon "754" (Js.Num 1));
    [discriminate | reflexivity].
Defined.

(** ** The parser of the advanced-metrics files *)




















Lemma csv_data_length (headers lines : list string) :
  (List.length (Complete.csv_data headers lines) <= List.length lines)%nat.
Proof.
  unfold Complete.csv_data. induction lines as [|l rest IH]; simpl; [lia|].
  rewrite length_app.
  destruct (List.length headers <=? List.length (Js.split "," l))%nat;
    simpl; lia.
Qed.

Lemma csv_data_app (headers l1 l2 : list string) :
  Complete.csv_data headers (l1 ++ l2)
  = Complete.csv_data headers l1 ++ Complete.csv_data headers l2.
Proof. unfold Complete.csv_data. apply flat_map_app. Qed.

Lemma filter_length_le {A : Type} (f : A -> bool) (l : list A) :
  (List.length (filter f l) <= List.length l)%nat.
Proof.
  induction l as [|a l IH]; simpl; [lia|]. destruct (f a); simpl; lia.
Qed.

(** X7.  Whatever the text, [Complete.parseCSV] returns at most 999
    objects, those of the first 999 data lines; [DataBackfill.parseCSV]
    returns these and those of the lines beyond; and neither returns
    more objects than the text has line feeds (none for a text of one
    line). *)
Theorem parseCSV_row_count (csvText : string) :
  (exists beyond,
      DataBackfill.parseCSV csvText = Complete.parseCSV csvText ++ beyond)
  /\ (List.length (Complete.parseCSV csvText) <= 999)%nat
  /\ (List.length (DataBackfill.parseCSV csvText)
      <= occurrences "010" csvText)%nat.
Proof.
  unfold Complete.parseCSV, DataBackfill.parseCSV.
  pose proof (filter_length_le
                (fun line => Js.truthy (Js.Str (Js.trim line)))
                (Js.split "010" csvText)) as L.
  rewrite split_length in L. fold (Complete.csv_lines csvText) in L.
  destruct (Complete.csv_lines csvText) as [|header [|l1 rest]].
  - split; [|split]; [now exists [] | simpl; lia | simpl; lia].
  - split; [|split]; [now exists [] | simpl; lia | simpl; lia].
  - set (headers := map Complete.csv_clean (Js.split "," header)).
    set (lines := l1 :: rest) in *. clearbody lines. split; [|split].
    + exists (Complete.csv_data headers (skipn 999 lines)).
      now rewrite <- csv_data_app, firstn_skipn.
    + pose proof (csv_data_length headers (firstn 999 lines)).
      pose proof (firstn_le_length 999 lines). lia.
    + pose proof (csv_data_length headers lines). simpl in L. lia.
Qed.


















(** ** Team ids *)

Lemma fallback_team_id (team : Complete.FallbackTeam) :
  In team Complete.fallback_teams ->
  Js.or (Js.Str (Complete.ft_abbrev team)) (Js.Str "UNK")
  = Js.Str (Complete.ft_abbrev team)
  /\ Complete.getTeamIdFromAbbrev (Js.Str (Complete.ft_abbrev team))
     = Js.Num (Complete.ft_id team).
Proof.
  intros H. simpl in H.
  repeat (destruct H as [<-|H]; [split; reflexivity|]). destruct H.
Qed.

(** X9.  The live and the fallback path give a team the same id: for a
    standings entry whose abbreviation is that of one of the 32
    fallback teams, the row [insertTeam] sends has the id and the
    abbreviation of that fallback team. *)
Theorem live_team_takes_fallback_id (standing : Standing)
    (team : Complete.FallbackTeam) :
  In team Complete.fallback_teams ->
  st_teamAbbrev standing = Js.Str (Complete.ft_abbrev team) ->
  exists r,
    Complete.bind_team (Complete.insertTeam_values standing) = Some r
    /\ t_id r = Complete.ft_id team
    /\ t_abbreviation r = Some (Complete.ft_abbrev team).
Proof.
  intros H E. destruct (fallback_team_id team H) as [O G].
  unfold Complete.bind_team, Complete.insertTeam_values.
  rewrite E, O, G, int_col_Num. eexists. repeat split.
Qed.

Lemma live_team_takes_fallback_id_witness :
  exists r,
    Complete.bind_team (Complete.insertTeam_values capitals_standing) = Some r
    /\ t_id r = 15
    /\ t_abbreviation r = Some "WSH".
Proof.
  apply (live_team_takes_fallback_id capitals_standing
           (Complete.ft 15 "Washington Capitals" "WSH" "Washington"
                        "Metropolitan" "Eastern")).
  - simpl. tauto.
  - reflexivity.
Defined.





(** ** Goalies *)

(** A value that an integer column accepts is that integer as a
    number. *)
Lemma int_col_to_number (v : Js.value) (z : Z) :
  Pg.int_col v = Some z -> Js.to_number v = Js.Num z.
Proof.
  destruct v as [| |b|n| |s]; try (intros H; vm_compute in H; discriminate H).
  - destruct b; intros H; vm_compute in H; discriminate H.
  - rewrite int_col_Num. now intros [= ->].
  - unfold Pg.int_col, Pg.param, Pg.int_in, Js.to_number. simpl Js.to_string.
    destruct (Js.trim s) as [|c r]; [intros H; vm_compute in H; discriminate H|].
    now intros ->.
Qed.

Lemma gt_zero (v : Js.value) (x : Z) :
  Js.to_number v = Js.Num x -> Js.gt v (Js.Num 0) = (0 <? x)%Z.
Proof.
  intros H. unfold Js.gt. rewrite H. now destruct v.
Qed.

Lemma sub_numbers (a b : Js.value) (x y : Z) :
  Js.to_number a = Js.Num x -> Js.to_number b = Js.Num y ->
  Js.sub a b = Js.Num (x - y).
Proof. intros Ha Hb. unfold Js.sub, Js.arith. now rewrite Ha, Hb. Qed.


(** What [insertGoalieStat] sends, in terms of the shots and the goals
    against that the store reads. *)
Lemma goalie_row (g p t : Z) (stats : Complete.GoalieBox)
    (r : GoalieGameStatRow) :
  Complete.insertGoalieStat_row g p t stats = Some r ->
  let goalsAgainst := Js.or (Complete.gl_goalsAgainst stats) (Js.Num 0) in
  let sa := ggs_shots_against r in
  let ga := ggs_goals_against r in
  Complete.ggs_key r = (g, p)
  /\ ggs_team_id r = t
  /\ ggs_saves r = sa - ga
  /\ ggs_save_percentage r
     = Some (if (0 <? sa)%Z then (inject_Z (sa - ga) / inject_Z sa)%Q
             else inject_Z 0)
  /\ ggs_shutout r = Js.strict_eq goalsAgainst (Js.Num 0) && (0 <? sa)%Z
  /\ Js.to_number goalsAgainst = Js.Num ga.
Proof.
  unfold Complete.insertGoalieStat_row. cbv zeta. rewrite !int_col_Num.
  set (SA := Js.or (Complete.gl_shotsAgainst stats) (Js.Num 0)).
  set (GA := Js.or (Complete.gl_goalsAgainst stats) (Js.Num 0)).
  destruct (Pg.int_col SA) as [sa|] eqn:E1; [|discriminate].
  destruct (Pg.int_col (Js.sub SA GA)) as [sv|] eqn:E2; [|discriminate].
  destruct (Pg.int_col GA) as [ga|] eqn:E3; [|discriminate].
  apply int_col_to_number in E1, E3.
  rewrite (sub_numbers SA GA sa ga E1 E3) in *. rewrite int_col_Num in E2.
  injection E2 as <-.
  unfold Complete.save_percentage. rewrite (gt_zero SA sa E1), E1.
  cbn [Js.to_number].
  destruct (Pg.int_col (Complete.parseTimeToSeconds (Complete.gl_timeOnIce stats)))
    as [toi|]; [|destruct (0 <? sa)%Z; discriminate].
  destruct (0 <? sa)%Z eqn:E; intros [= <-]; simpl; rewrite ?E;
    repeat split; assumption.
Qed.



Lemma goalie_game_stats_lens :
  (forall x d, goalie_game_stats (set_goalie_game_stats x d) = x)
  /\ (forall x y d,
        set_goalie_game_stats x (set_goalie_game_stats y d)
        = set_goalie_game_stats x d)
  /\ (forall d, set_goalie_game_stats (goalie_game_stats d) d = d).
Proof. repeat split; intros; try reflexivity. now destruct d. Qed.

(** One call of [insertGoalieStat]: nothing when the pair is there,
    otherwise the row at the end of the table, or a refusal. *)
Lemma insertGoalieStat_eq (g p t : Z) (stats : Complete.GoalieBox) (d : Db) :
  Complete.insertGoalieStat g p t stats d =
  if in_dec ZZ_eq_dec (g, p) (map Complete.ggs_key (goalie_game_stats d))
  then (d, None)
  else match Complete.insertGoalieStat_row g p t stats with
       | Some r => (set_goalie_game_stats (goalie_game_stats d ++ [r]) d, None)
       | None => (d, Some Pg.refused)
       end.
Proof.
  destruct goalie_game_stats_lens as (l1 & l2 & l3).
  unfold Complete.insertGoalieStat.
  apply (insert_if_absent_eq goalie_game_stats set_goalie_game_stats l3).
Qed.

Lemma insertGoalieStat_keeps (g p t : Z) (stats : Complete.GoalieBox) (d : Db) :
  NoDup (map Complete.ggs_key (goalie_game_stats d)) ->
  let after := fst (Complete.insertGoalieStat g p t stats d) in
  NoDup (map Complete.ggs_key (goalie_game_stats after))
  /\ forall r, In r (goalie_game_stats d) -> In r (goalie_game_stats after).
Proof.
  intros ND. cbv zeta. rewrite insertGoalieStat_eq.
  destruct (in_dec ZZ_eq_dec (g, p) (map Complete.ggs_key (goalie_game_stats d)))
    as [I|I]; [now split|].
  destruct (Complete.insertGoalieStat_row g p t stats) as [r|] eqn:E;
    [|now split].
  cbn [fst goalie_game_stats set_goalie_game_stats]. split.
  - destruct (goalie_row g p t stats r E) as (K & _).
    rewrite map_app. simpl. rewrite K.
    apply NoDup_app; [exact ND | repeat constructor; intros [] |].
    intros k Hk [<-|[]]. contradiction.
  - intros r0 H. apply in_or_app. now left.
Qed.

(** X12.  [processGoalieStats] never writes a second row for a game and
    a goalie, and never touches a row that is there: the rows of before
    are all there after, the pairs (game, goalie) stay distinct, and
    inserting again a goalie of whom there is a row, with whatever
    figures, changes nothing and does not throw. *)
Theorem goalie_rows_written_once (g : Z)
    (lines : list (Z * Z * Complete.GoalieBox)) (d : Db) :
  NoDup (map Complete.ggs_key (goalie_game_stats d)) ->
  let after := fst (Complete.processGoalieStats g lines d) in
  NoDup (map Complete.ggs_key (goalie_game_stats after))
  /\ (forall r, In r (goalie_game_stats d) -> In r (goalie_game_stats after))
  /\ (forall p t stats,
        In (g, p) (map Complete.ggs_key (goalie_game_stats after)) ->
        Complete.insertGoalieStat g p t stats after = (after, None)).
Proof.
  intros ND. cbv zeta.
  assert (L : NoDup (map Complete.ggs_key
                       (goalie_game_stats
                          (fst (Complete.processGoalieStats g lines d))))
              /\ forall r, In r (goalie_game_stats d) ->
                   In r (goalie_game_stats
                           (fst (Complete.processGoalieStats g lines d)))).
  { unfold Complete.processGoalieStats.
    revert d ND. induction lines as [|[[p t] stats] rest IH]; intros d ND;
      simpl; [now split|].
    destruct (insertGoalieStat_keeps g p t stats d ND) as [N1 K1].
    destruct (Complete.insertGoalieStat g p t stats d) as [d1 [e|]];
      simpl in *; [now split|].
    destruct (IH d1 N1) as [N2 K2]. split; [exact N2|].
    intros r H. now apply K2, K1. }
  destruct L as [N K]. split; [exact N|]. split; [exact K|].
  intros p t stats I. rewrite insertGoalieStat_eq.
  destruct (in_dec ZZ_eq_dec (g, p) _); [reflexivity|contradiction].
Qed.

Lemma goalie_rows_written_once_witness :
  let after :=
    fst (Complete.processGoalieStats 2024020500 [(8478402, 15, goalie_30_2)]
           sample_store) in
  Complete.insertGoalieStat 2024020500 8478402 15 goalie_25_0 after
  = (after, None).
Proof.
  cbv zeta.
  apply (goalie_rows_written_once 2024020500 [(8478402, 15, goalie_30_2)]
           sample_store).
  - constructor.
  - vm_compute. now left.
Defined.

(** ** Shots *)




(** ** The orchestrator of [DataBackfill] *)

Lemma for_of_then {S A B : Type} (f : B -> Run.M S unit) (K : A -> B)
    (seasons : list A) (rest : list B) (k1 k2 : Run.M S unit) :
  (forall s, k1 s = Run.bind (Run.for_of rest f) (fun _ => k2) s) ->
  forall s,
    Run.bind (Run.for_of seasons (fun x => f (K x))) (fun _ => k1) s
    = Run.bind (Run.for_of (map K seasons ++ rest) f) (fun _ => k2) s.
Proof.
  intros H s. unfold Run.bind. rewrite for_of_app. unfold Run.bind.
  rewrite for_of_map.
  destruct (Run.for_of seasons (fun x => f (K x)) s) as [[[]|e] s1];
    [|reflexivity].
  rewrite H. reflexivity.
Qed.

Lemma for_of_pairs {S A B : Type} (f : B -> Run.M S unit) (K1 K2 : A -> B)
    (seasons : list A) (s : S) :
  Run.for_of seasons (fun x => Run.bind (f (K1 x)) (fun _ => f (K2 x))) s
  = Run.for_of (flat_map (fun x => [K1 x; K2 x]) seasons) f s.
Proof.
  revert s. induction seasons as [|x rest IH]; intros s; [reflexivity|].
  cbn [flat_map app Run.for_of]. unfold Run.bind.
  destruct (f (K1 x) s) as [[[]|e] s1]; [|reflexivity].
  destruct (f (K2 x) s1) as [[[]|e] s2]; [|reflexivity].
  apply IH.
Qed.

Lemma for_of_then_pairs {S A B : Type} (f : B -> Run.M S unit)
    (K1 K2 : A -> B) (seasons : list A) (rest : list B)
    (k1 k2 : Run.M S unit) :
  (forall s, k1 s = Run.bind (Run.for_of rest f) (fun _ => k2) s) ->
  forall s,
    Run.bind
      (Run.for_of seasons (fun x => Run.bind (f (K1 x)) (fun _ => f (K2 x))))
      (fun _ => k1) s
    = Run.bind
        (Run.for_of (flat_map (fun x => [K1 x; K2 x]) seasons ++ rest) f)
        (fun _ => k2) s.
Proof.
  intros H s. pose proof (for_of_pairs f K1 K2 seasons s) as P.
  unfold Run.bind at 1 3. rewrite for_of_app, P. unfold Run.bind at 1.
  destruct (Run.for_of (flat_map (fun x => [K1 x; K2 x]) seasons) f s)
    as [[[]|e] s1]; [|reflexivity].
  rewrite H. reflexivity.
Qed.

Lemma bind_assoc {S : Type} (a b k : Run.M S unit) (s : S) :
  Run.bind (Run.bind a (fun _ => b)) (fun _ => k) s
  = Run.bind a (fun _ => Run.bind b (fun _ => k)) s.
Proof. unfold Run.bind. destruct (a s) as [[[]|e] s1]; reflexivity. Qed.

Lemma bind_ext {S : Type} (a k1 k2 : Run.M S unit) :
  (forall s, k1 s = k2 s) ->
  forall s, Run.bind a (fun _ => k1) s = Run.bind a (fun _ => k2) s.
Proof.
  intros H s. unfold Run.bind. destruct (a s) as [[[]|e] s1]; [apply H|reflexivity].
Qed.

Section DataBackfillRun.
Variable body : DataBackfill.Stage -> Db -> Db * option Run.exn.

Local Abbreviation run1 := (DataBackfill.wrapper body).

(** The loops of a run are one pass over its schedule. *)
Lemma databackfill_schedule (seasons : list string) (includePlayoffs : bool)
    (s : DataBackfill.Service) :
  DataBackfill.all_stages body seasons includePlayoffs s
  = Run.bind
      (Run.for_of (DataBackfill.schedule seasons includePlayoffs) run1)
      (fun _ =>
         Run.bind (DataBackfill.set_currentStep "Completed Successfully")
                  (fun _ => DataBackfill.generateBackfillReport)) s.
Proof.
  unfold DataBackfill.all_stages, DataBackfill.schedule.
  cbn [Run.for_of]. rewrite bind_assoc.
  change (DataBackfill.backfillAllTeams body) with (run1 DataBackfill.Teams).
  revert s. apply bind_ext.
  apply (for_of_then run1 DataBackfill.Players); intros s1.
  apply (for_of_then run1
           (fun season => DataBackfill.Games season includePlayoffs));
    intros s2.
  apply (for_of_then run1 DataBackfill.PlayerGameStats); intros s3.
  apply (for_of_then run1 DataBackfill.GoalieGameStats); intros s4.
  apply (for_of_then run1 DataBackfill.TeamGameStats); intros s5.
  apply (for_of_then run1 DataBackfill.ShotData); intros s6.
  apply (for_of_then_pairs run1 DataBackfill.PlayerSeasonStats
           DataBackfill.TeamSeasonStats); intros s7.
  unfold Run.bind. now rewrite for_of_map.
Qed.

Lemma databackfill_ran_nothing (s : DataBackfill.Service) :
  DataBackfill.ran [] (DataBackfill.db s) s s.
Proof.
  unfold DataBackfill.ran. simpl. rewrite !app_nil_r.
  repeat split. lia.
Qed.

Lemma databackfill_ran_then (ev : DataBackfill.Stage * option Run.exn)
    (evs : list (DataBackfill.Stage * option Run.exn)) (d1 d2 : Db)
    (s s1 s2 : DataBackfill.Service) :
  DataBackfill.ran [ev] d1 s s1 -> DataBackfill.ran evs d2 s1 s2 ->
  DataBackfill.ran (ev :: evs) d2 s s2.
Proof.
  unfold DataBackfill.ran. simpl. rewrite !app_nil_r.
  intros (A1 & A2 & A3 & A4 & A5 & A6 & A7 & A8)
         (B1 & B2 & B3 & B4 & B5 & B6 & B7 & B8).
  rewrite B2, B3, B4, B5, B6, B7, B8, A2, A3, A4, A5, A6, A7, A8,
    <- !app_assoc.
  repeat split; try assumption. lia.
Qed.

(** One stage: it throws only when its body does and it is one of the
    four foundational stages. *)
Lemma one_wrapper (st : DataBackfill.Stage) (s : DataBackfill.Service) :
  fst (run1 st s)
  = match snd (body st (DataBackfill.db s)) with
    | Some e => if DataBackfill.is_fatal st then Run.Throw e else Run.Ok tt
    | None => Run.Ok tt
    end
  /\ DataBackfill.ran [(st, snd (body st (DataBackfill.db s)))]
                      (fst (body st (DataBackfill.db s))) s (snd (run1 st s)).
Proof.
  destruct st;
    unfold DataBackfill.wrapper, DataBackfill.backfillAllTeams,
      DataBackfill.backfillAllPlayersForSeason,
      DataBackfill.backfillCompleteGamesForSeason,
      DataBackfill.backfillPlayerGameStats,
      DataBackfill.backfillGoalieGameStats,
      DataBackfill.backfillTeamGameStats, DataBackfill.backfillShotData,
      DataBackfill.calculatePlayerSeasonStats,
      DataBackfill.calculateTeamSeasonStats,
      DataBackfill.backfillMoneyPuckAdvancedStats,
      DataBackfill.fatal_stage, DataBackfill.tolerant_stage,
      DataBackfill.updateProgress, DataBackfill.run_stage,
      DataBackfill.populated, DataBackfill.push_completed,
      DataBackfill.push_error, Run.bind, Run.try_catch, Run.modify, Run.throw,
      Run.ret, DataBackfill.ran, DataBackfill.error_lines,
      DataBackfill.completed_labels, DataBackfill.stage_error;
    cbn [DataBackfill.db DataBackfill.with_progress];
    destruct (body _ (DataBackfill.db s)) as [d' [e|]]; simpl;
    rewrite ?app_nil_r; repeat split.
Qed.

Lemma databackfill_stage_list (sts : list DataBackfill.Stage)
    (s : DataBackfill.Service) :
  fst (Run.for_of sts run1 s)
  = match DataBackfill.fatal_error
            (DataBackfill.events body sts (DataBackfill.db s)) with
    | Some e => Run.Throw e
    | None => Run.Ok tt
    end
  /\ DataBackfill.ran (DataBackfill.events body sts (DataBackfill.db s))
                      (DataBackfill.store_after body sts (DataBackfill.db s))
                      s (snd (Run.for_of sts run1 s)).
Proof.
  revert s. induction sts as [|st sts IH]; intros s.
  - split; [reflexivity | apply databackfill_ran_nothing].
  - destruct (one_wrapper st s) as [O1 O2].
    assert (D : DataBackfill.db (snd (run1 st s))
                = fst (body st (DataBackfill.db s))) by apply O2.
    cbn [Run.for_of DataBackfill.events DataBackfill.store_after
         DataBackfill.fatal_error].
    unfold Run.bind. destruct (run1 st s) as [r s1] eqn:E. simpl in O1, O2, D.
    destruct (snd (body st (DataBackfill.db s))) as [e|] eqn:B.
    + destruct (DataBackfill.is_fatal st) eqn:F; subst r.
      * simpl. split; [reflexivity|]. rewrite <- D in O2. now rewrite <- D.
      * destruct (IH s1) as [I1 I2]. rewrite D in I1, I2.
        split; [exact I1|].
        exact (databackfill_ran_then _ _ _ _ _ _ _ O2 I2).
    + subst r. destruct (IH s1) as [I1 I2]. rewrite D in I1, I2.
      split; [exact I1|].
      exact (databackfill_ran_then _ _ _ _ _ _ _ O2 I2).
Qed.

(** A foundational stage that threw is the last of the events, and its
    error is the one the pass throws; without one, every stage of the
    list ran. *)
Lemma events_fatal (sts : list DataBackfill.Stage) (d : Db)
    (st : DataBackfill.Stage) (e : Run.exn) :
  In (st, Some e) (DataBackfill.events body sts d) ->
  DataBackfill.is_fatal st = true ->
  DataBackfill.fatal_error (DataBackfill.events body sts d) = Some e
  /\ exists before,
       DataBackfill.events body sts d = before ++ [(st, Some e)].
Proof.
  revert d. induction sts as [|st0 sts IH]; intros d H F; [destruct H|].
  cbn [DataBackfill.events DataBackfill.fatal_error] in *.
  destruct (snd (body st0 d)) as [e0|] eqn:B.
  - destruct (DataBackfill.is_fatal st0) eqn:F0.
    + destruct H as [[= <- <-]|[]]. split; [reflexivity|]. now exists [].
    + destruct H as [[= <- <-]|H]; [congruence|].
      destruct (IH _ H F) as [I1 [before I2]]. split; [exact I1|].
      exists ((st0, Some e0) :: before). now rewrite I2.
  - destruct H as [[=]|H].
    destruct (IH _ H F) as [I1 [before I2]]. split; [exact I1|].
    exists ((st0, None) :: before). now rewrite I2.
Qed.

Lemma events_tolerated (sts : list DataBackfill.Stage) (d : Db) :
  (forall st e, In (st, Some e) (DataBackfill.events body sts d) ->
                DataBackfill.is_fatal st = false) ->
  DataBackfill.fatal_error (DataBackfill.events body sts d) = None
  /\ map fst (DataBackfill.events body sts d) = sts.
Proof.
  revert d. induction sts as [|st0 sts IH]; intros d H; [now split|].
  cbn [DataBackfill.events DataBackfill.fatal_error map fst] in *.
  destruct (snd (body st0 d)) as [e0|] eqn:B.
  - pose proof (H st0 e0 (or_introl eq_refl)) as F0. rewrite F0 in H |- *.
    destruct (IH (fst (body st0 d))) as [I1 I2];
      [intros st e Hin; apply (H st e); now right|].
    split; [exact I1 | now rewrite I2].
  - destruct (IH (fst (body st0 d))) as [I1 I2];
      [intros st e Hin; apply (H st e); now right|].
    split; [exact I1 | now rewrite I2].
Qed.

Lemma events_length (sts : list DataBackfill.Stage) (d : Db) :
  (List.length (DataBackfill.events body sts d) <= List.length sts)%nat.
Proof.
  revert d. induction sts as [|st0 sts IH]; intros d; simpl; [lia|].
  destruct (snd (body st0 d)); [destruct (DataBackfill.is_fatal st0)|];
    simpl; try lia.
  - specialize (IH (fst (body st0 d))). lia.
  - specialize (IH (fst (body st0 d))). lia.
Qed.
End DataBackfillRun.

Lemma databackfill_schedule_length (seasons : list string)
    (includePlayoffs : bool) :
  Z.of_nat (List.length (DataBackfill.schedule seasons includePlayoffs))
  = 1 + 9 * Z.of_nat (List.length seasons).
Proof.
  unfold DataBackfill.schedule. cbn [List.length].
  rewrite !length_app, !length_map.
  assert (F : List.length
                (flat_map (fun season =>
                             [DataBackfill.PlayerSeasonStats season;
                              DataBackfill.TeamSeasonStats season]) seasons)
              = (2 * List.length seasons)%nat).
  { induction seasons as [|x l IH]; simpl; [reflexivity|]. simpl in IH. lia. }
  rewrite F. lia.
Qed.

(** What an invocation on an idle instance comes to: the pass over the
    schedule, then either the error of the foundational stage that
    threw, recorded once more and thrown again, or the last step and
    the report; the flag is cleared in both cases. *)
Lemma databackfill_invoke (iv : DataBackfill.Invocation)
    (s : DataBackfill.Service) :
  DataBackfill.isRunning s = false ->
  let sts := DataBackfill.schedule (DataBackfill.iv_seasons iv)
                                   (DataBackfill.iv_includePlayoffs iv) in
  let evs := DataBackfill.events (DataBackfill.iv_stage_body iv) sts
                                 (DataBackfill.db s) in
  exists s0 s1,
    DataBackfill.ran evs
      (DataBackfill.store_after (DataBackfill.iv_stage_body iv) sts
                                (DataBackfill.db s)) s0 s1
    /\ DataBackfill.db s0 = DataBackfill.db s
    /\ DataBackfill.trace s0 = DataBackfill.trace s
    /\ DataBackfill.errors (DataBackfill.progress_of s0)
       = DataBackfill.errors (DataBackfill.progress_of s)
    /\ DataBackfill.completed (DataBackfill.progress_of s0)
       = DataBackfill.completed (DataBackfill.progress_of s)
    /\ DataBackfill.progress (DataBackfill.progress_of s0)
       = DataBackfill.progress (DataBackfill.progress_of s)
    /\ DataBackfill.totalSteps (DataBackfill.progress_of s0)
       = DataBackfill.calculateTotalSteps (DataBackfill.iv_seasons iv)
           (DataBackfill.iv_includePlayoffs iv)
    /\ DataBackfill.report s0 = DataBackfill.report s
    /\ DataBackfill.invoke iv s
       = match DataBackfill.fatal_error evs with
         | Some e =>
             (Run.Throw e,
              DataBackfill.set_isRunning false
                (snd (DataBackfill.push_error
                        ("Complete backfill failed: " ++ Run.errorMessage e)
                        s1)))
         | None =>
             (Run.Ok tt,
              DataBackfill.set_isRunning false
                (snd (Run.bind
                        (DataBackfill.set_currentStep "Completed Successfully")
                        (fun _ => DataBackfill.generateBackfillReport) s1)))
         end.
Proof.
  intros H. cbv zeta.
  unfold DataBackfill.invoke, DataBackfill.startCompleteBackfill. rewrite H.
  unfold DataBackfill.run_backfill, DataBackfill.set_totalSteps.
  unfold Run.bind at 1 2. unfold Run.modify at 1 2. cbv beta iota.
  match goal with
  | |- context [Run.try_finally _ _ ?x] => set (s0 := x)
  end.
  destruct (databackfill_stage_list (DataBackfill.iv_stage_body iv)
              (DataBackfill.schedule (DataBackfill.iv_seasons iv)
                                     (DataBackfill.iv_includePlayoffs iv)) s0)
    as [R1 R2].
  unfold Run.try_finally, Run.try_catch.
  rewrite databackfill_schedule. unfold Run.bind at 1.
  change (DataBackfill.db s0) with (DataBackfill.db s) in R1, R2.
  destruct (Run.for_of _ _ s0) as [r s1]. cbn [fst snd] in R1, R2. subst r.
  exists s0, s1. split; [exact R2|].
  repeat match goal with |- _ /\ _ => split end; try reflexivity.
  destruct (DataBackfill.fatal_error _) as [e|]; reflexivity.
Qed.

(** X14.  In a run of [DataBackfill.startCompleteBackfill] on an idle
    instance, when one of the four foundational stages (teams, players,
    games, player game statistics) throws, no stage runs after it, the
    invocation rejects with the same error, the error is in the error
    list twice (under the stage's message and under "Complete backfill
    failed"), no report is generated, and the running flag is
    cleared. *)
Theorem foundational_failure_aborts (iv : DataBackfill.Invocation)
    (s : DataBackfill.Service) (st : DataBackfill.Stage) (e : Run.exn) :
  DataBackfill.isRunning s = false ->
  let sts := DataBackfill.schedule (DataBackfill.iv_seasons iv)
                                   (DataBackfill.iv_includePlayoffs iv) in
  let evs := DataBackfill.events (DataBackfill.iv_stage_body iv) sts
                                 (DataBackfill.db s) in
  In (st, Some e) evs -> DataBackfill.is_fatal st = true ->
  let out := DataBackfill.invoke iv s in
  fst out = Run.Throw e
  /\ (exists before, evs = before ++ [(st, Some e)])
  /\ DataBackfill.trace (snd out) = DataBackfill.trace s ++ map fst evs
  /\ DataBackfill.errors (DataBackfill.progress_of (snd out))
     = DataBackfill.errors (DataBackfill.progress_of s)
       ++ DataBackfill.error_lines evs
       ++ [("Complete backfill failed: " ++ Run.errorMessage e)%string]
  /\ In (DataBackfill.stage_error st e) (DataBackfill.error_lines evs)
  /\ DataBackfill.report (snd out) = DataBackfill.report s
  /\ DataBackfill.isRunning (snd out) = false.
Proof.
  intros H. cbv zeta. intros I F.
  destruct (databackfill_invoke iv s H)
    as (s0 & s1 & R & D0 & T0 & E0 & C0 & P0 & S0 & Rp0 & Q).
  cbv zeta in R, Q.
  destruct (events_fatal _ _ _ _ _ I F) as [FE B].
  rewrite FE in Q. rewrite Q.
  destruct R as (R1 & R2 & R3 & R4 & R5 & R6 & R7 & R8).
  unfold DataBackfill.push_error, Run.modify.
  cbn [fst snd DataBackfill.trace DataBackfill.progress_of DataBackfill.errors
       DataBackfill.report DataBackfill.isRunning DataBackfill.set_isRunning
       DataBackfill.with_progress].
  rewrite R2, R3, R8, T0, E0, Rp0, <- app_assoc.
  repeat match goal with |- _ /\ _ => split end; try reflexivity.
  - exact B.
  - unfold DataBackfill.error_lines. apply in_flat_map.
    exists (st, Some e). split; [exact I | now left].
Qed.

Lemma foundational_failure_aborts_witness :
  let out :=
    DataBackfill.invoke teams_stage_fails (DataBackfill.new_service empty_db) in
  fst out = Run.Throw (Run.Error "fetch failed")
  /\ DataBackfill.trace (snd out) = [DataBackfill.Teams]
  /\ DataBackfill.errors (DataBackfill.progress_of (snd out))
     = [ "Teams backfill failed: fetch failed";
         "Complete backfill failed: fetch failed" ].
Proof.
  cbv zeta.
  destruct (foundational_failure_aborts teams_stage_fails
              (DataBackfill.new_service empty_db) DataBackfill.Teams
              (Run.Error "fetch failed") eq_refl (or_introl eq_refl) eq_refl)
    as (A & _ & B & C & _).
  split; [exact A|]. split; [exact B | exact C].
Defined.

(** X15.  In a run of [DataBackfill.startCompleteBackfill] on an idle
    instance in which no foundational stage throws, every stage of the
    schedule runs, in order, whatever the other stages (goalie and team
    game statistics, shot data, the two season aggregations, the
    advanced statistics) do: the invocation resolves, each of them that
    threw has left its message in the error list, each stage that did
    not has left its label in the completed list, and the report is
    generated with the number of errors and with all their messages. *)
Theorem other_failures_are_tolerated (iv : DataBackfill.Invocation)
    (s : DataBackfill.Service) :
  DataBackfill.isRunning s = false ->
  let sts := DataBackfill.schedule (DataBackfill.iv_seasons iv)
                                   (DataBackfill.iv_includePlayoffs iv) in
  let evs := DataBackfill.events (DataBackfill.iv_stage_body iv) sts
                                 (DataBackfill.db s) in
  (forall st e, In (st, Some e) evs -> DataBackfill.is_fatal st = false) ->
  let out := DataBackfill.invoke iv s in
  let after := DataBackfill.progress_of (snd out) in
  fst out = Run.Ok tt
  /\ DataBackfill.trace (snd out) = DataBackfill.trace s ++ sts
  /\ DataBackfill.errors after
     = DataBackfill.errors (DataBackfill.progress_of s)
       ++ DataBackfill.error_lines evs
  /\ DataBackfill.completed after
     = DataBackfill.completed (DataBackfill.progress_of s)
       ++ DataBackfill.completed_labels evs
  /\ DataBackfill.currentStep after = "Completed Successfully"
  /\ option_map DataBackfill.rp_errors (DataBackfill.report (snd out))
     = Some (DataBackfill.errors after)
  /\ option_map DataBackfill.rp_error_count (DataBackfill.report (snd out))
     = Some (Z.of_nat (List.length (DataBackfill.errors after)))
  /\ DataBackfill.isRunning (snd out) = false.
Proof.
  intros H. cbv zeta. intros T.
  destruct (databackfill_invoke iv s H)
    as (s0 & s1 & R & D0 & T0 & E0 & C0 & P0 & S0 & Rp0 & Q).
  cbv zeta in R, Q.
  destruct (events_tolerated _ _ _ T) as [FE M].
  rewrite FE in Q. rewrite Q.
  destruct R as (R1 & R2 & R3 & R4 & R5 & R6 & R7 & R8).
  unfold DataBackfill.generateBackfillReport, DataBackfill.set_currentStep,
    Run.bind, Run.modify.
  cbn [fst snd DataBackfill.trace DataBackfill.progress_of DataBackfill.errors
       DataBackfill.completed DataBackfill.currentStep
       DataBackfill.report DataBackfill.isRunning DataBackfill.set_isRunning
       DataBackfill.with_progress option_map DataBackfill.rp_errors
       DataBackfill.rp_error_count].
  rewrite R2, R3, R4, M, T0, E0, C0.
  repeat match goal with |- _ /\ _ => split end; reflexivity.
Qed.

Lemma other_failures_are_tolerated_witness :
  let out :=
    DataBackfill.invoke two_stages_fail (DataBackfill.new_service empty_db) in
  fst out = Run.Ok tt
  /\ DataBackfill.errors (DataBackfill.progress_of (snd out))
     = [ "Shot data failed for 20232024: rate limited";
         "Team season stats calculation failed: deadlock" ].
Proof.
  cbv zeta.
  assert (T : forall st e,
             In (st, Some e)
                (DataBackfill.events (DataBackfill.iv_stage_body two_stages_fail)
                   (DataBackfill.schedule
                      (DataBackfill.iv_seasons two_stages_fail)
                      (DataBackfill.iv_includePlayoffs two_stages_fail))
                   (DataBackfill.db (DataBackfill.new_service empty_db))) ->
             DataBackfill.is_fatal st = false).
  { intros st e I. vm_compute in I.
    repeat (destruct I as [I|I];
            [first [discriminate I | injection I as <- _; reflexivity]|]).
    destruct I. }
  destruct (other_failures_are_tolerated two_stages_fail
              (DataBackfill.new_service empty_db) eq_refl T)
    as (A & _ & B & _).
  split; [exact A | exact B].
Defined.

(** X16.  The counter of the progress goes up by one for each stage
    that runs, at most once for the teams and nine times a season,
    while [DataBackfill.calculateTotalSteps] counts ten steps a season
    (eleven with the playoffs): on a new instance and with at least one
    season the progress of a run of [DataBackfill] ends below its
    total, also when every stage succeeds. *)
Theorem databackfill_progress_falls_short (iv : DataBackfill.Invocation)
    (s : DataBackfill.Service) :
  DataBackfill.isRunning s = false ->
  let n := Z.of_nat (List.length (DataBackfill.iv_seasons iv)) in
  let evs :=
    DataBackfill.events (DataBackfill.iv_stage_body iv)
      (DataBackfill.schedule (DataBackfill.iv_seasons iv)
                             (DataBackfill.iv_includePlayoffs iv))
      (DataBackfill.db s) in
  let after := DataBackfill.progress_of (snd (DataBackfill.invoke iv s)) in
  DataBackfill.progress after
  = DataBackfill.progress (DataBackfill.progress_of s)
    + Z.of_nat (List.length evs)
  /\ Z.of_nat (List.length evs) <= 1 + 9 * n
  /\ DataBackfill.totalSteps after
     = 1 + 9 * n + n * (if DataBackfill.iv_includePlayoffs iv then 2 else 1)
  /\ (DataBackfill.iv_seasons iv <> [] ->
      DataBackfill.progress (DataBackfill.progress_of s) = 0 ->
      DataBackfill.progress after < DataBackfill.totalSteps after).
Proof.
  intros H. cbv zeta.
  destruct (databackfill_invoke iv s H)
    as (s0 & s1 & R & D0 & T0 & E0 & C0 & P0 & S0 & Rp0 & Q).
  cbv zeta in R, Q.
  destruct R as (R1 & R2 & R3 & R4 & R5 & R6 & R7 & R8).
  pose proof (events_length (DataBackfill.iv_stage_body iv)
                (DataBackfill.schedule (DataBackfill.iv_seasons iv)
                                       (DataBackfill.iv_includePlayoffs iv))
                (DataBackfill.db s)) as L.
  pose proof (databackfill_schedule_length (DataBackfill.iv_seasons iv)
                (DataBackfill.iv_includePlayoffs iv)) as SL.
  assert (A : DataBackfill.progress
                (DataBackfill.progress_of (snd (DataBackfill.invoke iv s)))
              = DataBackfill.progress (DataBackfill.progress_of s1)
              /\ DataBackfill.totalSteps
                   (DataBackfill.progress_of (snd (DataBackfill.invoke iv s)))
                 = DataBackfill.totalSteps (DataBackfill.progress_of s1)).
  { rewrite Q. destruct (DataBackfill.fatal_error _); split; reflexivity. }
  destruct A as [A1 A2]. rewrite A1, A2, R5, R6, P0, S0.
  unfold DataBackfill.calculateTotalSteps.
  assert (N : DataBackfill.iv_seasons iv <> [] ->
              0 < Z.of_nat (List.length (DataBackfill.iv_seasons iv))).
  { destruct (DataBackfill.iv_seasons iv); [congruence|]. simpl. lia. }
  repeat match goal with |- _ /\ _ => split end.
  - reflexivity.
  - lia.
  - destruct (DataBackfill.iv_includePlayoffs iv); lia.
  - intros NE Z0. specialize (N NE).
    destruct (DataBackfill.iv_includePlayoffs iv); lia.
Qed.

Lemma databackfill_progress_falls_short_witness :
  let after :=
    DataBackfill.progress_of
      (snd (DataBackfill.invoke two_stages_fail
              (DataBackfill.new_service empty_db))) in
  DataBackfill.progress after = 10 /\ DataBackfill.totalSteps after = 12.
Proof.
  cbv zeta.
  destruct (databackfill_progress_falls_short two_stages_fail
              (DataBackfill.new_service empty_db) eq_refl)
    as (A & _ & B & _).
  split; [exact A | exact B].
Defined.

(** ** The counter of the progress in [Complete] *)

Section CompleteCounter.
Variable fetch : Complete.StandingsFetch.
Variable body : Complete.Stage -> Db -> Db * option Run.exn.

Local Abbreviation counted s s' k :=
  (Complete.progress (Complete.progress_of s')
   = Complete.progress (Complete.progress_of s) + k
   /\ Complete.totalSteps (Complete.progress_of s')
      = Complete.totalSteps (Complete.progress_of s)).

Lemma complete_stage_counted (st : Complete.Stage) (s : Complete.Service) :
  counted s
    (snd (Complete.stage body (Complete.stage_step st)
            (Complete.stage_label st) st s)) 1.
Proof.
  unfold Complete.stage, Complete.updateProgress, Complete.run_stage,
    Complete.push_completed, Complete.push_error, Run.bind, Run.try_catch,
    Run.modify.
  cbn [Complete.db Complete.with_progress Complete.set_db Complete.enter].
  destruct (body st (Complete.db s)) as [d' [e|]]; simpl; split; reflexivity.
Qed.

Lemma complete_stages_counted (sts : list Complete.Stage)
    (s : Complete.Service) :
  counted s
    (snd (Run.for_of sts
            (fun st => Complete.stage body (Complete.stage_step st)
                         (Complete.stage_label st) st) s))
    (Z.of_nat (List.length sts)).
Proof.
  revert s. induction sts as [|st sts IH]; intros s.
  - simpl. split; [lia | reflexivity].
  - destruct (one_stage body st s) as [O1 _].
    destruct (complete_stage_counted st s) as [C1 C2].
    cbn [Run.for_of].
    rewrite (bind_after _ _ s
               (snd (Complete.stage body (Complete.stage_step st)
                       (Complete.stage_label st) st s)) tt)
      by (rewrite (surjective_pairing (Complete.stage body _ _ st s)), O1;
          reflexivity).
    destruct (IH (snd (Complete.stage body (Complete.stage_step st)
                         (Complete.stage_label st) st s))) as [I1 I2].
    rewrite I1, I2, C1, C2. split; [|reflexivity].
    cbn [List.length]. lia.
Qed.

Lemma complete_teams_counted (s : Complete.Service) :
  counted s (snd (Complete.backfillAllTeams fetch s)) 1.
Proof.
  unfold Complete.backfillAllTeams, Run.bind, Run.try_catch, Run.throw,
    Complete.updateProgress, Complete.push_completed, Run.modify,
    Complete.on_db.
  cbn [Complete.db Complete.with_progress].
  destruct fetch as [e|e|[standings|]];
    repeat match goal with
      | |- context [let (_, _) := ?x in _] => destruct x as [? [?|]]
      end;
    split; reflexivity.
Qed.

Lemma complete_run_counted (seasons : list string) (includePlayoffs : bool)
    (s : Complete.Service) :
  counted s (snd (Complete.all_stages fetch body seasons includePlayoffs s))
    (1 + 8 * Z.of_nat (List.length seasons)).
Proof.
  rewrite all_stages_schedule.
  destruct (teams_stage fetch s) as (T1 & _).
  destruct (complete_teams_counted s) as [A1 A2].
  set (s0 := snd (Complete.backfillAllTeams fetch s)) in *.
  rewrite (bind_after _ _ s s0 tt)
    by (rewrite (surjective_pairing (Complete.backfillAllTeams fetch s)), T1;
        reflexivity).
  destruct (stage_list body (Complete.schedule seasons includePlayoffs) s0)
    as (L1 & _).
  destruct (complete_stages_counted
              (Complete.schedule seasons includePlayoffs) s0) as [B1 B2].
  set (s1 := snd (Run.for_of (Complete.schedule seasons includePlayoffs) _ s0))
    in *.
  rewrite (bind_after _ _ s0 s1 tt)
    by (rewrite (surjective_pairing (Run.for_of _ _ s0)), L1; reflexivity).
  unfold Complete.generateFinalReport, Run.modify.
  cbn [snd Complete.progress_of Complete.set_final_report].
  rewrite B1, B2, A1, A2. split; [|reflexivity].
  unfold Complete.schedule. rewrite !length_app, !length_map. lia.
Qed.
End CompleteCounter.

(** X17.  A run of [Complete.startCompleteBackfill] on an idle instance
    sets the total of the steps to 1 + 8 x the number of seasons and
    raises the counter of the progress by exactly that much, whatever
    the stages do; so on a new instance the run ends with the counter at
    the total, and on an instance that has run before it ends above it,
    the counter never being reset. *)
Theorem complete_progress_reaches_total (iv : Complete.Invocation)
    (s : Complete.Service) :
  Complete.isRunning s = false ->
  let n := Z.of_nat (List.length (Complete.iv_seasons iv)) in
  let after := Complete.progress_of (snd (Complete.invoke iv s)) in
  Complete.totalSteps after = 1 + 8 * n
  /\ Complete.progress after
     = Complete.progress (Complete.progress_of s) + Complete.totalSteps after
  /\ (Complete.progress (Complete.progress_of s) = 0 ->
      Complete.progress after = Complete.totalSteps after).
Proof.
  intros H. cbv zeta.
  assert (Q : exists s0,
             (forall s1,
                 Complete.all_stages (Complete.iv_fetch iv)
                   (Complete.iv_stage_body iv) (Complete.iv_seasons iv)
                   (Complete.iv_includePlayoffs iv) s0 = (Run.Ok tt, s1) ->
                 Complete.invoke iv s
                 = (Run.Ok tt, Complete.set_isRunning false s1))
             /\ Complete.progress (Complete.progress_of s0)
                = Complete.progress (Complete.progress_of s)
             /\ Complete.totalSteps (Complete.progress_of s0)
                = Complete.calculateTotalSteps (Complete.iv_seasons iv)
                    (Complete.iv_includePlayoffs iv)).
  { unfold Complete.invoke, Complete.startCompleteBackfill. rewrite H.
    unfold Complete.run_backfill, Complete.set_totalSteps, Run.bind,
      Run.modify, Run.try_finally, Run.try_catch.
    match goal with
    | |- context [Complete.all_stages _ _ _ _ ?x] => exists x
    end.
    split; [intros s1 E; rewrite E; reflexivity | split; reflexivity]. }
  destruct Q as (s0 & Q & P0 & S0).
  destruct (complete_run_counted (Complete.iv_fetch iv)
              (Complete.iv_stage_body iv) (Complete.iv_seasons iv)
              (Complete.iv_includePlayoffs iv) s0) as [C1 C2].
  destruct (all_stages_run (Complete.iv_fetch iv) (Complete.iv_stage_body iv)
              (Complete.iv_seasons iv) (Complete.iv_includePlayoffs iv) s0)
    as (A1 & _).
  destruct (Complete.all_stages _ _ _ _ s0) as [r s1].
  cbn [fst snd] in *. subst r. rewrite (Q s1 eq_refl).
  cbn [fst snd Complete.progress_of Complete.set_isRunning].
  rewrite C1, C2, P0, S0.
  unfold Complete.calculateTotalSteps.
  repeat match goal with |- _ /\ _ => split end; try lia.
Qed.

Lemma complete_progress_reaches_total_witness :
  let after :=
    Complete.progress_of
      (snd (Complete.invoke every_stage_fails (Complete.new_service empty_db))) in
  Complete.totalSteps after = 9 /\ Complete.progress after = 9.
Proof.
  cbv zeta.
  destruct (complete_progress_reaches_total every_stage_fails
              (Complete.new_service empty_db) eq_refl) as (A & _ & B).
  split; [exact A | exact (eq_trans (B eq_refl) A)].
Defined.

(** ** The teams stage of [DataBackfill] *)

Lemma strict_eq_true (a b : Js.value) : Js.strict_eq a b = true -> a = b.
Proof.
  destruct a, b; simpl; try discriminate; try reflexivity.
  - intros H. apply Bool.eqb_prop in H. now subst.
  - intros H. apply Z.eqb_eq in H. now subst.
  - intros H. apply String.eqb_eq in H. now subst.
Qed.

Lemma find_team_found (abbrev : option Js.value)
    (data : list DataBackfill.StatsTeam) (team : DataBackfill.StatsTeam) :
  DataBackfill.find_team abbrev data = Run.Ok (Some team) ->
  abbrev = Some (DataBackfill.tm_id team).
Proof.
  induction data as [|t rest IH]; simpl; [discriminate|].
  destruct abbrev as [a|]; [|discriminate].
  destruct (Js.strict_eq (DataBackfill.tm_id t) a) eqn:E; [|exact IH].
  intros [= <-]. apply strict_eq_true in E. now subst.
Qed.

(** X18.  The teams stage of [DataBackfill] looks a standings entry up
    among the teams of the statistics interface by comparing the id of
    the team with the abbreviation of the entry, and sends that id as
    the id of the row: unless the abbreviation of some entry reads as
    an integer, the stage leaves the store as it found it, whatever the
    two interfaces answer; there is no fallback. *)
Theorem live_teams_need_a_numeric_abbreviation
    (standingsData : Run.Result (option (list DataBackfill.LiveStanding)))
    (teamsData : Run.Result (option (list DataBackfill.StatsTeam)))
    (d : Db) :
  (forall l standing a,
      standingsData = Run.Ok (Some l) -> In standing l ->
      DataBackfill.ls_teamAbbrev standing = Some a -> Pg.int_col a = None) ->
  fst (DataBackfill.teams_body standingsData teamsData d) = d.
Proof.
  intros L. unfold DataBackfill.teams_body.
  destruct standingsData as [[l|]|e]; [| | reflexivity];
    destruct teamsData as [data|e]; try reflexivity.
  assert (A : forall standing a,
             In standing l -> DataBackfill.ls_teamAbbrev standing = Some a ->
             Pg.int_col a = None).
  { intros standing a. now apply (L l). }
  clear L. induction l as [|standing rest IH]; simpl; [reflexivity|].
  destruct data as [teams|]; [|reflexivity].
  destruct (DataBackfill.find_team (DataBackfill.ls_teamAbbrev standing) teams)
    as [[team|]|e] eqn:F; [| |reflexivity].
  - apply find_team_found in F.
    pose proof (A standing _ (or_introl eq_refl) F) as N.
    unfold DataBackfill.insertCompleteTeamData, statement, Complete.bind_team,
      DataBackfill.insertCompleteTeamData_values.
    rewrite N. simpl. now destruct d.
  - apply IH. intros s a Hs. apply A. now right.
Qed.

Lemma live_teams_need_a_numeric_abbreviation_witness :
  DataBackfill.teams_body (Run.Ok (Some [capitals_live_standing]))
    (Run.Ok (Some [capitals_stats_team])) empty_db
  = (empty_db, None).
Proof.
  rewrite (surjective_pairing (DataBackfill.teams_body _ _ _)).
  rewrite (live_teams_need_a_numeric_abbreviation
             (Run.Ok (Some [capitals_live_standing]))
             (Run.Ok (Some [capitals_stats_team])) empty_db).
  - reflexivity.
  - intros l standing a [= <-] [<-|[]] [= <-]. reflexivity.
Defined.

(** ** The team rows of [DataBackfill]'s season aggregation *)

Lemma usize_nb_digits (d : Decimal.uint) :
  DecimalPos.Unsigned.usize d = N.of_nat (Decimal.nb_digits d).
Proof.
  induction d; cbn [DecimalPos.Unsigned.usize Decimal.nb_digits];
    rewrite ?IHd; lia.
Qed.

Lemma rev_app_uint (a b : Decimal.uint) :
  Decimal.rev (Decimal.app a b) = Decimal.revapp b (Decimal.rev a).
Proof.
  apply DecimalFacts.to_list_inj.
  rewrite DecimalFacts.rev_spec, DecimalFacts.app_spec, DecimalFacts.revapp_spec, DecimalFacts.rev_spec, rev_app_distr.
  now rewrite rev_append_rev.
Qed.

Lemma of_uint_app (a b : Decimal.uint) :
  Z.of_uint (Decimal.app a b)
  = Z.of_uint a * 10 ^ Z.of_nat (Decimal.nb_digits b) + Z.of_uint b.
Proof.
  unfold Z.of_uint.
  rewrite !DecimalPos.Unsigned.of_uint_alt, rev_app_uint,
    DecimalPos.Unsigned.of_lu_revapp, usize_nb_digits.
  rewrite N2Z.inj_add, N2Z.inj_mul, N2Z.inj_pow, nat_N_Z. simpl Z.of_N. lia.
Qed.

Lemma uint_of_string_app (a b : string) (ua ub : Decimal.uint) :
  NilEmpty.uint_of_string a = Some ua ->
  NilEmpty.uint_of_string b = Some ub ->
  NilEmpty.uint_of_string (a ++ b) = Some (Decimal.app ua ub).
Proof.
  intros Ha Hb. revert ua Ha. induction a as [|c r IH]; intros ua Ha.
  - injection Ha as <-. now rewrite DecimalFacts.app_nil_l.
  - cbn [append NilEmpty.uint_of_string] in *.
    destruct (NilEmpty.uint_of_string r) as [ur|].
    + rewrite (IH ur eq_refl).
      destruct c as [[|] [|] [|] [|] [|] [|] [|] [|]]; try discriminate Ha;
        cbn in Ha |- *; injection Ha as <-; f_equal; apply DecimalFacts.to_list_inj;
        cbn [DecimalFacts.to_list]; rewrite !DecimalFacts.app_spec; reflexivity.
    + destruct c as [[|] [|] [|] [|] [|] [|] [|] [|]]; discriminate Ha.
Qed.

Lemma string_of_uint_length (d : Decimal.uint) :
  String.length (NilEmpty.string_of_uint d) = Decimal.nb_digits d.
Proof. induction d; simpl; now rewrite ?IHd. Qed.

(** The digits of a count that is not negative. *)
Lemma Z_to_string_uint (z : Z) :
  0 <= z ->
  exists u, NilEmpty.uint_of_string (Js.Z_to_string z) = Some u
            /\ Z.of_uint u = z
            /\ Z.of_nat (Decimal.nb_digits u) = decimal_digits z.
Proof.
  unfold decimal_digits. destruct z as [|p|p]; intros H; [| |lia].
  - exists (Decimal.D0 Decimal.Nil). repeat split.
  - rewrite Z_to_string_pos. exists (Pos.to_uint p).
    rewrite NilEmpty.usu, string_of_uint_length. repeat split.
    unfold Z.of_uint. now rewrite DecimalPos.Unsigned.of_to.
Qed.

Lemma decimal_digits_positive (z : Z) : 0 <= z -> 1 <= decimal_digits z.
Proof.
  intros H. destruct (Z_to_string_nonneg z H) as (_ & c & r & E & _).
  unfold decimal_digits. rewrite E. simpl String.length. lia.
Qed.

(** A number added to the string of a count reads as the digits of the
    one followed by the digits of the other. *)
Lemma int_col_concat_value (a b : Z) :
  0 <= a -> 0 <= b ->
  Pg.int_col (Js.add (Js.Num a) (Pg.bigint_out b))
  = Some (a * 10 ^ decimal_digits b + b).
Proof.
  intros Ha Hb. unfold Js.add, Pg.bigint_out. simpl.
  unfold Pg.int_col, Pg.param. simpl Js.to_string.
  destruct (Z_to_string_nonneg a Ha) as (A1 & c & r & A2 & A3).
  destruct (Z_to_string_nonneg b Hb) as (B1 & _).
  destruct (Z_to_string_uint a Ha) as (ua & Ua & Va & _).
  destruct (Z_to_string_uint b Hb) as (ub & Ub & Vb & Nb).
  assert (Hall : Js.all_digits (Js.Z_to_string a ++ Js.Z_to_string b)%string = true)
    by now rewrite all_digits_app, A1, B1.
  pose proof (uint_of_string_app _ _ _ _ Ua Ub) as U.
  unfold Pg.int_in, Js.trim. rewrite A2 in *.
  change (String c r ++ Js.Z_to_string b)%string
    with (String c (r ++ Js.Z_to_string b)%string) in *.
  rewrite (strip_ws_digit_first _ _ A3), (rstrip_ws_all_digits _ Hall).
  unfold Js.signed_digits.
  rewrite (split_sign_digit_first _ _ A3), (digits_prefix_all _ Hall).
  unfold Js.digits_value. rewrite U. cbn [option_map].
  now rewrite of_uint_app, Va, Vb, Nb.
Qed.

Lemma databackfill_points_value (t : Z) (season : string) (d : Db) :
  let otl := sum_col (fun x => case_1_0 (DataBackfill.overtime_losses_case x))
                     (tgs_final_in_season t season d) in
  databackfill_points t season d
  = team_wins t season d * 2 * 10 ^ decimal_digits otl + otl.
Proof.
  intros otl. pose proof (databackfill_points_bound t season d) as PB.
  rewrite mul_bigint, int_col_concat_value in PB.
  - now injection PB as <-.
  - pose proof (sum_col_case_nonneg own_score_higher (tgs_final_in_season t season d)).
    unfold team_wins. lia.
  - apply sum_col_case_nonneg.
Qed.

(** The rows of a team after the loop of [DataBackfill]: what the loop
    sent, in every column but the key. *)
Lemma databackfill_rows_sent (season : string) (d : Db) (t : Z) :
  In t (map t_id (teams d)) ->
  tgs_final_in_season t season d <> [] ->
  forall r,
    In r (tss_rows_for t season (fst (DataBackfill.team_season_loop season d))) ->
    r = databackfill_team_row t season d
    \/ exists old,
         r = DataBackfill.team_season_set old (databackfill_team_row t season d).
Proof.
  intros Hin Hrows.
  destruct (team_loop_rows season d DataBackfill.team_season_values
              DataBackfill.bind_team_season_stat DataBackfill.team_season_set
              (fun t' => databackfill_team_row t' season d)) with (t := t)
    as (H1 & H2 & H3); try assumption.
  - intros t' d' E1 E2. unfold DataBackfill.team_season_values.
    now rewrite (tgs_final_same_inputs _ _ _ _ E1 E2).
  - intros t'. apply databackfill_team_values.
  - now intros [] [].
  - reflexivity.
Qed.

Lemma sum_col_either {X : Type} (f g : X -> bool) (rows : list X) :
  (forall x, f x && g x = false) ->
  sum_col (fun x => case_1_0 (f x || g x)) rows
  = sum_col (fun x => case_1_0 (f x)) rows
    + sum_col (fun x => case_1_0 (g x)) rows.
Proof.
  intros D. unfold sum_col. induction rows as [|x rows IH]; simpl; [reflexivity|].
  rewrite IH. pose proof (D x). unfold case_1_0.
  destruct (f x), (g x); cbn [andb orb] in *; try discriminate; lia.
Qed.

Lemma losses_split (test : GameRow -> bool) (rows : list (TeamGameStatRow * GameRow)) :
  sum_col (fun x => case_1_0 (lost_at_home x || lost_away x && test (snd x))) rows
  = sum_col (fun x => case_1_0 (lost_at_home x)) rows
    + sum_col (fun x => case_1_0 (lost_away x && test (snd x))) rows.
Proof.
  apply sum_col_either. intros [r g]. unfold lost_at_home, lost_away. simpl.
  destruct (tgs_is_home r); simpl; [|reflexivity].
  now rewrite andb_false_r.
Qed.

Lemma sum_col_ext {X : Type} (f g : X -> Z) (rows : list X) :
  (forall x, f x = g x) -> sum_col f rows = sum_col g rows.
Proof. intros E. unfold sum_col. f_equal. apply map_ext, E. Qed.

(** X19.  The losses of the team rows of [DataBackfill]: for a team of
    the Team table with a Final game in the season, every row the
    aggregation leaves for it counts as losses the games lost at home,
    whatever their period, and the games lost away in at most three
    periods, and as overtime losses the same games lost at home and the
    games lost away in more than three periods.  A game lost at home is
    counted in both columns. *)
Theorem home_losses_counted_twice (season : string) (d : Db) (t : Z) :
  In t (map t_id (teams d)) ->
  tgs_final_in_season t season d <> [] ->
  forall r,
    In r (tss_rows_for t season (fst (DataBackfill.team_season_loop season d))) ->
    tss_losses r
    = team_home_losses t season d
      + team_away_losses (DataBackfill.period_le 3) t season d
    /\ tss_overtime_losses r
       = Some (team_home_losses t season d
               + team_away_losses (DataBackfill.period_gt 3) t season d).
Proof.
  intros Hin Hrows r Hr.
  assert (L : forall test : GameRow -> bool,
             sum_col (fun x : TeamGameStatRow * GameRow => case_1_0
                        (let (r0, g) := x in
                         (tgs_is_home r0 && (g_home_score g <? g_away_score g)%Z)
                         || (negb (tgs_is_home r0)
                             && (g_away_score g <? g_home_score g)%Z && test g)))
                     (tgs_final_in_season t season d)
             = team_home_losses t season d + team_away_losses test t season d).
  { intros test. unfold team_home_losses, team_away_losses.
    rewrite <- losses_split. apply sum_col_ext. intros [r0 g]. reflexivity. }
  assert (R : tss_losses (databackfill_team_row t season d)
              = team_home_losses t season d
                + team_away_losses (DataBackfill.period_le 3) t season d
              /\ tss_overtime_losses (databackfill_team_row t season d)
                 = Some (team_home_losses t season d
                         + team_away_losses (DataBackfill.period_gt 3) t season d)).
  { unfold databackfill_team_row. cbn [tss_losses tss_overtime_losses].
    unfold DataBackfill.losses_case, DataBackfill.overtime_losses_case.
    now rewrite !L. }
  destruct (databackfill_rows_sent season d t Hin Hrows r Hr) as [->|[old ->]];
    [exact R|].
  destruct old. exact R.
Qed.

Lemma home_losses_counted_twice_witness :
  exists r,
    In r (tss_rows_for 3 "20232024"
            (fst (DataBackfill.team_season_loop "20232024" home_loss_store)))
    /\ tss_losses r = 1 /\ tss_overtime_losses r = Some 1
    /\ team_games 3 "20232024" home_loss_store = 1.
Proof.
  assert (E : exists r,
             In r (tss_rows_for 3 "20232024"
                     (fst (DataBackfill.team_season_loop "20232024"
                             home_loss_store)))).
  { vm_compute. eexists. left. reflexivity. }
  destruct E as [r Hr]. exists r. split; [exact Hr|].
  destruct (home_losses_counted_twice "20232024" home_loss_store 3) with (r := r)
    as [L O].
  - vm_compute. tauto.
  - vm_compute. discriminate.
  - exact Hr.
  - rewrite L, O. vm_compute. repeat split.
Defined.

(** X20.  The points of the team rows of [DataBackfill]: for a team of
    the Team table with a Final game in the season, every row the
    aggregation leaves for it has as points the digits of twice the
    wins followed by the digits of the overtime losses of the row, read
    as one number.  They are twice the wins plus the overtime losses
    only for a team without a win, and at least twenty times the wins
    otherwise. *)
Theorem points_are_digits_side_by_side (season : string) (d : Db) (t : Z) :
  In t (map t_id (teams d)) ->
  tgs_final_in_season t season d <> [] ->
  forall r,
    In r (tss_rows_for t season (fst (DataBackfill.team_season_loop season d))) ->
    exists otl,
      tss_overtime_losses r = Some otl
      /\ 0 <= otl
      /\ tss_points r = tss_wins r * 2 * 10 ^ decimal_digits otl + otl
      /\ tss_wins r * 20 + otl <= tss_points r
      /\ (tss_points r = tss_wins r * 2 + otl <-> tss_wins r = 0).
Proof.
  intros Hin Hrows r Hr.
  pose proof (databackfill_points_value t season d) as P. cbv zeta in P.
  assert (W : 0 <= team_wins t season d) by apply sum_col_case_nonneg.
  assert (R : exists otl,
             tss_overtime_losses (databackfill_team_row t season d) = Some otl
             /\ 0 <= otl
             /\ tss_points (databackfill_team_row t season d)
                = tss_wins (databackfill_team_row t season d) * 2
                  * 10 ^ decimal_digits otl + otl
             /\ tss_wins (databackfill_team_row t season d) * 20 + otl
                <= tss_points (databackfill_team_row t season d)
             /\ (tss_points (databackfill_team_row t season d)
                 = tss_wins (databackfill_team_row t season d) * 2 + otl
                 <-> tss_wins (databackfill_team_row t season d) = 0)).
  { eexists. split; [reflexivity|].
    cbn [databackfill_team_row tss_points tss_wins].
    set (otl := sum_col _ _) in *.
    assert (O : 0 <= otl) by apply sum_col_case_nonneg.
    pose proof (decimal_digits_positive otl O) as K.
    assert (T : 10 <= 10 ^ decimal_digits otl).
    { change 10 with (10 ^ 1) at 1. apply Z.pow_le_mono_r; lia. }
    rewrite P. clearbody otl. split; [exact O|]. split; [reflexivity|].
    split; [nia|]. split; [nia|]. intros ->. lia. }
  destruct (databackfill_rows_sent season d t Hin Hrows r Hr) as [->|[old ->]];
    [exact R|].
  destruct old. exact R.
Qed.

Lemma points_are_digits_side_by_side_witness :
  exists r,
    In r (tss_rows_for 15 "20232024"
            (fst (DataBackfill.team_season_loop "20232024" overtime_store)))
    /\ tss_wins r = 1 /\ tss_overtime_losses r = Some 0 /\ tss_points r = 20.
Proof.
  assert (E : exists r,
             In r (tss_rows_for 15 "20232024"
                     (fst (DataBackfill.team_season_loop "20232024"
                             overtime_store)))
             /\ tss_wins r = 1 /\ tss_overtime_losses r = Some 0).
  { vm_compute. eexists. split; [left; reflexivity|]. split; reflexivity. }
  destruct E as (r & Hr & W & O). exists r. split; [exact Hr|].
  split; [exact W|]. split; [exact O|].
  destruct (points_are_digits_side_by_side "20232024" overtime_store 15)
    with (r := r) as (otl & O' & _ & P & _).
  - vm_compute. tauto.
  - vm_compute. discriminate.
  - exact Hr.
  - rewrite O in O'. injection O' as <-. rewrite P, W. reflexivity.
Defined.

(** ** Running a season aggregation again *)

Section TeamLoopAgain.
Variable season : string.
Variable values : Z -> string -> Db -> option (list Js.value).
Variable bind : list Js.value -> option TeamSeasonStatRow.
Variable set : TeamSeasonStatRow -> TeamSeasonStatRow -> TeamSeasonStatRow.
Variable row_of : Db -> Z -> TeamSeasonStatRow.

Hypothesis values_same : forall t d d',
  team_game_stats d' = team_game_stats d -> games d' = games d ->
  values t season d' = values t season d.
Hypothesis values_row : forall t d,
  match tgs_final_in_season t season d with
  | [] => values t season d = None
  | _ => exists v, values t season d = Some v /\ bind v = Some (row_of d t)
  end.
Hypothesis set_key : forall old new, tss_key (set old new) = tss_key old.
Hypothesis set_set : forall x a b, set (set x a) b = set x b.
Hypothesis set_self : forall a, set a a = a.

Let loop (d : Db) : Outcome :=
  for_each
    (fun team d' =>
       match values (t_id team) season d' with
       | Some v =>
           let (tbl, e) :=
             statement (bind v)
                       (Table.insert_do_update tss_key tss_key_eqb set)
                       (team_season_stats d') in
           (set_team_season_stats tbl d', e)
       | None => (d', None)
       end)
    (teams d) d.

(** The loop over the teams, started on a store that differs from [d]
    in the season rows only. *)
Lemma team_loop_from (d d' : Db) :
  teams d' = teams d -> team_game_stats d' = team_game_stats d ->
  games d' = games d ->
  loop d'
  = (set_team_season_stats
       (Table.upsert_all tss_key tss_key_eqb set
          (team_rows (row_of d) season d (teams d)) (team_season_stats d')) d',
     None).
Proof.
  intros T G1 G2. unfold loop. rewrite T.
  apply (team_loop_eq season d values bind set (row_of d));
    [intros t d0; apply values_same | intros t; apply values_row | exact G1
    | exact G2].
Qed.

Lemma team_loop_again (d : Db) : loop (fst (loop d)) = loop d.
Proof.
  rewrite (team_loop_from d d eq_refl eq_refl eq_refl). cbn [fst].
  rewrite (team_loop_from d); try (now destruct d).
  cbn [team_season_stats set_team_season_stats].
  replace (team_season_stats (set_team_season_stats _ d))
    with (Table.upsert_all tss_key tss_key_eqb set
            (team_rows (row_of d) season d (teams d)) (team_season_stats d))
    by now destruct d.
  rewrite (upsert_all_replay tss_key tss_key_eqb tss_key_eqb_eq set set_key
             set_set set_self).
  now destruct d.
Qed.
End TeamLoopAgain.

Lemma complete_team_loop_from (season : string) (d d' : Db) :
  teams d' = teams d -> team_game_stats d' = team_game_stats d ->
  games d' = games d ->
  Complete.calculateTeamSeasonStats season d'
  = (set_team_season_stats
       (Table.upsert_all tss_key tss_key_eqb Complete.team_season_set
          (team_rows (fun t => complete_team_row t season d) season d (teams d))
          (team_season_stats d')) d',
     None).
Proof.
  apply (team_loop_from season Complete.team_season_values
           Complete.bind_team_season_stat Complete.team_season_set
           (fun d0 t => complete_team_row t season d0)).
  - intros t d0 d1 E1 E2. unfold Complete.team_season_values.
    now rewrite (tgs_final_same_inputs _ _ _ _ E1 E2).
  - intros t d0. apply complete_team_values.
Qed.

Lemma complete_player_statement_again (season : string) (d : Db)
    (x : list TeamSeasonStatRow) :
  Complete.player_season_statement season
    (set_team_season_stats x (Complete.player_season_statement season d))
  = set_team_season_stats x (Complete.player_season_statement season d).
Proof.
  unfold Complete.player_season_statement.
  set (y := Table.upsert_all _ _ _ _ (player_season_stats d)).
  change (Complete.season_stats_select season
            (set_team_season_stats x (set_player_season_stats y d)))
    with (Complete.season_stats_select season d).
  change (player_season_stats
            (set_team_season_stats x (set_player_season_stats y d))) with y.
  unfold y.
  rewrite (upsert_all_replay pss_key pss_key_eqb pss_key_eqb_eq
             Complete.season_stats_set season_set_laws_complete);
    [reflexivity | now intros [] [] [] | now intros []].
Qed.

Lemma databackfill_player_statement_again (season : string) (d : Db) :
  DataBackfill.player_season_statement season
    (DataBackfill.player_season_statement season d)
  = DataBackfill.player_season_statement season d.
Proof.
  unfold DataBackfill.player_season_statement.
  set (y := Table.upsert_all _ _ _ _ (player_season_stats d)).
  change (DataBackfill.season_stats_select season (set_player_season_stats y d))
    with (DataBackfill.season_stats_select season d).
  change (player_season_stats (set_player_season_stats y d)) with y.
  unfold y.
  rewrite (upsert_all_replay pss_key pss_key_eqb pss_key_eqb_eq
             DataBackfill.season_stats_set season_set_laws_databackfill);
    [reflexivity | now intros [] [] [] | now intros []].
Qed.

(** X21.  The season aggregations can be run again: on any store, a
    second run of the season statistics stage of [Complete] (the player
    statement and the loop over the teams), of the player statement of
    [DataBackfill], or of its loop over the teams, directly after the
    first, leaves every table as the first run left it and fails no
    more than the first did. *)
Theorem season_aggregation_again (season : string) (d : Db) :
  Complete.season_stats_stage season (fst (Complete.season_stats_stage season d))
  = Complete.season_stats_stage season d
  /\ DataBackfill.player_season_statement season
       (DataBackfill.player_season_statement season d)
     = DataBackfill.player_season_statement season d
  /\ DataBackfill.team_season_loop season
       (fst (DataBackfill.team_season_loop season d))
     = DataBackfill.team_season_loop season d.
Proof.
  split; [|split].
  - unfold Complete.season_stats_stage.
    set (d1 := Complete.player_season_statement season d).
    rewrite (complete_team_loop_from season d1 d1 eq_refl eq_refl eq_refl).
    cbn [fst].
    set (R := team_rows _ season d1 (teams d1)).
    unfold d1 at 2. rewrite complete_player_statement_again. fold d1.
    rewrite (complete_team_loop_from season d1); try reflexivity.
    fold R.
    change (team_season_stats
              (set_team_season_stats
                 (Table.upsert_all tss_key tss_key_eqb Complete.team_season_set
                    R (team_season_stats d1)) d1))
      with (Table.upsert_all tss_key tss_key_eqb Complete.team_season_set
              R (team_season_stats d1)).
    rewrite (upsert_all_replay tss_key tss_key_eqb tss_key_eqb_eq
               Complete.team_season_set);
      [reflexivity | now intros [] [] | now intros [] [] [] | now intros []].
  - apply databackfill_player_statement_again.
  - apply (team_loop_again season DataBackfill.team_season_values
             DataBackfill.bind_team_season_stat DataBackfill.team_season_set
             (fun d0 t => databackfill_team_row t season d0)).
    + intros t d0 d1 E1 E2. unfold DataBackfill.team_season_values.
      now rewrite (tgs_final_same_inputs _ _ _ _ E1 E2).
    + intros t d0. apply databackfill_team_values.
    + now intros [] [].
    + now intros [] [] [].
    + now intros [].
Qed.

(** ** The test backfill on a store that holds data *)

Section AddAbsent.
Context {Row Key : Type}.
Variable key : Row -> Key.
Variable key_eqb : Key -> Key -> bool.
Hypothesis key_eqb_eq : forall a b, key_eqb a b = true <-> a = b.

Lemma add_absent_keeps (rows tbl : list Row) (x : Row) :
  In x tbl -> In x (add_absent key key_eqb rows tbl).
Proof.
  revert tbl. induction rows as [|r rows IH]; intros tbl H; simpl; [exact H|].
  apply IH. unfold Table.insert_do_nothing.
  destruct (Table.conflicts key key_eqb (key r) tbl); [exact H|].
  apply in_or_app. now left.
Qed.

Lemma add_absent_keys (rows tbl : list Row) (k : Key) :
  In k (map key rows) \/ In k (map key tbl) ->
  In k (map key (add_absent key key_eqb rows tbl)).
Proof.
  revert tbl. induction rows as [|r rows IH]; intros tbl H; simpl.
  - destruct H as [[]|H]. exact H.
  - apply IH. simpl in H. unfold Table.insert_do_nothing.
    destruct (Table.conflicts key key_eqb (key r) tbl) eqn:C.
    + destruct H as [[<-|H]|H]; [right|now left|now right].
      now apply (conflicts_in_keys key key_eqb key_eqb_eq).
    + rewrite map_app. simpl.
      destruct H as [[<-|H]|H]; [right|now left|right].
      * apply in_or_app. right. now left.
      * apply in_or_app. now left.
Qed.

Lemma add_absent_present (rows tbl : list Row) :
  (forall r, In r rows -> In (key r) (map key tbl)) ->
  add_absent key key_eqb rows tbl = tbl.
Proof.
  induction rows as [|r rows IH]; intros H; simpl; [reflexivity|].
  unfold Table.insert_do_nothing.
  assert (C : Table.conflicts key key_eqb (key r) tbl = true).
  { apply (conflicts_in_keys key key_eqb key_eqb_eq). apply H. now left. }
  rewrite C. apply IH. intros r' Hr'. apply H. now right.
Qed.

Lemma add_absent_again (rows tbl : list Row) :
  add_absent key key_eqb rows (add_absent key key_eqb rows tbl)
  = add_absent key key_eqb rows tbl.
Proof.
  apply add_absent_present. intros r Hr. apply add_absent_keys. left.
  now apply in_map.
Qed.
End AddAbsent.

Section AnyStatement.
Context {A Row : Type}.
Variable get : Db -> list Row.
Variable put : list Row -> Db -> Db.
Hypothesis get_put : forall x d, get (put x d) = x.
Hypothesis put_put : forall x y d, put x (put y d) = put x d.
Hypothesis put_get : forall d, put (get d) d = d.
Variable bound : A -> option Row.
Variable op : Row -> list Row -> list Row.

(** A loop of statements on one table, when the store accepts the
    parameters of each. *)
Lemma statements_eq (xs : list A) (d : Db) :
  List.length (bound_prefix bound xs) = List.length xs ->
  for_each (statement_on get put bound op) xs d
  = (put (fold_left (fun t r => op r t) (bound_prefix bound xs) (get d)) d, None).
Proof.
  revert d. induction xs as [|x rest IH]; intros d H; simpl.
  - now rewrite put_get.
  - unfold statement_on at 1, statement. simpl in H.
    destruct (bound x) as [r|]; [|discriminate].
    rewrite IH by (simpl in H; congruence).
    now rewrite get_put, put_put.
Qed.
End AnyStatement.

Lemma capitals_players_eq (d : Db) :
  Complete.insertFallbackCapitalsPlayers d
  = (set_players
       (Table.upsert_all p_id Z.eqb Complete.insertPlayer_set
          capitals_player_rows (players d)) d,
     None).
Proof.
  destruct players_lens as (l1 & l2 & l3).
  apply (statements_eq players set_players l1 l2 l3 capitals_player_bound
           (Table.insert_do_update p_id Z.eqb Complete.insertPlayer_set)).
  vm_compute. reflexivity.
Qed.

Lemma sample_games_eq (season : Js.value) (d : Db) :
  Complete.insertSampleCapitalsGames season d
  = (set_games (add_absent g_id Z.eqb (sample_game_rows season) (games d)) d,
     None).
Proof.
  destruct games_lens as (l1 & l2 & l3).
  apply (statements_eq games set_games l1 l2 l3 (sample_game_bound season)
           (Table.insert_do_nothing g_id Z.eqb)).
  vm_compute. reflexivity.
Qed.

Section CheckedStatements.
Context {A Row : Type}.
Variable get : Db -> list Row.
Variable put : list Row -> Db -> Db.
Hypothesis get_put : forall x d, get (put x d) = x.
Hypothesis put_put : forall x y d, put x (put y d) = put x d.
Hypothesis put_get : forall d, put (get d) d = d.
Variable key : Row -> Z * Z.
Variable k_of : A -> Z * Z.
Variable bound : A -> option Row.
Hypothesis bound_key : forall x r, bound x = Some r -> key r = k_of x.

Lemma do_nothing_in_dec (r : Row) (tbl : list Row) :
  Table.insert_do_nothing key pair_eqb r tbl
  = if in_dec ZZ_eq_dec (key r) (map key tbl) then tbl else tbl ++ [r].
Proof.
  unfold Table.insert_do_nothing.
  pose proof (conflicts_in_keys key pair_eqb pair_eqb_eq (key r) tbl) as C.
  destruct (Table.conflicts key pair_eqb (key r) tbl);
    destruct (in_dec ZZ_eq_dec (key r) (map key tbl)) as [I|I];
    try reflexivity.
  - destruct I. now apply C.
  - apply C in I. discriminate.
Qed.

(** A loop of checked inserts on one table, when the store accepts the
    parameters of each. *)
Lemma checked_statements_eq (xs : list A) (d : Db) :
  List.length (bound_prefix bound xs) = List.length xs ->
  for_each (fun x => insert_if_absent get put key (k_of x) (bound x)) xs d
  = (put (add_absent key pair_eqb (bound_prefix bound xs) (get d)) d, None).
Proof.
  revert d. induction xs as [|x rest IH]; intros d H; simpl.
  - now rewrite put_get.
  - rewrite (insert_if_absent_eq get put put_get). simpl in H.
    destruct (bound x) as [r|] eqn:B; [|discriminate].
    cbn [add_absent fold_left]. rewrite do_nothing_in_dec.
    rewrite (bound_key x r B).
    destruct (in_dec ZZ_eq_dec (k_of x) (map key (get d))).
    + apply IH. simpl in H. congruence.
    + rewrite IH by (simpl in H; congruence).
      now rewrite get_put, put_put.
Qed.
End CheckedStatements.

Lemma sample_team_stats_eq (d : Db) :
  Complete.insertSampleTeamStats d
  = (set_team_game_stats
       (add_absent tgs_key pair_eqb sample_team_lines (team_game_stats d)) d,
     None).
Proof.
  destruct team_game_stats_lens as (l1 & l2 & l3).
  apply (checked_statements_eq team_game_stats set_team_game_stats l1 l2 l3
           tgs_key
           (fun stat => (Complete.ss_gameId stat, Complete.ss_teamId stat))
           sample_team_bound).
  - intros x r. unfold sample_team_bound, Complete.bind_team_game_stat.
    rewrite !int_col_Num. destruct_cols; try discriminate. now intros [= <-].
  - vm_compute. reflexivity.
Qed.

Lemma on_db_ok (f : Db -> Outcome) (s : Complete.Service) (d : Db) :
  f (Complete.db s) = (d, None) ->
  Complete.on_db f s = (Run.Ok tt, Complete.set_db d s).
Proof. intros H. unfold Complete.on_db. now rewrite H. Qed.

(** The test backfill on an idle instance resolves, whatever the store
    holds. *)
Lemma test_backfill_eq (seasons : list string) (s : Complete.Service) :
  Complete.isRunning s = false ->
  fst (Complete.startTestBackfill seasons s) = Run.Ok tt
  /\ Complete.isRunning (snd (Complete.startTestBackfill seasons s)) = false
  /\ Complete.db (snd (Complete.startTestBackfill seasons s))
     = test_store (Complete.first_season seasons) (Complete.db s).
Proof.
  intros H.
  assert (E : exists s',
             Complete.startTestBackfill seasons s = (Run.Ok tt, s')
             /\ Complete.isRunning s' = false
             /\ Complete.db s'
                = test_store (Complete.first_season seasons) (Complete.db s)).
  { unfold Complete.startTestBackfill. rewrite H.
    unfold Run.try_finally, Run.try_catch, Complete.set_totalSteps,
      Complete.generateTestBackfillReport.
    unfold Run.bind at 1. unfold Run.modify at 1.
    unfold Run.bind at 1. unfold Run.modify at 1.
    unfold Run.bind at 1.
    rewrite (on_db_ok _ _ _ (insertFallbackTeams_eq _)).
    unfold Run.bind at 1.
    rewrite (on_db_ok _ _ _ (capitals_players_eq _)).
    unfold Run.bind at 1.
    rewrite (on_db_ok _ _ _ (sample_games_eq _ _)).
    unfold Run.bind at 1.
    rewrite (on_db_ok _ _ _ (sample_team_stats_eq _)).
    unfold Run.modify. eexists. split; [reflexivity|]. split; reflexivity. }
  destruct E as (s' & -> & E1 & E2). repeat split; assumption.
Qed.

Lemma db_ext (a b : Db) :
  teams a = teams b -> players a = players b -> games a = games b ->
  player_game_stats a = player_game_stats b ->
  player_season_stats a = player_season_stats b ->
  team_game_stats a = team_game_stats b ->
  team_season_stats a = team_season_stats b ->
  goalie_game_stats a = goalie_game_stats b -> shots a = shots b -> a = b.
Proof. destruct a, b. simpl. congruence. Qed.

Lemma test_store_tables (season : Js.value) (d : Db) :
  teams (test_store season d)
  = Table.upsert_all t_id Z.eqb Complete.fallback_set fallback_rows (teams d)
  /\ players (test_store season d)
     = Table.upsert_all p_id Z.eqb Complete.insertPlayer_set
         capitals_player_rows (players d)
  /\ games (test_store season d)
     = add_absent g_id Z.eqb (sample_game_rows season) (games d)
  /\ team_game_stats (test_store season d)
     = add_absent tgs_key pair_eqb sample_team_lines (team_game_stats d)
  /\ player_game_stats (test_store season d) = player_game_stats d
  /\ player_season_stats (test_store season d) = player_season_stats d
  /\ team_season_stats (test_store season d) = team_season_stats d
  /\ goalie_game_stats (test_store season d) = goalie_game_stats d
  /\ shots (test_store season d) = shots d.
Proof. repeat split. Qed.

Lemma test_store_again (season : Js.value) (d : Db) :
  test_store season (test_store season d) = test_store season d.
Proof.
  destruct fallback_set_laws as (t1 & t2 & t3).
  destruct insertPlayer_set_laws as (p1 & p2 & p3).
  destruct (test_store_tables season (test_store season d))
    as (A1 & A2 & A3 & A4 & A5 & A6 & A7 & A8 & A9).
  destruct (test_store_tables season d)
    as (B1 & B2 & B3 & B4 & B5 & B6 & B7 & B8 & B9).
  apply db_ext; try congruence.
  - rewrite A1, B1.
    apply (upsert_all_replay t_id Z.eqb Z.eqb_eq Complete.fallback_set t1 t2 t3).
  - rewrite A2, B2.
    apply (upsert_all_replay p_id Z.eqb Z.eqb_eq Complete.insertPlayer_set
             p1 p2 p3).
  - rewrite A3, B3. apply (add_absent_again g_id Z.eqb Z.eqb_eq).
  - rewrite A4, B4. apply (add_absent_again tgs_key pair_eqb pair_eqb_eq).
Qed.

Lemma capitals_players_moved (tbl : list PlayerRow) (p : PlayerRow) :
  In p (Table.upsert_all p_id Z.eqb Complete.insertPlayer_set
          capitals_player_rows tbl) ->
  In (p_id p) (map Complete.fp_id Complete.fallback_players) ->
  p_team_id p = Complete.CAPITALS_TEAM_ID.
Proof.
  destruct insertPlayer_set_laws as (p1 & p2 & p3).
  intros Hp Hid.
  destruct (Table.last_with p_id Z.eqb (p_id p) capitals_player_rows) as [a|] eqn:L.
  - destruct (upsert_all_settled p_id Z.eqb Z.eqb_eq Complete.insertPlayer_set
                p1 p3 _ _ _ _ Hp L) as [y ->].
    apply (last_with_key p_id Z.eqb Z.eqb_eq) in L. destruct L as [La _].
    cbn [p_team_id Complete.insertPlayer_set].
    assert (F : Forall (fun r => p_team_id r = Complete.CAPITALS_TEAM_ID)
                       capitals_player_rows).
    { vm_compute. repeat constructor. }
    rewrite Forall_forall in F. now apply F.
  - apply (last_with_none p_id Z.eqb Z.eqb_eq) in L. destruct L.
    assert (E : map p_id capitals_player_rows
                = map Complete.fp_id Complete.fallback_players)
      by (vm_compute; reflexivity).
    now rewrite E.
Qed.

(** X22.  The test backfill on an idle instance, whatever the store
    holds and whatever seasons are passed: it resolves; every game and
    every per-game team line that was stored is still there as it was
    (a game already stored under the id of a sample game keeps its own
    score); the five sample games are there; every player row under
    one of the ten ids is with team 15; the other five tables are
    left alone; and a second run resolves and changes nothing. *)
Theorem test_backfill_keeps_stored_games (seasons : list string)
    (s : Complete.Service) :
  Complete.isRunning s = false ->
  let once := Complete.startTestBackfill seasons s in
  let twice := Complete.startTestBackfill seasons (snd once) in
  let d := Complete.db s in
  let d' := Complete.db (snd once) in
  fst once = Run.Ok tt
  /\ (forall g, In g (games d) -> In g (games d'))
  /\ (forall x, In x (team_game_stats d) -> In x (team_game_stats d'))
  /\ (forall game, In game Complete.sample_games ->
                   In (Complete.sm_id game) (map g_id (games d')))
  /\ (forall p, In p (players d') ->
                In (p_id p) (map Complete.fp_id Complete.fallback_players) ->
                p_team_id p = 15)
  /\ player_game_stats d' = player_game_stats d
  /\ player_season_stats d' = player_season_stats d
  /\ team_season_stats d' = team_season_stats d
  /\ goalie_game_stats d' = goalie_game_stats d
  /\ shots d' = shots d
  /\ fst twice = Run.Ok tt
  /\ Complete.db (snd twice) = d'.
Proof.
  intros H once twice d d'.
  destruct (test_backfill_eq seasons s H) as (R1 & F1 & D1).
  destruct (test_backfill_eq seasons (snd once) F1) as (R2 & _ & D2).
  fold once in R1, D1. fold d' in D1. fold d in D1. fold twice in R2, D2.
  fold d' in D2.
  split; [exact R1|]. rewrite D2, D1, test_store_again.
  destruct (test_store_tables (Complete.first_season seasons) d)
    as (B1 & B2 & B3 & B4 & B5 & B6 & B7 & B8 & B9).
  rewrite B2, B3, B4.
  repeat match goal with |- _ /\ _ => split end;
    try assumption; try reflexivity.
  - intros g. apply add_absent_keeps.
  - intros x. apply add_absent_keeps.
  - intros game Hg. apply (add_absent_keys g_id Z.eqb Z.eqb_eq). left.
    assert (E : map g_id (sample_game_rows (Complete.first_season seasons))
                = map Complete.sm_id Complete.sample_games)
      by (vm_compute; reflexivity).
    rewrite E. now apply in_map.
  - intros p. apply capitals_players_moved.
Qed.

Lemma test_backfill_keeps_stored_games_witness :
  let once := Complete.startTestBackfill ["20232024"]
                (Complete.new_service overtime_store) in
  fst once = Run.Ok tt
  /\ In 2023020700 (map g_id (games (Complete.db (snd once)))).
Proof.
  destruct (test_backfill_keeps_stored_games ["20232024"]
              (Complete.new_service overtime_store) eq_refl)
    as (R & G & _).
  split; [exact R|].
  assert (E : exists g, In g (games overtime_store) /\ g_id g = 2023020700).
  { vm_compute. eexists. split; [left; reflexivity|reflexivity]. }
  destruct E as (g & Hg & <-). apply in_map. apply G. exact Hg.
Defined.
